(** * Examma-ray: the randomized exam assignment engine

    A shallow embedding of [ExamGenerator.ts] (the generator, its option
    check, the assignment builder and the consistency checker) and of the
    parts of [ExamUtils.ts] it relies on ([createStudentUuid],
    [loadCSVRoster], [loadExamSpecification], [saveExamSpecification]).

    Conventions of the embedding:
    - a JavaScript string is a [string]; its [length] is [String.length]
      (one character per code unit);
    - an exception is the [Err] case of [result]; code that mutates an object
      before it throws is modelled in a state monad whose state survives the
      error, as the object's fields do;
    - an object used as a dictionary is a [gmap string _] of its own
      properties, read and assigned as a plain object is: with what it
      inherits from [Object.prototype];
    - the identity of a specification object ([===] on objects) is an
      address, a [SpecRef]. *)

From Stdlib Require Import ZArith Ascii String List Lia.
From stdpp Require Import base option list strings pretty gmap sorting.

Local Open Scope string_scope.
Local Open Scope list_scope.
Set Warnings "-register-all".

(** ** Exceptions *)

Inductive error :=
| AssertionFailed (message : string)   (* thrown by [assert] of core/util *)
| TypeError (message : string)         (* thrown by the language itself *)
| Thrown (what : string).              (* thrown by a collaborator *)

Inductive result (A : Type) :=
| Ok (a : A)
| Err (e : error).
Arguments Ok {A} a.
Arguments Err {A} e.

(** ** State and exception monad

    [M St A] is a computation over a mutable store [St] that returns an [A] or
    throws. The store is returned in both cases. *)

Definition M (St A : Type) : Type := St -> result A * St.

Definition ret {St A} (a : A) : M St A := fun s => (Ok a, s).

Definition throw {St A} (e : error) : M St A := fun s => (Err e, s).

Definition bind {St A B} (m : M St A) (k : A -> M St B) : M St B :=
  fun s => match m s with
           | (Ok a, s') => k a s'
           | (Err e, s') => (Err e, s')
           end.

Definition get {St} : M St St := fun s => (Ok s, s).
Definition modify {St} (f : St -> St) : M St unit := fun s => (Ok tt, f s).
Definition liftR {St A} (r : result A) : M St A := fun s => (r, s).

Declare Scope gen_scope.
Delimit Scope gen_scope with gen.
Notation "x <- m ;; k" := (bind m (fun x => k))
  (at level 100, m at next level, right associativity) : gen_scope.
Notation "m ;;; k" := (bind m (fun _ => k))
  (at level 100, right associativity) : gen_scope.
Local Open Scope gen_scope.

(** The same for pure code that throws. *)

Definition rbind {A B} (r : result A) (k : A -> result B) : result B :=
  match r with
  | Ok a => k a
  | Err e => Err e
  end.

Notation "x <-- r ;; k" := (rbind r (fun x => k))
  (at level 100, r at next level, right associativity) : gen_scope.

(** Modelled from the spec: [assert] of core/util, the assertion that the
    generator and the utilities call; a failed assertion is fatal and aborts
    the run. The condition is the truthiness of the asserted expression. *)
Definition assert {St} (condition : bool) (message : string) : M St unit :=
  if condition then ret tt else throw (AssertionFailed message).

(** [Array.prototype.forEach] with a callback that can throw. *)
Fixpoint forEach {St A} (f : A -> M St unit) (l : list A) : M St unit :=
  match l with
  | [] => ret tt
  | x :: l' => f x ;;; forEach f l'
  end.

(** [Array.prototype.map] with the element index, from index [i] on. *)
Fixpoint mapM_from {St A B} (i : nat) (f : A -> nat -> M St B) (l : list A)
  : M St (list B) :=
  match l with
  | [] => ret []
  | x :: l' => y <- f x i ;; ys <- mapM_from (S i) f l' ;; ret (y :: ys)
  end.

Definition mapM {St A B} (f : A -> M St B) (l : list A) : M St (list B) :=
  mapM_from 0 (fun x _ => f x) l.

(** [Array.prototype.flatMap], with and without the index. *)
Definition flatMapM_idx {St A B} (f : A -> nat -> M St (list B)) (l : list A)
  : M St (list B) :=
  ls <- mapM_from 0 f l ;; ret (concat ls).

Definition flatMapM {St A B} (f : A -> M St (list B)) (l : list A)
  : M St (list B) :=
  flatMapM_idx (fun x _ => f x) l.

(** A computation on one component of a pair of stores. *)
Definition zoom_fst {St T A} (m : M St A) : M (St * T) A :=
  fun st => let '(r, s') := m (fst st) in (r, (s', snd st)).

Definition zoom_snd {St T A} (m : M T A) : M (St * T) A :=
  fun st => let '(r, t') := m (snd st) in (r, (fst st, t')).

(** A computation that owns a local mutable object, created as [t0] and
    dropped at the end. *)
Definition with_local {St T A} (t0 : T) (m : M (St * T) A) : M St A :=
  fun s => let '(r, st) := m (s, t0) in (r, fst st).

(** ** Options of the generator *)

Inductive UUID_Strategy := plain | uuidv4 | uuidv5.

Global Instance UUID_Strategy_eq_dec : EqDecision UUID_Strategy.
Proof. solve_decision. Defined.

Record ExamGeneratorOptions := {
  frontend_js_path : string;
  frontend_media_dir : string;
  uuid_strategy : UUID_Strategy;
  uuidv5_namespace : option string;
  choose_all : option bool;
  allow_duplicates : bool;
  consistent_randomization : option bool
}.

(** [Partial<ExamGeneratorOptions>]: [None] is a property that is absent. *)
Record PartialOptions := {
  p_frontend_js_path : option string;
  p_frontend_media_dir : option string;
  p_uuid_strategy : option UUID_Strategy;
  p_uuidv5_namespace : option string;
  p_choose_all : option bool;
  p_allow_duplicates : option bool;
  p_consistent_randomization : option bool
}.

Definition no_options : PartialOptions :=
  {| p_frontend_js_path := None; p_frontend_media_dir := None;
     p_uuid_strategy := None; p_uuidv5_namespace := None;
     p_choose_all := None; p_allow_duplicates := None;
     p_consistent_randomization := None |}.

(** Truthiness of an optional string and of an optional boolean. *)
Definition truthy_string (s : option string) : bool :=
  match s with
  | None => false
  | Some s => negb (String.eqb s "")
  end.

Definition truthy_bool (b : option bool) : bool :=
  match b with
  | None => false
  | Some b => b
  end.

Definition msg_namespace_missing : string :=
  "If uuidv5 filenames are selected, a uuidv5_namespace option must be specified.".

Definition msg_namespace_short : string :=
  "uuidv5 namespace must be at least 16 characters.".

Definition namespace_length_ok (ns : option string) : bool :=
  match ns with
  | None => true     (* never evaluated: the namespace is falsy *)
  | Some s => (16 <=? String.length s)%nat
  end.

Definition verifyOptions (options : PartialOptions) : M unit unit :=
  assert (negb (bool_decide (p_uuid_strategy options = Some uuidv5))
          || truthy_string (p_uuidv5_namespace options))
         msg_namespace_missing ;;;
  assert (negb (truthy_string (p_uuidv5_namespace options))
          || namespace_length_ok (p_uuidv5_namespace options))
         msg_namespace_short.

(** [Object.assign({}, DEFAULT_OPTIONS, options)]. [DEFAULT_OPTIONS] has no
    [uuidv5_namespace], [choose_all] or [consistent_randomization]. *)
Definition assign_defaults (options : PartialOptions) : ExamGeneratorOptions :=
  {| frontend_js_path := default "js/frontend.js" (p_frontend_js_path options);
     frontend_media_dir := default "media" (p_frontend_media_dir options);
     uuid_strategy := default plain (p_uuid_strategy options);
     uuidv5_namespace := p_uuidv5_namespace options;
     choose_all := p_choose_all options;
     allow_duplicates := default false (p_allow_duplicates options);
     consistent_randomization := p_consistent_randomization options |}.

(** ** Students and identifiers *)

(** Modelled from the spec: [StudentInfo] of core/exam_specification. *)
Record StudentInfo := { uniqname : string; name : string }.

(** The [uuid] package: [v4] draws from a random source, modelled as the
    sequence of its draws, [v5] hashes a name under a namespace and rejects
    a namespace it cannot read. *)
Class UuidPackage := {
  uuid_v4 : nat -> string;
  uuid_v5 : string -> string -> result string
}.

Section Uuid.
Context `{UuidPackage}.

(** The store is the number of draws made from the random source. *)
Definition createStudentUuid (options : ExamGeneratorOptions)
    (student : StudentInfo) (id : string) : M nat string :=
  match uuid_strategy options with
  | plain => ret (uniqname student +:+ "-" +:+ id)
  | uuidv4 => fun draws => (Ok (uuid_v4 draws), S draws)
  | uuidv5 =>
      assert (truthy_string (uuidv5_namespace options)) "" ;;;
      match uuidv5_namespace options with
      | Some ns => liftR (uuid_v5 (uniqname student +:+ "-" +:+ id) ns)
      | None => throw (TypeError "unreachable")
      end
  end.
End Uuid.

(** ** Plain objects used as tables

    The tables of the generator are objects made by [{}] and addressed with
    [table[key]]; a finite map holds their own properties. A read finds the
    own property or, under a name of [Object.prototype], the property that
    every plain object inherits: a function, or [Object.prototype] itself
    under [__proto__]. An assignment makes an own property, except under
    [__proto__]: there the inherited setter makes the assigned object the
    prototype of the table, and the table gets no property. The names are
    those of a realm whose [Object.prototype] was left as the language
    makes it; what a table inherits from an object that was made its
    prototype is left out. *)
Definition Object_prototype_names : list string :=
  ["constructor"; "__defineGetter__"; "__defineSetter__"; "hasOwnProperty";
   "__lookupGetter__"; "__lookupSetter__"; "isPrototypeOf";
   "propertyIsEnumerable"; "toString"; "valueOf"; "__proto__";
   "toLocaleString"].

Definition inherited (key : string) : bool :=
  existsb (String.eqb key) Object_prototype_names.

Inductive property (A : Type) :=
| Own (a : A)
| Inherited
| Missing.
Arguments Own {A} a.
Arguments Inherited {A}.
Arguments Missing {A}.

(** [table[key]] *)
Definition read_property {A} (table : gmap string A) (key : string)
  : property A :=
  match table !! key with
  | Some a => Own a
  | None => if inherited key then Inherited else Missing
  end.

(** [table[key] = a], for an object [a] *)
Definition assign_property {A} (key : string) (a : A) (table : gmap string A)
  : gmap string A :=
  if String.eqb key "__proto__" then table else <[key := a]> table.

(** ** Exam components

    The generator works on the classes of core/exam_components, core/skins,
    core/randomization and core/assigned_exams. Their fields here are the
    ones the generator reads and writes; what their methods compute is left
    open, as the interfaces below. *)

(** A JavaScript number, with [===] on numbers (which [NaN] fails against
    itself), [+] and the conversion to a string of a template literal. *)
Class JsNumber := {
  number : Type;
  num_zero : number;
  num_add : number -> number -> number;
  strict_eq : number -> number -> bool;
  num_toString : number -> string
}.

(** The opaque values of the specification: the stateful [Randomizer]
    objects, the choosers of an exam's sections, of a section's questions and
    of a skin, and the skins themselves. *)
Class Opaque := {
  Randomizer : Type;
  SectionChooser : Type;
  QuestionChooser : Type;
  SkinChooser : Type;
  ExamComponentSkin : Type
}.

(** The address of a specification object. *)
Definition SpecRef := nat.

Section Components.
Context `{JsNumber} `{Opaque}.

(** Modelled from the spec: the [skin] of a section or question, declared
    in core/skins, is a concrete skin or a chooser of skins
    ([component_kind === "chooser"]). *)
Inductive Skin :=
| SkinLeaf (skin : ExamComponentSkin)
| SkinChoice (chooser : SkinChooser).

(** Modelled from the spec: the specification nodes of
    core/exam_components, each with its stable id, the back-reference to the
    specification object it comes from and its skin; a question has its
    [pointsPossible]. *)
Record Question := {
  question_id : string;
  question_spec : SpecRef;
  question_skin : Skin;
  question_pointsPossible : number;
  question_media_dir : option string
}.

Record Section := {
  section_id : string;
  section_spec : SpecRef;
  section_skin : Skin;
  section_questions : list QuestionChooser;
  section_media_dir : option string
}.

Record Exam := {
  exam_id : string;
  exam_sections : list SectionChooser;
  exam_media_dir : option string
}.

(** Modelled from the spec: the assignment tree of core/assigned_exams,
    with the fields that the constructor calls of the generator fill in. *)
Record AssignedQuestion := {
  aq_uuid : string;
  aq_exam : Exam;
  aq_student : StudentInfo;
  aq_question : Question;
  aq_skin : ExamComponentSkin;
  aq_sectionIndex : nat;
  aq_partIndex : nat;
  aq_rawSubmission : string
}.

Record AssignedSection := {
  as_uuid : string;
  as_section : Section;
  as_sectionIndex : nat;
  as_skin : ExamComponentSkin;
  as_assignedQuestions : list AssignedQuestion
}.

Record AssignedExam := {
  ae_uuid : string;
  ae_exam : Exam;
  ae_student : StudentInfo;
  ae_assignedSections : list AssignedSection;
  ae_pointsPossible : number
}.

(** All questions assigned in a list of assigned sections, in order. *)
Definition assignedQuestions (sections : list AssignedSection)
  : list AssignedQuestion :=
  concat (map as_assignedQuestions sections).

(** Modelled from the spec: the constructor of [AssignedExam], which is in
    core/assigned_exams. It stores its arguments and derives
    [pointsPossible] as the sum over all assigned questions'
    [pointsPossible]. *)
Definition new_AssignedExam (uuid : string) (exam : Exam)
    (student : StudentInfo) (assignedSections : list AssignedSection)
    (allowDuplicates : bool) : AssignedExam :=
  {| ae_uuid := uuid; ae_exam := exam; ae_student := student;
     ae_assignedSections := assignedSections;
     ae_pointsPossible :=
       fold_left num_add
         (map (fun aq => question_pointsPossible (aq_question aq))
              (assignedQuestions assignedSections))
         num_zero |}.

(** The collaborators of the generator: core/randomization
    ([CHOOSE_ALL] and the four seeded randomizers), core/exam_specification
    ([chooseSections], [chooseQuestions]), core/skins (the [choose] method of
    a skin chooser, [createCompositeSkin]). A chooser draws from the
    randomizer it is given, which changes that randomizer, and can throw. *)
Class Collaborators := {
  CHOOSE_ALL : Randomizer;
  createSectionChoiceRandomizer : string -> Exam -> Randomizer;
  createQuestionChoiceRandomizer : string -> Exam -> Section -> Randomizer;
  createSectionSkinRandomizer : string -> Exam -> Section -> Randomizer;
  createQuestionSkinRandomizer : string -> Exam -> Question -> Randomizer;
  chooseSections :
    SectionChooser -> Exam -> StudentInfo -> M Randomizer (list Section);
  chooseQuestions :
    QuestionChooser -> Exam -> StudentInfo -> M Randomizer (list Question);
  skin_choose :
    SkinChooser -> Exam -> StudentInfo -> M Randomizer (list ExamComponentSkin);
  createCompositeSkin :
    ExamComponentSkin -> ExamComponentSkin -> result ExamComponentSkin
}.

(** ** The generator *)

Record SectionStats := { stats_section : Section; stats_section_n : N }.
Record QuestionStats := { stats_question : Question; stats_question_n : N }.

(** The mutable fields of an [ExamGenerator], and the number of draws made
    from the random source of the [uuid] package. *)
Record GenState := {
  assignedExams : list AssignedExam;
  assignedExamsByUniqname : gmap string AssignedExam;
  sectionsMap : gmap string Section;
  questionsMap : gmap string Question;
  sectionStatsMap : gmap string SectionStats;
  questionStatsMap : gmap string QuestionStats;
  uuid_draws : nat
}.

Definition initial_state (draws : nat) : GenState :=
  {| assignedExams := []; assignedExamsByUniqname := ∅;
     sectionsMap := ∅; questionsMap := ∅;
     sectionStatsMap := ∅; questionStatsMap := ∅;
     uuid_draws := draws |}.

Record ExamGenerator := {
  gen_exam : Exam;
  gen_options : ExamGeneratorOptions;
  gen_state : GenState
}.

(** [new ExamGenerator(exam, options)], in a process that has made [draws]
    draws from the random source. *)
Definition constructor (draws : nat) (exam : Exam) (options : PartialOptions)
  : result ExamGenerator :=
  _ <-- fst (verifyOptions options tt) ;;
  Ok {| gen_exam := exam; gen_options := assign_defaults options;
        gen_state := initial_state draws |}.

Definition push_assignedExam (ae : AssignedExam) (st : GenState) : GenState :=
  {| assignedExams := assignedExams st ++ [ae];
     assignedExamsByUniqname := assignedExamsByUniqname st;
     sectionsMap := sectionsMap st; questionsMap := questionsMap st;
     sectionStatsMap := sectionStatsMap st;
     questionStatsMap := questionStatsMap st;
     uuid_draws := uuid_draws st |}.

Definition set_assignedExamsByUniqname (m : gmap string AssignedExam)
    (st : GenState) : GenState :=
  {| assignedExams := assignedExams st;
     assignedExamsByUniqname := m;
     sectionsMap := sectionsMap st; questionsMap := questionsMap st;
     sectionStatsMap := sectionStatsMap st;
     questionStatsMap := questionStatsMap st;
     uuid_draws := uuid_draws st |}.

Definition set_sectionsMap (m : gmap string Section) (st : GenState)
  : GenState :=
  {| assignedExams := assignedExams st;
     assignedExamsByUniqname := assignedExamsByUniqname st;
     sectionsMap := m; questionsMap := questionsMap st;
     sectionStatsMap := sectionStatsMap st;
     questionStatsMap := questionStatsMap st;
     uuid_draws := uuid_draws st |}.

Definition set_questionsMap (m : gmap string Question) (st : GenState)
  : GenState :=
  {| assignedExams := assignedExams st;
     assignedExamsByUniqname := assignedExamsByUniqname st;
     sectionsMap := sectionsMap st; questionsMap := m;
     sectionStatsMap := sectionStatsMap st;
     questionStatsMap := questionStatsMap st;
     uuid_draws := uuid_draws st |}.

Definition set_sectionStatsMap (m : gmap string SectionStats) (st : GenState)
  : GenState :=
  {| assignedExams := assignedExams st;
     assignedExamsByUniqname := assignedExamsByUniqname st;
     sectionsMap := sectionsMap st; questionsMap := questionsMap st;
     sectionStatsMap := m;
     questionStatsMap := questionStatsMap st;
     uuid_draws := uuid_draws st |}.

Definition set_questionStatsMap (m : gmap string QuestionStats)
    (st : GenState) : GenState :=
  {| assignedExams := assignedExams st;
     assignedExamsByUniqname := assignedExamsByUniqname st;
     sectionsMap := sectionsMap st; questionsMap := questionsMap st;
     sectionStatsMap := sectionStatsMap st;
     questionStatsMap := m;
     uuid_draws := uuid_draws st |}.

(** A computation on the random source, run on the generator's state. *)
Definition on_uuid_draws {A} (m : M nat A) : M GenState A :=
  fun st =>
    let '(r, draws) := m (uuid_draws st) in
    (r, {| assignedExams := assignedExams st;
           assignedExamsByUniqname := assignedExamsByUniqname st;
           sectionsMap := sectionsMap st; questionsMap := questionsMap st;
           sectionStatsMap := sectionStatsMap st;
           questionStatsMap := questionStatsMap st;
           uuid_draws := draws |}).

End Components.

Section Generator.
Context `{JsNumber} `{Opaque} `{!Collaborators} `{UuidPackage}.

(** [this.exam] and [this.options], both read-only. *)
Variable exam : Exam.
Variable options : ExamGeneratorOptions.

(** The [colors] package: [s.red]. *)
Definition red (s : string) : string :=
  String (ascii_of_nat 27) "[31m" +:+ s +:+ String (ascii_of_nat 27) "[39m".

Definition dquote : string := String (ascii_of_nat 34) EmptyString.

Definition msg_inconsistent_points (first ae : AssignedExam) : string :=
  red ("Error: Inconsistent total point values. "
       +:+ uniqname (ae_student first) +:+ "="
       +:+ num_toString (ae_pointsPossible first) +:+ ", "
       +:+ uniqname (ae_student ae) +:+ "="
       +:+ num_toString (ae_pointsPossible ae) +:+ ".").

Definition msg_section_skins : string :=
  "Generating multiple skins per section is only allowed if an exam allows duplicate sections.".

Definition msg_question_skins : string :=
  "Generating multiple skins per question is only allowed if an exam allows duplicate sections.".

Definition msg_section_drift (id : string) : string :=
  "Multiple sections from different specifications with the ID "
  +:+ dquote +:+ id +:+ dquote +:+ " were detected.".

Definition msg_question_drift (id : string) : string :=
  "Multiple questions from different specifications with the ID "
  +:+ dquote +:+ id +:+ dquote +:+ " were detected.".

Definition makeSeed (student : StudentInfo) : string :=
  if truthy_bool (consistent_randomization options)
  then "common"
  else uniqname student.

(** The default values of the [rand] and [skinRand] parameters. *)
Definition default_section_choice_rand (student : StudentInfo) : Randomizer :=
  if truthy_bool (choose_all options) then CHOOSE_ALL
  else createSectionChoiceRandomizer (makeSeed student) exam.

Definition default_question_choice_rand (student : StudentInfo)
    (section : Section) : Randomizer :=
  if truthy_bool (choose_all options) then CHOOSE_ALL
  else createQuestionChoiceRandomizer (makeSeed student) exam section.

Definition default_section_skin_rand (student : StudentInfo)
    (section : Section) : Randomizer :=
  if truthy_bool (choose_all options) then CHOOSE_ALL
  else createSectionSkinRandomizer (makeSeed student) exam section.

Definition default_question_skin_rand (student : StudentInfo)
    (question : Question) : Randomizer :=
  if truthy_bool (choose_all options) then CHOOSE_ALL
  else createQuestionSkinRandomizer (makeSeed student) exam question.

(** [skin.component_kind === "chooser" ? skin.choose(exam, student, rand)
    : [skin]] *)
Definition choose_skins (skin : Skin) (student : StudentInfo)
  : M Randomizer (list ExamComponentSkin) :=
  match skin with
  | SkinChoice chooser => skin_choose chooser exam student
  | SkinLeaf s => ret [s]
  end.

(** [skins.map(qSkin => createCompositeSkin(sectionSkin, qSkin))] *)
Fixpoint compositeSkins (sectionSkin : ExamComponentSkin)
    (skins : list ExamComponentSkin) : result (list ExamComponentSkin) :=
  match skins with
  | [] => Ok []
  | qSkin :: skins' =>
      c <-- createCompositeSkin sectionSkin qSkin ;;
      cs <-- compositeSkins sectionSkin skins' ;;
      Ok (c :: cs)
  end.

(** [questionSkins.map(questionSkin => new AssignedQuestion(..))], the last
    statement of [createRandomizedQuestion]. *)
Definition newAssignedQuestions (question : Question)
    (student : StudentInfo) (sectionIndex partIndex : nat)
    (questionSkins : list ExamComponentSkin)
  : M GenState (list AssignedQuestion) :=
  mapM (fun questionSkin =>
          uuid <- on_uuid_draws
                    (createStudentUuid options student
                       (exam_id exam +:+ "-q-" +:+ question_id question)) ;;
          ret {| aq_uuid := uuid; aq_exam := exam; aq_student := student;
                 aq_question := question; aq_skin := questionSkin;
                 aq_sectionIndex := sectionIndex; aq_partIndex := partIndex;
                 aq_rawSubmission := "" |})
       questionSkins.

Definition createRandomizedQuestion (question : Question)
    (student : StudentInfo) (sectionIndex partIndex : nat)
    (sectionSkin : ExamComponentSkin) (rand : option Randomizer)
  : M GenState (list AssignedQuestion) :=
  let rand := default (default_question_skin_rand student question) rand in
  chosen <- with_local rand
              (zoom_snd (choose_skins (question_skin question) student)) ;;
  questionSkins <- liftR (compositeSkins sectionSkin chosen) ;;
  assert (allow_duplicates options || (length questionSkins =? 1)%nat)
         msg_question_skins ;;;
  newAssignedQuestions question student sectionIndex partIndex questionSkins.

(** [sectionSkins.map(sectionSkin => new AssignedSection(..))], the last
    statement of [createRandomizedSection]; [rand] is the one randomizer
    that all the skins of the section draw their questions from. *)
Definition newAssignedSections (section : Section)
    (student : StudentInfo) (sectionIndex : nat) (rand : Randomizer)
    (sectionSkins : list ExamComponentSkin)
  : M GenState (list AssignedSection) :=
  with_local rand
    (mapM (fun sectionSkin =>
             uuid <- zoom_fst
                       (on_uuid_draws
                          (createStudentUuid options student
                             (exam_id exam +:+ "-s-" +:+ section_id section))) ;;
             questions <- zoom_snd
                            (flatMapM
                               (fun chooser =>
                                  chooseQuestions chooser exam student)
                               (section_questions section)) ;;
             assigned <- zoom_fst
                           (flatMapM_idx
                              (fun q partIndex =>
                                 createRandomizedQuestion q student
                                   sectionIndex partIndex sectionSkin None)
                              questions) ;;
             ret {| as_uuid := uuid; as_section := section;
                    as_sectionIndex := sectionIndex; as_skin := sectionSkin;
                    as_assignedQuestions := assigned |})
          sectionSkins).

Definition createRandomizedSection (section : Section)
    (student : StudentInfo) (sectionIndex : nat)
    (rand skinRand : option Randomizer)
  : M GenState (list AssignedSection) :=
  let rand := default (default_question_choice_rand student section) rand in
  let skinRand :=
    default (default_section_skin_rand student section) skinRand in
  sectionSkins <- with_local skinRand
                    (zoom_snd (choose_skins (section_skin section) student)) ;;
  assert (allow_duplicates options || (length sectionSkins =? 1)%nat)
         msg_section_skins ;;;
  newAssignedSections section student sectionIndex rand sectionSkins.

(** One step of the first loop of [checkExam]: [this.sectionsMap[id] = s]. *)
Definition trackSection (s : Section) : M GenState unit :=
  modify (fun st =>
            set_sectionsMap
              (assign_property (section_id s) s (sectionsMap st)) st).

Definition trackQuestion (q : Question) : M GenState unit :=
  modify (fun st =>
            set_questionsMap
              (assign_property (question_id q) q (questionsMap st)) st).

(** One step of the second loop of [checkExam]. What the table answers for
    the id is truthy when it is an entry of the table, and also when it is
    inherited. For an entry, [++n && assert(..)] skips the assertion when
    the incremented count is falsy. For an inherited function [f] (or for
    [Object.prototype]), [f.n] is [undefined] and [++f.n] leaves [NaN]
    there, which is falsy: the assertion is skipped, and the table is
    neither read further nor written. *)
Definition checkSection (section : Section) : M GenState unit :=
  st <- get ;;
  match read_property (sectionStatsMap st) (section_id section) with
  | Own stats =>
      let n' := (stats_section_n stats + 1)%N in
      modify (fun st =>
                set_sectionStatsMap
                  (<[section_id section :=
                       {| stats_section := stats_section stats;
                          stats_section_n := n' |}]> (sectionStatsMap st))
                  st) ;;;
      if (n' =? 0)%N then ret tt
      else assert (section_spec section
                   =? section_spec (stats_section stats))%nat
                  (msg_section_drift (section_id section))
  | Inherited => ret tt
  | Missing =>
      modify (fun st =>
                set_sectionStatsMap
                  (assign_property (section_id section)
                     {| stats_section := section; stats_section_n := 1 |}
                     (sectionStatsMap st))
                  st)
  end.

Definition checkQuestion (question : Question) : M GenState unit :=
  st <- get ;;
  match read_property (questionStatsMap st) (question_id question) with
  | Own stats =>
      let n' := (stats_question_n stats + 1)%N in
      modify (fun st =>
                set_questionStatsMap
                  (<[question_id question :=
                       {| stats_question := stats_question stats;
                          stats_question_n := n' |}]> (questionStatsMap st))
                  st) ;;;
      if (n' =? 0)%N then ret tt
      else assert (question_spec question
                   =? question_spec (stats_question stats))%nat
                  (msg_question_drift (question_id question))
  | Inherited => ret tt
  | Missing =>
      modify (fun st =>
                set_questionStatsMap
                  (assign_property (question_id question)
                     {| stats_question := question; stats_question_n := 1 |}
                     (questionStatsMap st))
                  st)
  end.

Definition checkExam (ae : AssignedExam) : M GenState unit :=
  let sections := map as_section (ae_assignedSections ae) in
  forEach trackSection sections ;;;
  forEach checkSection sections ;;;
  let questions :=
    flat_map (fun s => map aq_question (as_assignedQuestions s))
             (ae_assignedSections ae) in
  forEach trackQuestion questions ;;;
  forEach checkQuestion questions.

(** The [new AssignedExam(..)] expression of [createRandomizedExam], its
    arguments evaluated in order. *)
Definition randomizedExam (student : StudentInfo) (rand : Randomizer)
  : M GenState AssignedExam :=
  uuid <- on_uuid_draws (createStudentUuid options student (exam_id exam)) ;;
  sections <- with_local rand
                (zoom_snd
                   (flatMapM (fun chooser => chooseSections chooser exam student)
                             (exam_sections exam))) ;;
  assigned <- flatMapM_idx
                (fun s sectionIndex =>
                   createRandomizedSection s student sectionIndex None None)
                sections ;;
  ret (new_AssignedExam uuid exam student assigned (allow_duplicates options)).

Definition createRandomizedExam (student : StudentInfo)
    (rand : option Randomizer) : M GenState AssignedExam :=
  let rand := default (default_section_choice_rand student) rand in
  ae <- randomizedExam student rand ;;
  checkExam ae ;;;
  ret ae.

(** [this.assignedExams[0]] is defined here, the exam was just pushed;
    reading a property of [undefined] would throw a [TypeError]. *)
Definition assignExam (student : StudentInfo) : M GenState AssignedExam :=
  ae <- createRandomizedExam student None ;;
  modify (push_assignedExam ae) ;;;
  modify (fun st =>
            set_assignedExamsByUniqname
              (assign_property (uniqname student) ae
                 (assignedExamsByUniqname st)) st) ;;;
  st <- get ;;
  match assignedExams st with
  | first :: _ =>
      assert (strict_eq (ae_pointsPossible ae) (ae_pointsPossible first))
             (msg_inconsistent_points first ae) ;;;
      ret ae
  | [] => throw (TypeError "Cannot read properties of undefined")
  end.

Definition assignExams (students : list StudentInfo) : M GenState unit :=
  forEach (fun s => assignExam s ;;; ret tt) students.

End Generator.

(** ** Rosters (ExamUtils.loadCSVRoster) *)

(** A row as the CSV parser delivers it under [header: true]: one property
    per column of the header, so a column that the file lacks reads as
    [undefined], here [None]. *)
Record RosterRow := {
  row_uniqname : option string;
  row_name : option string
}.

(** [readFileSync(filename, "utf8")] and [Papa.parse(text, {header: true,
    skipEmptyLines: true}).data]. *)
Class RosterFiles := {
  readFileSync : string -> result string;
  Papa_parse_data : string -> list RosterRow
}.

(** [x !== ""] *)
Definition not_empty_string (x : option string) : bool :=
  match x with
  | Some s => negb (String.eqb s "")
  | None => true
  end.

Definition msg_empty_uniqname : string :=
  "Student uniqname may not be empty. Double check your roster file.".

Definition msg_empty_name : string :=
  "Student name may not be empty. Double check your roster file.".

Definition checkRosterRow (s : RosterRow) : M unit unit :=
  assert (not_empty_string (row_uniqname s)) msg_empty_uniqname ;;;
  assert (not_empty_string (row_name s)) msg_empty_name.

Definition loadCSVRoster `{RosterFiles} (filename : string)
  : result (list RosterRow) :=
  text <-- readFileSync filename ;;
  let students := Papa_parse_data text in
  _ <-- fst (forEach checkRosterRow students tt) ;;
  Ok students.

(** ** Specifications on disk (ExamUtils.loadExamSpecification and
    ExamUtils.saveExamSpecification) *)

(** The Number values that are not integers: [NaN], the two infinities,
    the negative zero, and the finite numbers with a fractional part, each
    named by the fraction that it is. *)
Inductive other_number :=
| NaN
| Infinity (negative : bool)
| NegativeZero
| Fraction (numerator : Z) (denominator : positive).

(** The values of an exam specification: data, regular expressions and the
    instances of classes, such as graders. [VNumber] holds a Number value
    that is an integer. The own enumerable properties of an object are
    listed in the order of enumeration; a [RegExp] is given by its [source]
    and [flags]; an instance, by the name of its class, which is not
    [Object], [Array] or [RegExp] and defines no [toJSON], and by its own
    enumerable properties. Functions, symbols, big integers, dates and
    objects that refer to themselves are no values here. *)
Inductive value :=
| VUndefined
| VNull
| VBool (b : bool)
| VNumber (n : Z)
| VOtherNumber (x : other_number)
| VString (s : string)
| VRegExp (source flags : string)
| VArray (items : list value)
| VObject (props : list (string * value))
| VInstance (class : string) (props : list (string * value)).

(** A JSON text, as its syntax tree: the white space, which the third
    argument of [JSON.stringify] sets, is not part of it. A number literal
    is given by the Number value that it denotes, which [JSON.stringify]
    writes every finite number as: an integer, or a fraction. The members
    of an object are all the members of the text in its order, a key as
    often as the text repeats it. *)
Inductive json :=
| JNull
| JBool (b : bool)
| JNumber (n : Z)
| JFraction (numerator : Z) (denominator : positive)
| JString (s : string)
| JArray (items : list json)
| JObject (members : list (string * json)).

Definition typeof (v : value) : string :=
  match v with
  | VUndefined => "undefined"
  | VBool _ => "boolean"
  | VNumber _ | VOtherNumber _ => "number"
  | VString _ => "string"
  | VNull | VRegExp _ _ | VArray _ | VObject _ | VInstance _ _ => "object"
  end.

Fixpoint lookup_prop (key : string) (props : list (string * value))
  : option value :=
  match props with
  | [] => None
  | (k, v) :: props' => if String.eqb k key then Some v else lookup_prop key props'
  end.

(** [v[key]] for the keys that the reviver reads: [source], [flags] and the
    tag. None of them is an array index or a property that arrays, strings,
    numbers, booleans or plain objects inherit; a [RegExp] answers [source]
    and [flags]; an instance answers with its own properties, what its
    class lets it inherit is left out. Reading a property of [null] or
    [undefined] throws. *)
Definition get_prop (v : value) (key : string) : result value :=
  match v with
  | VUndefined => Err (TypeError "Cannot read properties of undefined")
  | VNull => Err (TypeError "Cannot read properties of null")
  | VObject props | VInstance _ props =>
      Ok (default VUndefined (lookup_prop key props))
  | VRegExp source flags =>
      if String.eqb key "source" then Ok (VString source)
      else if String.eqb key "flags" then Ok (VString flags)
      else Ok VUndefined
  | VBool _ | VNumber _ | VOtherNumber _ | VString _ | VArray _ =>
      Ok VUndefined
  end.

(** [JSON.stringify] of a number that is not an integer: [null] for [NaN]
    and the infinities, [0] for the negative zero. *)
Definition serialize_number (x : other_number) : json :=
  match x with
  | NaN | Infinity _ => JNull
  | NegativeZero => JNumber 0
  | Fraction numerator denominator => JFraction numerator denominator
  end.

(** [new RegExp(pattern, flags)]: the [source] and [flags] of the object it
    creates, or the [SyntaxError] it throws. *)
Class RegExpBuiltin := {
  RegExp_new : value -> value -> result (string * string)
}.

(** *** JSON.stringify with a replacer

    [SerializeJSONProperty] of the language specification. The replacer is
    applied to every property value before it is serialized; [undefined] is
    dropped from an object and written as [null] in an array. The recursion
    follows the replaced value, which the replacer is free to grow, so the
    depth of the recursion is bounded by [fuel]: running out of it is the
    [RangeError] of an exhausted call stack, [None] here. *)
Definition serialize_elements
    (serialize : string -> value -> option (option json))
  : nat -> list value -> option (list json) :=
  fix elements (i : nat) (l : list value) : option (list json) :=
    match l with
    | [] => Some []
    | x :: l' =>
        match serialize (pretty i) x with
        | None => None
        | Some j => option_map (cons (default JNull j)) (elements (S i) l')
        end
    end.

Definition serialize_members
    (serialize : string -> value -> option (option json))
  : list (string * value) -> option (list (string * json)) :=
  fix members (l : list (string * value)) : option (list (string * json)) :=
    match l with
    | [] => Some []
    | (k, x) :: l' =>
        match serialize k x with
        | None => None
        | Some None => members l'
        | Some (Some j) => option_map (cons (k, j)) (members l')
        end
    end.

Fixpoint SerializeJSONProperty (replacer : string -> value -> value)
    (fuel : nat) (key : string) (v : value) : option (option json) :=
  match fuel with
  | O => None
  | S fuel' =>
      match replacer key v with
      | VUndefined => Some None
      | VNull => Some (Some JNull)
      | VBool b => Some (Some (JBool b))
      | VNumber n => Some (Some (JNumber n))
      | VOtherNumber x => Some (Some (serialize_number x))
      | VString s => Some (Some (JString s))
      | VRegExp _ _ => Some (Some (JObject []))
      | VArray items =>
          option_map (fun js => Some (JArray js))
            (serialize_elements (SerializeJSONProperty replacer fuel')
               0%nat items)
      | VObject props | VInstance _ props =>
          option_map (fun ms => Some (JObject ms))
            (serialize_members (SerializeJSONProperty replacer fuel') props)
      end
  end.

(** *** JSON.parse with a reviver

    The text is read into a value, then [InternalizeJSONProperty] calls the
    reviver on every value, children first; a child that the reviver turns
    into [undefined] is deleted. *)

(** A key that is an array index: the decimal numeral, without a sign or a
    leading zero, of a number below 2^32 - 1. *)
Definition digit (c : ascii) : option N :=
  let n := N_of_ascii c in
  if (48 <=? n)%N && (n <=? 57)%N then Some (n - 48)%N else None.

Fixpoint numeral (read : N) (s : string) : option N :=
  match s with
  | EmptyString => Some read
  | String c s' =>
      match digit c with
      | Some d => numeral (10 * read + d)%N s'
      | None => None
      end
  end.

Definition array_index (key : string) : option N :=
  match key with
  | EmptyString => None
  | String _ _ =>
      match numeral 0 key with
      | Some n =>
          if String.eqb (pretty n) key && (n <? 4294967295)%N then Some n
          else None
      | None => None
      end
  end.

(** The order in which an object enumerates its own properties: the array
    indices first, in ascending order, then the other keys in the order in
    which they were created. *)
Definition goes_before (key key' : string) : bool :=
  match array_index key, array_index key' with
  | Some n, Some n' => (n <? n')%N
  | Some _, None => true
  | None, _ => false
  end.

(** [CreateDataProperty] on the list of the properties of an object: the
    value of a key that the object has is replaced where the key stands, a
    new key is put at its place in the order of enumeration. *)
Definition replace_property {A} (key : string) (a : A)
  : list (string * A) -> list (string * A) :=
  fix replace (props : list (string * A)) : list (string * A) :=
    match props with
    | [] => []
    | (k, x) :: props' =>
        if String.eqb k key then (k, a) :: props'
        else (k, x) :: replace props'
    end.

Definition insert_property {A} (key : string) (a : A)
  : list (string * A) -> list (string * A) :=
  fix insert (props : list (string * A)) : list (string * A) :=
    match props with
    | [] => [(key, a)]
    | (k, x) :: props' =>
        if goes_before key k then (key, a) :: props
        else (k, x) :: insert props'
    end.

Definition CreateDataProperty {A} (key : string) (a : A)
    (props : list (string * A)) : list (string * A) :=
  if existsb (fun p => String.eqb (fst p) key) props
  then replace_property key a props
  else insert_property key a props.

(** The properties of the object that [JSON.parse] makes of the members of
    an object of the text: of a key that the text repeats, the last member
    counts. *)
Definition properties {A} (members : list (string * A)) : list (string * A) :=
  foldl (fun props m => CreateDataProperty (fst m) (snd m) props) [] members.

Fixpoint value_of_json (j : json) : value :=
  match j with
  | JNull => VNull
  | JBool b => VBool b
  | JNumber n => VNumber n
  | JFraction numerator denominator =>
      VOtherNumber (Fraction numerator denominator)
  | JString s => VString s
  | JArray items => VArray (map value_of_json items)
  | JObject members =>
      VObject (properties
                 (map (fun m => (fst m, value_of_json (snd m))) members))
  end.

Definition internalize_elements
    (internalize : string -> value -> result value)
  : nat -> list value -> result (list value) :=
  fix elements (i : nat) (l : list value) : result (list value) :=
    match l with
    | [] => Ok []
    | x :: l' =>
        x' <-- internalize (pretty i) x ;;
        l'' <-- elements (S i) l' ;;
        Ok (x' :: l'')
    end.

Definition internalize_members
    (internalize : string -> value -> result value)
  : list (string * value) -> result (list (string * value)) :=
  fix members (l : list (string * value))
    : result (list (string * value)) :=
    match l with
    | [] => Ok []
    | (k, x) :: l' =>
        x' <-- internalize k x ;;
        l'' <-- members l' ;;
        Ok (match x' with
            | VUndefined => l''
            | _ => (k, x') :: l''
            end)
    end.

Fixpoint InternalizeJSONProperty (reviver : string -> value -> result value)
    (key : string) (v : value) {struct v} : result value :=
  match v with
  | VArray items =>
      items' <-- internalize_elements
                   (fun k x => InternalizeJSONProperty reviver k x)
                   0%nat items ;;
      reviver key (VArray items')
  | VObject props =>
      props' <-- internalize_members
                   (fun k x => InternalizeJSONProperty reviver k x) props ;;
      reviver key (VObject props')
  | VInstance class props =>
      props' <-- internalize_members
                   (fun k x => InternalizeJSONProperty reviver k x) props ;;
      reviver key (VInstance class props')
  | _ => reviver key v
  end.

Definition JSON_parse (reviver : string -> value -> result value)
    (text : json) : result value :=
  InternalizeJSONProperty reviver "" (value_of_json text).

(** The depth of nesting of a value. *)
Fixpoint value_depth (v : value) : nat :=
  match v with
  | VArray items => S (foldr (fun x d => Nat.max (value_depth x) d) 0%nat items)
  | VObject props | VInstance _ props =>
      S (foldr (fun p d => Nat.max (value_depth (snd p)) d) 0%nat props)
  | _ => 0%nat
  end.

(** *** The two functions *)

Definition serialized_regex_tag : string := "examma_ray_serialized_regex".

(** The content of a file: a JSON text, or a text that is not JSON. *)
Inductive file_content :=
| JsonText (text : json)
| OtherText (text : string).

Section Specifications.
Context `{RegExpBuiltin}.

Definition load_reviver (key : string) (v : value) : result value :=
  if String.eqb (typeof v) "object" then
    tagged <-- get_prop v serialized_regex_tag ;;
    if String.eqb (typeof tagged) "object" then
      source <-- get_prop tagged "source" ;;
      flags <-- get_prop tagged "flags" ;;
      re <-- RegExp_new source flags ;;
      Ok (VRegExp (fst re) (snd re))
    else Ok v
  else Ok v.

Definition loadExamSpecification (filename : string)
  : M (gmap string file_content) value :=
  fs <- get ;;
  match fs !! filename with
  | None => throw (Thrown "ENOENT: no such file or directory")
  | Some (OtherText _) => throw (Thrown "SyntaxError: not a JSON text")
  | Some (JsonText text) => liftR (JSON_parse load_reviver text)
  end.

Definition save_replacer (key : string) (v : value) : value :=
  match v with
  | VRegExp source flags =>
      VObject [(serialized_regex_tag,
                VObject [("source", VString source);
                         ("flags", VString flags)])]
  | _ => v
  end.


End Specifications.

(** ** Manual grading assignments (ExamUtils.createGradingAssignments,
    ExamUtils.rechunkGradingAssignments and getAssnIds) *)

(** What the grading functions take from elsewhere: the replacements of a
    skin ([aq.skin.replacements]), the answer of an assigned question as a
    string ([stringify_response(aq.submission)]) and the result of grading a
    group, of grading_interface/common. *)
Class GradingCollaborators `{JsNumber} `{Opaque} := {
  SkinReplacements : Type;
  GradingResult : Type;
  skin_replacements : ExamComponentSkin -> SkinReplacements;
  stringify_submission : AssignedQuestion -> string
}.

(** A JavaScript number as the number of chunks: a whole number, or a
    number that [Number.isInteger] rejects (a fraction, [NaN], an
    infinity). *)
Inductive chunk_count :=
| WholeNumber (n : Z)
| OtherNumber.

(** The value of [Math.ceil(length / numChunks)] for a whole [numChunks]:
    an integer, [Infinity] or [NaN]. *)
Inductive chunk_size :=
| Finite (k : Z)
| Infinite
| NotANumber.

(** The [chunk] function of the [simple-statistics] package. *)
Class ChunkPackage := {
  chunk : forall {A : Type}, list A -> chunk_size -> result (list (list A))
}.

Section GradingAssignments.
Context `{GradingCollaborators} `{ChunkPackage}.

(** Modelled from the spec: the grading assignments of
    grading_interface/common, with the fields that
    [createGradingAssignments] fills in and that the utilities read. *)
Record GradingSubmission := {
  gs_question_uuid : string;
  gs_skin_replacements : SkinReplacements;
  gs_student : StudentInfo;
  gs_response : string
}.

Record GradingGroup := {
  group_submissions : list GradingSubmission;
  group_name : string;
  group_representative_index : nat;
  group_grading_result : option GradingResult
}.

Record GradingAssignmentSpecification := {
  assn_exam_id : string;
  assn_question_id : string;
  assn_groups : list GradingGroup;
  assn_name : option string
}.

Definition msg_other_exam_id : string :=
  "All grading assignments to rechunk must have the same exam id.".

Definition msg_other_question_id : string :=
  "All grading assignments to rechunk must have the same question id.".

Definition msg_no_assignments : string :=
  "Grading assignments to rechunk must contain at least one assignment.".

Definition msg_not_an_integer : string :=
  "Number of chunks must be an integer.".

Definition msg_no_questions : string :=
  "Cannot create grading assignments for an empty array of assigned questions.".

(** [assns[0]] is [undefined] for an empty array, and reading its
    [exam_id] throws. *)
Definition getAssnIds (assns : list GradingAssignmentSpecification)
  : M unit (string * string) :=
  match assns with
  | [] => throw (TypeError "Cannot read properties of undefined")
  | first :: _ =>
      let exam_id := assn_exam_id first in
      assert (forallb (fun assn => String.eqb (assn_exam_id assn) exam_id) assns)
             msg_other_exam_id ;;;
      let question_id := assn_question_id first in
      assert (forallb (fun assn => String.eqb (assn_question_id assn) question_id)
                      assns)
             msg_other_question_id ;;;
      ret (exam_id, question_id)
  end.

Definition is_integer (numChunks : chunk_count) : bool :=
  match numChunks with
  | WholeNumber _ => true
  | OtherNumber => false
  end.

(** [groups.forEach((group, i) => group.name = `group_${i}`)]. The groups
    are the objects of the assignments given, which are renamed with
    them. *)
Definition rename_groups (groups : list GradingGroup) : list GradingGroup :=
  imap (fun i group =>
          {| group_submissions := group_submissions group;
             group_name := "group_" +:+ pretty i;
             group_representative_index := group_representative_index group;
             group_grading_result := group_grading_result group |})
       groups.

(** [Math.ceil(length / numChunks)]: the quotient of a length by zero is
    [Infinity], or [NaN] for the length zero. *)
Definition Math_ceil_quotient (length : nat) (numChunks : Z) : chunk_size :=
  if (numChunks =? 0)%Z then
    if (length =? 0)%nat then NotANumber else Infinite
  else Finite (- ((- Z.of_nat length) / numChunks))%Z.

Definition rechunkGradingAssignments
    (assns : list GradingAssignmentSpecification) (numChunks : chunk_count)
  : M unit (list GradingAssignmentSpecification) :=
  assert (0 <? length assns)%nat msg_no_assignments ;;;
  assert (is_integer numChunks) msg_not_an_integer ;;;
  ids <- getAssnIds assns ;;
  let groups := rename_groups (flat_map assn_groups assns) in
  match numChunks with
  | WholeNumber n =>
      let chunkSize := Math_ceil_quotient (length groups) n in
      groupChunks <- liftR (chunk groups chunkSize) ;;
      ret (map (fun c => {| assn_exam_id := fst ids;
                            assn_question_id := snd ids;
                            assn_groups := c;
                            assn_name := None |})
               groupChunks)
  | OtherNumber => throw (AssertionFailed msg_not_an_integer)
  end.

Definition createGradingAssignments (aqs : list AssignedQuestion)
    (numChunks : chunk_count) : M unit (list GradingAssignmentSpecification) :=
  assert (0 <? length aqs)%nat msg_no_questions ;;;
  match aqs with
  | [] => throw (TypeError "Cannot read properties of undefined")
  | first :: _ =>
      let initialAssn :=
        {| assn_exam_id := exam_id (aq_exam first);
           assn_question_id := question_id (aq_question first);
           assn_groups :=
             imap (fun i aq =>
                     {| group_submissions :=
                          [ {| gs_question_uuid := aq_uuid aq;
                               gs_skin_replacements :=
                                 skin_replacements (aq_skin aq);
                               gs_student := aq_student aq;
                               gs_response := stringify_submission aq |} ];
                        group_name := "group_" +:+ pretty i;
                        group_representative_index := 0;
                        group_grading_result := None |})
                  aqs;
           assn_name := None |} in
      rechunkGradingAssignments [initialAssn] numChunks
  end.

End GradingAssignments.

(** ** The grader of multiple-choice questions with one selection
    (SimpleMCGrader) *)

(** A multiple-choice submission: [BLANK_SUBMISSION], or the array of the
    indices of the selected choices. *)
Inductive MCSubmission :=
| MC_BLANK
| MC_selected (indices : list nat).

(** Modelled from the spec: an assigned multiple-choice question, with the
    two fields that the grader reads. *)
Record MCAssignedQuestion `{JsNumber} `{Opaque} := {
  mc_question : Question;
  mc_submission : MCSubmission
}.

(** What the grader takes from elsewhere: [renderNumBadge] of
    ui_components, [mk2html] of render, applied to a choice that may be
    [undefined], the two icons, the choices of a question
    ([question.response.choices]) and the string that a template literal
    makes of a question. *)
Class OverviewCollaborators `{JsNumber} `{Opaque} := {
  renderNumBadge : nat -> string;
  mk2html : option string -> result string;
  CHECK_ICON : string;
  RED_X_ICON : string;
  response_choices : Question -> list string;
  Question_toString : Question -> string
}.

Section SimpleMCGrader.
Context `{JsNumber} `{Opaque} `{!OverviewCollaborators}.

(** [this.correctIndex] *)
Variable correctIndex : nat.

Definition msg_one_selection : string :=
  "SimpleMCGrader cannot be used for questions where more than one selection is allowed.".

(** The message of the assertion of [grade] starts with the question as a
    string and a line break. *)
Definition msg_grade_one_selection (question : Question) : string :=
  Question_toString question +:+ String (ascii_of_nat 10) msg_one_selection.

Definition grade (aq : MCAssignedQuestion) : M unit number :=
  let question := mc_question aq in
  match mc_submission aq with
  | MC_BLANK => ret num_zero
  | MC_selected submission =>
      if (length submission =? 0)%nat then ret num_zero
      else
        assert (length submission <=? 1)%nat
               (msg_grade_one_selection question) ;;;
        ret (match submission with
             | selected :: _ =>
                 if (selected =? correctIndex)%nat
                 then question_pointsPossible question
                 else num_zero
             | [] => num_zero
             end)
  end.

(** [submissions.filter(f)]: the submissions that are not blank and not
    empty. *)
Definition nonBlank (submissions : list MCSubmission) : list (list nat) :=
  omap (fun sub => match sub with
                   | MC_selected (c :: l) => Some (c :: l)
                   | _ => None
                   end)
       submissions.

(** The histogram of the overview: [maxSelection + 1] zeros, none for
    [Math.max()] of no selection, which is [-Infinity]; then [++hist[c]] for
    every selection. *)
Definition selection_histogram (selectionChoices : list nat) : list nat :=
  let hist :=
    match selectionChoices with
    | [] => []
    | _ :: _ => replicate (S (max_list selectionChoices)) 0
    end in
  foldl (fun hist c => alter S c hist) hist selectionChoices.

Definition overview_option (question : Question) (i count : nat)
  : result string :=
  choice <-- mk2html (response_choices question !! i) ;;
  Ok ("<div class=" +:+ dquote +:+ "examma-ray-mc-option" +:+ dquote +:+ ">"
      +:+ renderNumBadge count +:+ " "
      +:+ (if (i =? correctIndex)%nat then CHECK_ICON else RED_X_ICON)
      +:+ " " +:+ choice +:+ "</div>").

Fixpoint overview_options (question : Question) (i : nat) (hist : list nat)
  : result (list string) :=
  match hist with
  | [] => Ok []
  | count :: hist' =>
      option <-- overview_option question i count ;;
      options <-- overview_options question (S i) hist' ;;
      Ok (option :: options)
  end.

Definition line_break : string := String (ascii_of_nat 10) EmptyString.

Definition renderOverview (aqs : list MCAssignedQuestion) : M unit string :=
  match aqs with
  | [] => throw (TypeError "Cannot read properties of undefined")
  | first :: _ =>
      let question := mc_question first in
      let submissions := map mc_submission aqs in
      let nonBlankSubmissions := nonBlank submissions in
      let numBlank := (length submissions - length nonBlankSubmissions)%nat in
      assert (forallb (fun sub => (length sub =? 1)%nat) nonBlankSubmissions)
             msg_one_selection ;;;
      let selectionChoices := omap head nonBlankSubmissions in
      let hist := selection_histogram selectionChoices in
      options <- liftR (overview_options question 0 hist) ;;
      ret (line_break +:+ "      " +:+ String.concat "" options
           +:+ line_break +:+ "      "
           +:+ "<div class=" +:+ dquote +:+ "examma-ray-mc-option" +:+ dquote
           +:+ ">" +:+ renderNumBadge numBlank +:+ " " +:+ RED_X_ICON
           +:+ " BLANK</div>" +:+ line_break +:+ "    ")
  end.

End SimpleMCGrader.

(** ** Submissions (ExamUtils.loadExamAnswers, ExamUtils.loadTrustedSubmission
    and ExamUtils.loadTrustedSubmissions) *)

(** [path.join] of the [path] module, applied to its arguments in order. *)
Class PathModule := {
  path_join : list string -> string
}.

(** What the loaders take from elsewhere: [fillManifest] of
    core/submissions and the submission it returns, [readdirSync] of fs, and
    the conversion of a value to a string that [+] applies to an operand of
    a string. *)
Class SubmissionCollaborators := {
  TrustedExamSubmission : Type;
  fillManifest : value -> value -> result TrustedExamSubmission;
  readdirSync : string -> result (list string);
  ToString : value -> string
}.

Section Submissions.
Context `{SubmissionCollaborators} `{PathModule}.

(** The files on disk, which the loaders only read. *)
Variable fs : gmap string file_content.

(** [JSON.parse(readFileSync(filename, "utf8"))]; the cast to
    [ExamSubmission] checks nothing. *)
Definition loadExamAnswers (filename : string) : result value :=
  match fs !! filename with
  | None => Err (Thrown "ENOENT: no such file or directory")
  | Some (OtherText _) => Err (Thrown "SyntaxError: not a JSON text")
  | Some (JsonText text) => Ok (value_of_json text)
  end.

Definition loadTrustedSubmission (manifestDirectory submittedFilename : string)
  : result TrustedExamSubmission :=
  submitted <-- loadExamAnswers submittedFilename ;;
  student <-- get_prop submitted "student" ;;
  uniqname <-- get_prop student "uniqname" ;;
  uuid <-- get_prop submitted "uuid" ;;
  manifest <-- loadExamAnswers
                 (path_join
                    [manifestDirectory;
                     ToString uniqname +:+ "-" +:+ ToString uuid +:+ ".json"]) ;;
  fillManifest manifest submitted.

Definition msg_unable_to_open (filename : string) : string :=
  "WARNING - unable to open submission file: " +:+ filename.

(** The callback of the loop of [loadTrustedSubmissions]. The store is the
    array [trustedAnswers] and the lines written to the console; the
    [catch] swallows whatever the [try] block throws. *)
Definition loadOrWarn (manifestDirectory submittedDirectory filename : string)
  : M (list TrustedExamSubmission * list string) unit :=
  fun st =>
    match loadTrustedSubmission manifestDirectory
            (path_join [submittedDirectory; filename]) with
    | Ok trustedSub => (Ok tt, (fst st ++ [trustedSub], snd st))
    | Err _ => (Ok tt, (fst st, snd st ++ [msg_unable_to_open filename]))
    end.

(** The store is the console. *)
Definition loadTrustedSubmissions (manifestDirectory submittedDirectory : string)
  : M (list string) (list TrustedExamSubmission) :=
  fun console =>
    match readdirSync submittedDirectory with
    | Err e => (Err e, console)
    | Ok filenames =>
        let '(r, st) :=
          forEach (loadOrWarn manifestDirectory submittedDirectory) filenames
                  ([], console) in
        (_ <-- r ;; Ok (fst st), snd st)
    end.

End Submissions.

(** ** The usage statistics on disk (ExamGenerator.writeStats) *)

(** The [json-stable-stringify] package: [JSON.stringify] with the
    properties of every object written in the sorted order of their keys.
    The replacer is called as [JSON.stringify] calls it, on every property
    value before it is serialized, and a property that it turns into
    [undefined] is left out. *)
Definition key_le (p q : string * value) : Prop :=
  Is_true (String.leb (fst p) (fst q)).

Global Instance key_le_dec p q : Decision (key_le p q).
Proof. unfold key_le. apply _. Defined.

Definition sort_keys (props : list (string * value)) : list (string * value) :=
  merge_sort key_le props.

Fixpoint stable_stringify_property (replacer : string -> value -> value)
    (fuel : nat) (key : string) (v : value) : option (option json) :=
  match fuel with
  | O => None
  | S fuel' =>
      match replacer key v with
      | VUndefined => Some None
      | VNull => Some (Some JNull)
      | VBool b => Some (Some (JBool b))
      | VNumber n => Some (Some (JNumber n))
      | VOtherNumber x => Some (Some (serialize_number x))
      | VString s => Some (Some (JString s))
      | VRegExp _ _ => Some (Some (JObject []))
      | VArray items =>
          option_map (fun js => Some (JArray js))
            (serialize_elements (stable_stringify_property replacer fuel')
               0%nat items)
      | VObject props | VInstance _ props =>
          option_map (fun ms => Some (JObject ms))
            (serialize_members (stable_stringify_property replacer fuel')
               (sort_keys props))
      end
  end.

Definition json_stable_stringify (replacer : string -> value -> value)
    (fuel : nat) (obj : value) : option (option json) :=
  stable_stringify_property replacer fuel "" obj.

(** A [Section] and a [Question] as the objects that the statistics refer
    to. *)
Class ComponentObjects `{JsNumber} `{Opaque} := {
  section_object : Section -> value;
  question_object : Question -> value
}.

Section WriteStats.
Context `{JsNumber} `{Opaque} `{!ComponentObjects}.
Variable exam : Exam.

(** [(k, v) => k === "section" || k === "question" ? undefined : v] *)
Definition stats_replacer (k : string) (v : value) : value :=
  if String.eqb k "section" || String.eqb k "question" then VUndefined else v.

Definition section_stats_object (stats : SectionStats) : value :=
  VObject [("section", section_object (stats_section stats));
           ("n", VNumber (Z.of_N (stats_section_n stats)))].

Definition question_stats_object (stats : QuestionStats) : value :=
  VObject [("question", question_object (stats_question stats));
           ("n", VNumber (Z.of_N (stats_question_n stats)))].

(** A table as an object, with one property per id. The order of the
    properties, which the sort overrides, is the one of [map_to_list]. *)
Definition table_object {A} (entry : A -> value) (table : gmap string A)
  : value :=
  VObject (map (fun p => (fst p, entry (snd p))) (map_to_list table)).

(** [{sections: this.sectionStatsMap, questions: this.questionStatsMap}] *)
Definition stats_object (st : GenState) : value :=
  VObject [("sections", table_object section_stats_object (sectionStatsMap st));
           ("questions",
            table_object question_stats_object (questionStatsMap st))].

Definition stats_file : string := "data/" +:+ exam_id exam +:+ "/stats.json".

(** [mkdirSync] creates the directory of the file, which the map of the
    files has no entry for. The statistics are four levels deep, which no
    call stack is too small for. *)
Definition writeStats (st : GenState) : M (gmap string file_content) unit :=
  match json_stable_stringify stats_replacer 4 (stats_object st) with
  | None => throw (Thrown "RangeError: Maximum call stack size exceeded")
  | Some None => throw (TypeError "The data argument must be of type string")
  | Some (Some text) => modify (fun fs => <[stats_file := JsonText text]> fs)
  end.

End WriteStats.

(** ** Grading assignments on disk (ExamUtils.gradingAssignmentDir and
    ExamUtils.writeGradingAssignments) *)

(** The [uniqueNamesGenerator] of the [unique-names-generator] package,
    which draws a name from a random source, modelled as the sequence of
    its draws, and the text that [JSON.stringify] makes of an
    assignment. *)
Class AssignmentFiles `{GradingCollaborators} := {
  uniqueNamesGenerator : nat -> string;
  assignment_json : GradingAssignmentSpecification -> json
}.

Section AssignmentsOnDisk.
Context `{AssignmentFiles}.

Definition gradingAssignmentDir (exam_id question_id : string) : string :=
  "data/" +:+ exam_id +:+ "/manual_grading/" +:+ question_id.

(** [Object.assign({}, assn, {name: name})] *)
Definition named (assn : GradingAssignmentSpecification) (name : string)
  : GradingAssignmentSpecification :=
  {| assn_exam_id := assn_exam_id assn;
     assn_question_id := assn_question_id assn;
     assn_groups := assn_groups assn;
     assn_name := Some name |}.

(** [writeFileSync(path, data, { flag: "wx" })]: the flag makes the call
    fail when the file exists. The store is the files and the number of
    names drawn. *)
Definition writeFileSync_wx (path : string) (data : file_content)
  : M (gmap string file_content * nat) unit :=
  fun st =>
    match fst st !! path with
    | Some _ => (Err (Thrown "EEXIST: file already exists"), st)
    | None => (Ok tt, (<[path := data]> (fst st), snd st))
    end.

Definition draw_name : M (gmap string file_content * nat) string :=
  fun st => (Ok (uniqueNamesGenerator (snd st)), (fst st, S (snd st))).

(** [mkdirSync] creates the directory, which the map of the files has no
    entry for. *)
Definition writeGradingAssignments (assns : list GradingAssignmentSpecification)
  : M (gmap string file_content * nat) unit :=
  if (length assns =? 0)%nat then ret tt
  else
    ids <- (fun st => (fst (getAssnIds assns tt), st)) ;;
    forEach (fun assn =>
               name <- draw_name ;;
               let dir := gradingAssignmentDir (fst ids) (snd ids) in
               writeFileSync_wx (dir +:+ "/" +:+ name +:+ ".json")
                 (JsonText (assignment_json (named assn name))))
            assns.

End AssignmentsOnDisk.

(** ** Media (ExamUtils.copyFrontendMedia, ExamUtils.writeExamMedia and
    ExamGenerator.writeMedia) *)

Section Media.
Context `{JsNumber} `{Opaque} `{PathModule}.

(** [copyFrontendMedia]: [mkdirSync] creates the target directory and [ncp]
    copies the source in the background. The store is the list of the
    copies requested, each a source and a target. *)
Definition copyFrontendMedia (media_source_dir frontend_media_dir : string)
  : M (list (string * string)) unit :=
  modify (fun copies => copies ++ [(media_source_dir, frontend_media_dir)]).

(** [media_dir && copyFrontendMedia(media_dir, target)] *)
Definition copy_if_given (media_dir : option string) (target : string)
  : M (list (string * string)) unit :=
  match media_dir with
  | Some dir => if String.eqb dir "" then ret tt
                else copyFrontendMedia dir target
  | None => ret tt
  end.

Definition writeExamMedia (media_out_dir : string) (exam : Exam)
    (all_sections : list Section) (all_questions : list Question)
  : M (list (string * string)) unit :=
  copy_if_given (exam_media_dir exam)
    (path_join [media_out_dir; "exam"; exam_id exam]) ;;;
  forEach (fun s => copy_if_given (section_media_dir s)
                      (path_join [media_out_dir; "section"; section_id s]))
          all_sections ;;;
  forEach (fun q => copy_if_given (question_media_dir q)
                      (path_join [media_out_dir; "question"; question_id q]))
          all_questions.

(** [Object.values] of a table. The order of the values is the one of
    [map_to_list], not the order in which the ids were entered. *)
Definition Object_values {A} (table : gmap string A) : list A :=
  map snd (map_to_list table).

Definition writeMedia (exam : Exam) (options : ExamGeneratorOptions)
    (st : GenState) (outDir : string) : M (list (string * string)) unit :=
  let mediaOutDir := path_join [outDir; frontend_media_dir options] in
  writeExamMedia mediaOutDir exam (Object_values (sectionsMap st))
    (Object_values (questionsMap st)).

End Media.

(** ** Submissions of drag-and-drop code (response/parsons:
    isValidParsonsSubmission and PARSONS_PARSER) *)

(** [Array.prototype.every] with a callback that can throw: it stops at the
    first item that the callback rejects. *)
Definition every {A} (f : A -> result bool) : list A -> result bool :=
  fix every (l : list A) : result bool :=
    match l with
    | [] => Ok true
    | x :: l' => b <-- f x ;; if b then every l' else Ok false
    end.

(** [Array.isArray(d.children) && d.children.every(check)] for an object
    with the properties [props]: [d.children] is the value of the first
    property with the key [children], and [undefined] without one. *)
Definition children_every (check : value -> result bool)
  : list (string * value) -> result bool :=
  fix children (props : list (string * value)) : result bool :=
    match props with
    | [] => Ok false
    | (k, v) :: props' =>
        if String.eqb k "children" then
          match v with
          | VArray items => every check items
          | _ => Ok false
          end
        else children props'
    end.

(** The test of an item [d] of a drop list: [typeof d.id === "string" ||
    Array.isArray(d.children) && d.children.every(e => typeof e ===
    "string" || isValidParsonsSubmission(e))]. Reading [d.id] throws for
    [null] and [undefined]; [id] and [children] are no properties that an
    array, a string, a number or a boolean inherits, so a value that is not
    a plain object has neither. The recursion follows the value; the depth
    of the call stack is not bounded here. *)
Fixpoint isValidParsonsSubmission (obj : value) : result bool :=
  match obj with
  | VArray elems =>
      every (fun elem =>
               match elem with
               | VString _ => Ok true
               | VArray drops =>
                   every (fun d =>
                            id <-- get_prop d "id" ;;
                            if String.eqb (typeof id) "string" then Ok true
                            else
                              match d with
                              | VObject props | VInstance _ props =>
                                  children_every
                                    (fun e =>
                                       match e with
                                       | VString _ => Ok true
                                       | _ => isValidParsonsSubmission e
                                       end)
                                    props
                              | _ => Ok false
                              end)
                         drops
               | _ => Ok false
               end)
            elems
  | _ => Ok false
  end.

(** What [PARSONS_PARSER] returns: [BLANK_SUBMISSION] or
    [MALFORMED_SUBMISSION], the two constants that it imports from
    response/common, or the submission. *)
Inductive ParsedSubmission :=
| BLANK_SUBMISSION
| MALFORMED_SUBMISSION
| Submitted (submission : value).

(** [String.prototype.trim], and [JSON.parse] of a text, which throws a
    [SyntaxError], [None] here, for a text that is not JSON. *)
Class TextBuiltins := {
  String_trim : string -> string;
  JSON_parse_text : string -> option json
}.

(** The raw submission is [None] for [undefined] and for [null]. An error
    of the validity test is not a [SyntaxError] and is thrown again. *)
Definition PARSONS_PARSER `{TextBuiltins} (rawSubmission : option string)
  : result ParsedSubmission :=
  match rawSubmission with
  | None => Ok BLANK_SUBMISSION
  | Some raw =>
      if String.eqb (String_trim raw) "" then Ok BLANK_SUBMISSION
      else
        match JSON_parse_text raw with
        | None => Ok MALFORMED_SUBMISSION
        | Some text =>
            let parsed := value_of_json text in
            valid <-- isValidParsonsSubmission parsed ;;
            if valid then
              match parsed with
              | VArray (_ :: _) => Ok (Submitted parsed)
              | _ => Ok BLANK_SUBMISSION
              end
            else Ok MALFORMED_SUBMISSION
        end
  end.

(** ** A small instance

    Stand-ins for the collaborators, to run the generator on concrete exams:
    integer points, a toy seeded randomizer, and choosers that follow the
    variants of the specification format (a fixed item, all items of a pool,
    one item of a pool drawn with the randomizer). *)
Module Demo.

#[export] Instance numbers : JsNumber :=
  {| number := Z; num_zero := 0%Z; num_add := Z.add;
     strict_eq := Z.eqb; num_toString := pretty |}.

Inductive Choice (A : Type) :=
| Fixed (a : A)
| All (pool : list A)
| RandomOne (pool : list A).
Arguments Fixed {A} a.
Arguments All {A} pool.
Arguments RandomOne {A} pool.

Record QuestionSpec := {
  qs_id : string;
  qs_ref : SpecRef;
  qs_points : Z;
  qs_skin : string + Choice string
}.

Record SectionSpec := {
  ss_id : string;
  ss_ref : SpecRef;
  ss_skin : string + Choice string;
  ss_questions : list (Choice QuestionSpec)
}.

(** A randomizer is [None] for [CHOOSE_ALL], or the state of a seeded
    generator. *)
#[export] Instance opaque : Opaque :=
  {| Randomizer := option nat;
     SectionChooser := Choice SectionSpec;
     QuestionChooser := Choice QuestionSpec;
     SkinChooser := Choice string;
     ExamComponentSkin := string |}.

Definition choose {A} (c : Choice A) : M (option nat) (list A) :=
  match c with
  | Fixed a => ret [a]
  | All pool => ret pool
  | RandomOne pool =>
      fun rand =>
        match rand with
        | None => (Ok pool, None)
        | Some state =>
            match pool !! (state mod length pool)%nat with
            | Some a => (Ok [a], Some (S state))
            | None => (Err (Thrown "SelectionRangeError"), Some state)
            end
        end
  end.

Definition to_skin (s : string + Choice string) : Skin :=
  match s with
  | inl skin => SkinLeaf skin
  | inr chooser => SkinChoice chooser
  end.

Definition to_question (q : QuestionSpec) : Question :=
  {| question_id := qs_id q; question_spec := qs_ref q;
     question_skin := to_skin (qs_skin q);
     question_pointsPossible := qs_points q;
     question_media_dir := None |}.

Definition to_section (s : SectionSpec) : Section :=
  {| section_id := ss_id s; section_spec := ss_ref s;
     section_skin := to_skin (ss_skin s);
     section_questions := ss_questions s;
     section_media_dir := None |}.

#[export] Instance collaborators : Collaborators :=
  {| CHOOSE_ALL := None;
     createSectionChoiceRandomizer seed _ := Some (String.length seed);
     createQuestionChoiceRandomizer seed _ _ := Some (String.length seed);
     createSectionSkinRandomizer seed _ _ := Some (String.length seed);
     createQuestionSkinRandomizer seed _ _ := Some (String.length seed);
     chooseSections c _ _ :=
       bind (choose c) (fun l => ret (map to_section l));
     chooseQuestions c _ _ :=
       bind (choose c) (fun l => ret (map to_question l));
     skin_choose c _ _ := choose c;
     createCompositeSkin sectionSkin questionSkin :=
       Ok (sectionSkin +:+ "-" +:+ questionSkin) |}.

#[export] Instance uuids : UuidPackage :=
  {| uuid_v4 draws := "random-" +:+ pretty draws;
     uuid_v5 name namespace := Ok (namespace +:+ "/" +:+ name) |}.

#[export] Instance regexps : RegExpBuiltin :=
  {| RegExp_new pattern flags :=
       match pattern, flags with
       | VString p, VString f => Ok (p, f)
       | VString p, VUndefined => Ok (p, "")
       | VUndefined, VString f => Ok ("(?:)", f)
       | VUndefined, VUndefined => Ok ("(?:)", "")
       | _, _ => Err (Thrown "SyntaxError")
       end |}.

Definition newline : string := String (ascii_of_nat 10) EmptyString.

Definition roster_text : string :=
  "uniqname,name" +:+ newline +:+ "bo,Bo" +:+ newline +:+ "alice,Alice".

Definition roster_text_empty_name : string :=
  "uniqname,name" +:+ newline +:+ "bo,Bo" +:+ newline +:+ "alice,".

#[export] Instance roster_files : RosterFiles :=
  {| readFileSync filename :=
       if String.eqb filename "roster.csv" then Ok roster_text
       else if String.eqb filename "bad.csv" then Ok roster_text_empty_name
       else Err (Thrown "ENOENT: no such file or directory");
     Papa_parse_data text :=
       if String.eqb text roster_text then
         [ {| row_uniqname := Some "bo"; row_name := Some "Bo" |};
           {| row_uniqname := Some "alice"; row_name := Some "Alice" |} ]
       else if String.eqb text roster_text_empty_name then
         [ {| row_uniqname := Some "bo"; row_name := Some "Bo" |};
           {| row_uniqname := Some "alice"; row_name := Some "" |} ]
       else [] |}.

Definition bo : StudentInfo := {| uniqname := "bo"; name := "Bo" |}.
Definition alice : StudentInfo := {| uniqname := "alice"; name := "Alice" |}.

Definition q1 : QuestionSpec :=
  {| qs_id := "q1"; qs_ref := 1; qs_points := 3; qs_skin := inl "plain" |}.
Definition q2 : QuestionSpec :=
  {| qs_id := "q2"; qs_ref := 2; qs_points := 5; qs_skin := inl "plain" |}.
Definition q3 : QuestionSpec :=
  {| qs_id := "q3"; qs_ref := 3; qs_points := 4; qs_skin := inl "plain" |}.
(** A question whose skin is drawn from two skins. *)
Definition q4 : QuestionSpec :=
  {| qs_id := "q4"; qs_ref := 4; qs_points := 2;
     qs_skin := inr (RandomOne ["red"; "blue"]) |}.

Definition sec1 : SectionSpec :=
  {| ss_id := "sec1"; ss_ref := 10; ss_skin := inl "default";
     ss_questions := [Fixed q1; Fixed q2] |}.
(** A variant worth fewer points. *)
Definition sec2 : SectionSpec :=
  {| ss_id := "sec2"; ss_ref := 11; ss_skin := inl "default";
     ss_questions := [Fixed q3] |}.
(** Another specification object under the id of [sec1]. *)
Definition sec1_other : SectionSpec :=
  {| ss_id := "sec1"; ss_ref := 12; ss_skin := inl "default";
     ss_questions := [Fixed q1; Fixed q2] |}.
(** Two specification objects under an id that names a property of
    [Object.prototype]. *)
Definition sec_toString : SectionSpec :=
  {| ss_id := "toString"; ss_ref := 15; ss_skin := inl "default";
     ss_questions := [Fixed q1; Fixed q2] |}.
Definition sec_toString_other : SectionSpec :=
  {| ss_id := "toString"; ss_ref := 16; ss_skin := inl "default";
     ss_questions := [Fixed q1; Fixed q2] |}.
(** A section whose skin chooser yields two skins. *)
Definition sec_two_skins : SectionSpec :=
  {| ss_id := "sec3"; ss_ref := 13; ss_skin := inr (All ["s1"; "s2"]);
     ss_questions := [Fixed q1] |}.
(** A section whose skin and whose question's skin are drawn. *)
Definition sec_skinned : SectionSpec :=
  {| ss_id := "sec4"; ss_ref := 14;
     ss_skin := inr (RandomOne ["green"; "yellow"]);
     ss_questions := [Fixed q4] |}.

Definition exam_of (id : string) (sections : list (Choice SectionSpec))
  : Exam :=
  {| exam_id := id; exam_sections := sections; exam_media_dir := None |}.

Definition exam_fixed : Exam := exam_of "midterm" [Fixed sec1].
Definition exam_unequal : Exam := exam_of "midterm" [RandomOne [sec1; sec2]].
Definition exam_drift : Exam := exam_of "midterm" [RandomOne [sec1; sec1_other]].
Definition exam_drift_inherited : Exam :=
  exam_of "midterm" [RandomOne [sec_toString; sec_toString_other]].
Definition exam_two_skins : Exam := exam_of "midterm" [Fixed sec_two_skins].
Definition exam_skinned : Exam := exam_of "midterm" [Fixed sec_skinned].

Definition plain_options : ExamGeneratorOptions := assign_defaults no_options.

Definition consistent_options : ExamGeneratorOptions :=
  assign_defaults
    {| p_frontend_js_path := None; p_frontend_media_dir := None;
       p_uuid_strategy := None; p_uuidv5_namespace := None;
       p_choose_all := None; p_allow_duplicates := None;
       p_consistent_randomization := Some true |}.

Definition duplicates_options : ExamGeneratorOptions :=
  assign_defaults
    {| p_frontend_js_path := None; p_frontend_media_dir := None;
       p_uuid_strategy := None; p_uuidv5_namespace := None;
       p_choose_all := None; p_allow_duplicates := Some true;
       p_consistent_randomization := None |}.

Definition uuidv5_options (namespace : option string) : PartialOptions :=
  {| p_frontend_js_path := None; p_frontend_media_dir := None;
     p_uuid_strategy := Some uuidv5; p_uuidv5_namespace := namespace;
     p_choose_all := None; p_allow_duplicates := None;
     p_consistent_randomization := None |}.





(** The state of a generator that was just constructed. *)
Definition fresh : GenState := initial_state 0.

(** The exam to expect under the [plain] strategy for a student who is
    assigned the given sections and questions with the given skins. *)
Definition assigned (exam : Exam) (student : StudentInfo)
    (sections : list (SectionSpec * string * list (QuestionSpec * string)))
  : AssignedExam :=
  new_AssignedExam (uniqname student +:+ "-" +:+ exam_id exam) exam student
    (imap (fun i (s : SectionSpec * string * list (QuestionSpec * string)) =>
             {| as_uuid := uniqname student +:+ "-" +:+ exam_id exam
                           +:+ "-s-" +:+ ss_id (fst (fst s));
                as_section := to_section (fst (fst s));
                as_sectionIndex := i;
                as_skin := snd (fst s);
                as_assignedQuestions :=
                  imap (fun j (q : QuestionSpec * string) =>
                          {| aq_uuid := uniqname student +:+ "-"
                                        +:+ exam_id exam +:+ "-q-"
                                        +:+ qs_id (fst q);
                             aq_exam := exam; aq_student := student;
                             aq_question := to_question (fst q);
                             aq_skin := snd q;
                             aq_sectionIndex := i; aq_partIndex := j;
                             aq_rawSubmission := "" |})
                       (snd s) |})
          sections)
    false.

(** The uuids, the section ids and the skins of the questions of an
    assigned exam. *)
Definition outline (ae : AssignedExam)
  : string * Z * list (string * string * list (string * string)) :=
  (ae_uuid ae, ae_pointsPossible ae,
   map (fun s =>
          (section_id (as_section s), as_skin s,
           map (fun q => (question_id (aq_question q), aq_skin q))
               (as_assignedQuestions s)))
       (ae_assignedSections ae)).

End Demo.

(** * Vocabulary of the properties *)

(** [post m Q]: a value that [m] returns satisfies [Q]. *)
Definition post {St A} (m : M St A) (Q : A -> Prop) : Prop :=
  forall st a st', m st = (Ok a, st') -> Q a.

(** [preserves R m]: [m] takes a store to an [R]-related store, whether it
    returns or throws. *)
Definition preserves {St A} (R : St -> St -> Prop) (m : M St A) : Prop :=
  forall st r st', m st = (r, st') -> R st st'.

(** [R] on the first component of a pair of stores. *)
Definition on_fst {St T} (R : St -> St -> Prop) : St * T -> St * T -> Prop :=
  fun p q => R (fst p) (fst q).

Section Vocabulary.
Context `{JsNumber} `{Opaque}.

(** What a step of the generator leaves alone: the list of assigned exams,
    and the representative of every id that the tables of the checker
    already hold. *)
Definition frame (st st' : GenState) : Prop :=
  assignedExams st' = assignedExams st
  /\ (forall id stats, sectionStatsMap st !! id = Some stats ->
      exists stats', sectionStatsMap st' !! id = Some stats'
                     /\ stats_section stats' = stats_section stats)
  /\ (forall id stats, questionStatsMap st !! id = Some stats ->
      exists stats', questionStatsMap st' !! id = Some stats'
                     /\ stats_question stats' = stats_question stats).

(** The tables hold, for the id of a section (of a question), a
    representative with the same specification object, unless the id names
    a property that the tables inherit. *)
Definition section_covered (st : GenState) (s : Section) : Prop :=
  inherited (section_id s) = true
  \/ exists stats, sectionStatsMap st !! section_id s = Some stats
                   /\ section_spec (stats_section stats) = section_spec s.

Definition question_covered (st : GenState) (q : Question) : Prop :=
  inherited (question_id q) = true
  \/ exists stats, questionStatsMap st !! question_id q = Some stats
                   /\ question_spec (stats_question stats) = question_spec q.

Definition sections_of (ae : AssignedExam) : list Section :=
  map as_section (ae_assignedSections ae).

Definition questions_of (ae : AssignedExam) : list Question :=
  flat_map (fun s => map aq_question (as_assignedQuestions s))
           (ae_assignedSections ae).

Definition exam_covered (st : GenState) (ae : AssignedExam) : Prop :=
  Forall (section_covered st) (sections_of ae)
  /\ Forall (question_covered st) (questions_of ae).

(** The two errors of the consistency checker. *)
Definition is_drift_error (e : error) : Prop :=
  exists id, e = AssertionFailed (msg_section_drift id)
             \/ e = AssertionFailed (msg_question_drift id).

(** Every assigned exam has the points of the first one, under [===]. *)
Definition points_consistent (exams : list AssignedExam) : Prop :=
  forall first, head exams = Some first ->
  Forall (fun ae => strict_eq (ae_pointsPossible ae) (ae_pointsPossible first)
                    = true) exams.

(** The uuids of the [plain] strategy, for the sections and questions
    assigned to a student in an exam. *)
Definition plain_section_uuid (exam : Exam) (student : StudentInfo)
    (s : AssignedSection) : string :=
  uniqname student +:+ "-" +:+ exam_id exam +:+ "-s-"
  +:+ section_id (as_section s).

Definition plain_question_uuid (exam : Exam) (student : StudentInfo)
    (q : AssignedQuestion) : string :=
  uniqname student +:+ "-" +:+ exam_id exam +:+ "-q-"
  +:+ question_id (aq_question q).

Definition all_covered (st : GenState) : Prop :=
  Forall (exam_covered st) (assignedExams st).

(** No drift: sections that share a [section_id], and questions that share
    a [question_id], anywhere in the exams, have the same specification
    object. *)
Definition spec_consistent (exams : list AssignedExam) : Prop :=
  forall ae1 ae2, ae1 ∈ exams -> ae2 ∈ exams ->
  (forall s1 s2, s1 ∈ sections_of ae1 -> s2 ∈ sections_of ae2 ->
                 section_id s1 = section_id s2 ->
                 section_spec s1 = section_spec s2)
  /\ (forall q1 q2, q1 ∈ questions_of ae1 -> q2 ∈ questions_of ae2 ->
                    question_id q1 = question_id q2 ->
                    question_spec q1 = question_spec q2).

(** No drift among the ids that the checker tells apart from the
    properties that its tables inherit. *)
Definition spec_consistent_checked (exams : list AssignedExam) : Prop :=
  forall ae1 ae2, ae1 ∈ exams -> ae2 ∈ exams ->
  (forall s1 s2, s1 ∈ sections_of ae1 -> s2 ∈ sections_of ae2 ->
                 section_id s1 = section_id s2 ->
                 inherited (section_id s1) = false ->
                 section_spec s1 = section_spec s2)
  /\ (forall q1 q2, q1 ∈ questions_of ae1 -> q2 ∈ questions_of ae2 ->
                    question_id q1 = question_id q2 ->
                    inherited (question_id q1) = false ->
                    question_spec q1 = question_spec q2).

(** The state of the generator after [assignExam] has pushed [ae]. *)
Definition pushed (student : StudentInfo) (ae : AssignedExam) (st : GenState)
  : GenState :=
  set_assignedExamsByUniqname
    (assign_property (uniqname student) ae (assignedExamsByUniqname st))
    (push_assignedExam ae st).

End Vocabulary.


(** *** Specifications that survive a save and a load *)












(** *** What two students are assigned *)

(** Two computations that return values with the same projection, from
    whatever stores they run in. *)
Definition agree {St A B} (proj : A -> B) (m1 m2 : M St A) : Prop :=
  forall st1 st2 a1 a2 st1' st2',
    m1 st1 = (Ok a1, st1') -> m2 st2 = (Ok a2, st2') -> proj a1 = proj a2.

(** The same for computations that share the state of a local object: from
    equal local states they return values with the same projection, and
    leave equal local states. *)
Definition agree_local {St T A B} (proj : A -> B) (m1 m2 : M (St * T) A)
  : Prop :=
  forall st1 st2 t a1 a2 st1' st2',
    m1 (st1, t) = (Ok a1, st1') -> m2 (st2, t) = (Ok a2, st2') ->
    proj a1 = proj a2 /\ snd st1' = snd st2'.

Section Selection.
Context `{JsNumber} `{Opaque}.

(** The sections of an assigned exam with their skins, and the questions of
    each with their skins. *)
Definition question_selection (qs : list AssignedQuestion)
  : list (Question * ExamComponentSkin) :=
  map (fun q => (aq_question q, aq_skin q)) qs.

Definition section_selection (ss : list AssignedSection)
  : list (Section * ExamComponentSkin
          * list (Question * ExamComponentSkin)) :=
  map (fun s => (as_section s, as_skin s,
                 question_selection (as_assignedQuestions s))) ss.

Definition selection (ae : AssignedExam)
  : list (Section * ExamComponentSkin
          * list (Question * ExamComponentSkin)) :=
  section_selection (ae_assignedSections ae).

(** Choosers that draw from their randomizer only: the student they are
    called for makes no difference. *)
Definition choosers_draw_only `{!Collaborators} : Prop :=
  (forall c e s1 s2 r, chooseSections c e s1 r = chooseSections c e s2 r)
  /\ (forall c e s1 s2 r, chooseQuestions c e s1 r = chooseQuestions c e s2 r)
  /\ (forall c e s1 s2 r, skin_choose c e s1 r = skin_choose c e s2 r).

End Selection.

(** *** The tables of the generator *)

Section Bookkeeping.
Context `{JsNumber} `{Opaque}.

(** A field of the generator that a step leaves as it is. *)
Definition keeps {X} (field : GenState -> X) (st st' : GenState) : Prop :=
  field st' = field st.

(** A field other than the number of draws from the random source. *)
Definition apart_from_draws {X} (field : GenState -> X) : Prop :=
  forall st draws,
    field {| assignedExams := assignedExams st;
             assignedExamsByUniqname := assignedExamsByUniqname st;
             sectionsMap := sectionsMap st; questionsMap := questionsMap st;
             sectionStatsMap := sectionStatsMap st;
             questionStatsMap := questionStatsMap st;
             uuid_draws := draws |}
    = field st.

(** A field other than the four tables of the checker. *)
Definition apart_from_tables {X} (field : GenState -> X) : Prop :=
  (forall m st, field (set_sectionsMap m st) = field st)
  /\ (forall m st, field (set_questionsMap m st) = field st)
  /\ (forall m st, field (set_sectionStatsMap m st) = field st)
  /\ (forall m st, field (set_questionStatsMap m st) = field st).

(** The sections and the questions of a list of assigned exams, in the
    order in which the checker meets them. *)
Definition all_sections (exams : list AssignedExam) : list Section :=
  flat_map sections_of exams.

Definition all_questions (exams : list AssignedExam) : list Question :=
  flat_map questions_of exams.

Definition sections_with (id : string) (l : list Section) : list Section :=
  List.filter (fun s => String.eqb (section_id s) id) l.

Definition questions_with (id : string) (l : list Question) : list Question :=
  List.filter (fun q => String.eqb (question_id q) id) l.

(** The entry that the usage statistics should hold for an id: the first
    section (question) met under the id, and how many were met. *)
Definition section_stats_of (id : string) (l : list Section)
  : option SectionStats :=
  match sections_with id l with
  | [] => None
  | s :: rest => Some {| stats_section := s;
                         stats_section_n := N.of_nat (S (length rest)) |}
  end.

Definition question_stats_of (id : string) (l : list Question)
  : option QuestionStats :=
  match questions_with id l with
  | [] => None
  | q :: rest => Some {| stats_question := q;
                         stats_question_n := N.of_nat (S (length rest)) |}
  end.

(** The usage statistics have no entry under a name of
    [Object.prototype]: the checker takes what the table inherits there for
    the entry. *)
Definition counted {A} (id : string) (entry : option A) : option A :=
  if inherited id then None else entry.

Definition stats_exact (st : GenState) (exams : list AssignedExam) : Prop :=
  (forall id, sectionStatsMap st !! id
              = counted id (section_stats_of id (all_sections exams)))
  /\ (forall id, questionStatsMap st !! id
                 = counted id (question_stats_of id (all_questions exams))).

(** A table that is only assigned to has no entry under [__proto__]. *)
Definition kept {A} (key : string) (entry : option A) : option A :=
  if String.eqb key "__proto__" then None else entry.

(** The lookup tables hold, for an id, the section (question) met last
    under the id. *)
Definition maps_latest (st : GenState) (exams : list AssignedExam) : Prop :=
  (forall id, sectionsMap st !! id
              = kept id (last (sections_with id (all_sections exams))))
  /\ (forall id, questionsMap st !! id
                 = kept id (last (questions_with id (all_questions exams)))).

(** The exams assigned to a uniqname, in order. *)
Definition exams_of (u : string) (exams : list AssignedExam)
  : list AssignedExam :=
  List.filter (fun ae => String.eqb (uniqname (ae_student ae)) u) exams.

Definition by_uniqname_latest (st : GenState) : Prop :=
  forall u, assignedExamsByUniqname st !! u
            = kept u (last (exams_of u (assignedExams st))).

(** An assigned question in its place: it carries the exam, the student and
    the index of the section that holds it, and no answer yet. *)
Definition question_in_place (exam : Exam) (student : StudentInfo)
    (sectionIndex : nat) (q : AssignedQuestion) : Prop :=
  aq_exam q = exam /\ aq_student q = student
  /\ aq_sectionIndex q = sectionIndex /\ aq_rawSubmission q = "".

Definition section_in_place (exam : Exam) (student : StudentInfo)
    (a : AssignedSection) : Prop :=
  Forall (question_in_place exam student (as_sectionIndex a))
         (as_assignedQuestions a).

(** The indices of an assigned section are positions: its questions are
    numbered from 0 in order. *)
Definition parts_numbered (a : AssignedSection) : Prop :=
  map aq_partIndex (as_assignedQuestions a)
  = seq 0 (length (as_assignedQuestions a)).

End Bookkeeping.

(** *** Chunks of grading groups *)

(** Consecutive slices of [k] items, the last one shorter when the length is
    not a multiple of [k]: what the loop of [chunk] collects for a chunk
    size [k] of 1 or more. *)
Fixpoint slices_from {A} (fuel k : nat) (l : list A) : list (list A) :=
  match fuel with
  | O => []
  | S fuel' =>
      match l with
      | [] => []
      | _ :: _ => take k l :: slices_from fuel' k (drop k l)
      end
  end.

Definition slices {A} (k : nat) (l : list A) : list (list A) :=
  slices_from (length l) k l.

(** What is assumed of the [chunk] function of [simple-statistics]: the
    chunks it returns are the array cut in pieces, in order; and for a whole
    chunk size of 1 or more, the pieces are the consecutive slices of that
    size. *)
Definition chunk_cuts_in_order `{ChunkPackage} : Prop :=
  forall (A : Type) (l : list A) size chunks,
    chunk l size = Ok chunks -> concat chunks = l.

Definition chunk_slices `{ChunkPackage} : Prop :=
  forall (A : Type) (l : list A) k,
    (1 <= k)%Z -> chunk l (Finite k) = Ok (slices (Z.to_nat k) l).

(** *** Values that hold a [null] *)

Fixpoint contains_null (v : value) : bool :=
  match v with
  | VNull => true
  | VArray items => existsb contains_null items
  | VObject props | VInstance _ props =>
      existsb (fun p => contains_null (snd p)) props
  | _ => false
  end.

(** *** The counts of the overview of a multiple-choice question *)

Global Instance MCSubmission_eq_dec : EqDecision MCSubmission.
Proof. solve_decision. Defined.

Section OverviewCounts.
Context `{JsNumber} `{Opaque}.

(** How many of the assigned questions have the one selection [i], and how
    many have no selection. *)
Definition times_selected (i : nat) (aqs : list MCAssignedQuestion) : nat :=
  length (List.filter
            (fun aq => bool_decide (mc_submission aq = MC_selected [i])) aqs).

Definition unanswered (aqs : list MCAssignedQuestion) : nat :=
  length (List.filter
            (fun aq => bool_decide (mc_submission aq = MC_BLANK
                                    \/ mc_submission aq = MC_selected []))
            aqs).

End OverviewCounts.

(** *** Members of a JSON object *)

Fixpoint lookup_member (key : string) (members : list (string * json))
  : option json :=
  match members with
  | [] => None
  | (k, j) :: members' =>
      if String.eqb k key then Some j else lookup_member key members'
  end.

(** The statistics of an id as they are written: the count alone. *)
Definition count_json (n : N) : json := JObject [("n", JNumber (Z.of_N n))].

(** An id whose entry the replacer of [writeStats] drops, and what is
    written for the entry of a table otherwise. *)
Definition dropped (id : string) : bool :=
  String.eqb id "section" || String.eqb id "question".

Definition written {A} (count : A -> N) (p : string * A)
  : option (string * json) :=
  if dropped (fst p) then None else Some (fst p, count_json (count (snd p))).

(** ** More of the small instance

    Stand-ins for the collaborators of the grading assignments, of the
    overview, of the statistics and of the submissions, and the data that
    the properties below are run on. *)
Module Demo2.
Import Demo.

#[export] Instance grading : GradingCollaborators :=
  {| SkinReplacements := string; GradingResult := nat;
     skin_replacements skin := skin;
     stringify_submission aq := aq_rawSubmission aq |}.

(** A chunk size below 1 and a chunk size that is not an integer are
    rejected; an infinite chunk size takes the whole array, if it has an
    item, as the one chunk. *)
#[export] Instance chunks : ChunkPackage :=
  {| chunk A l size :=
       match size with
       | Finite k =>
           if (k <? 1)%Z
           then Err (Thrown "chunk size must be a positive number")
           else Ok (slices (Z.to_nat k) l)
       | Infinite => Ok (match l with [] => [] | _ :: _ => [l] end)
       | NotANumber => Err (Thrown "chunk size must be an integer")
       end |}.

#[export] Instance overview : OverviewCollaborators :=
  {| renderNumBadge n := "<span>" +:+ pretty n +:+ "</span>";
     mk2html choice :=
       match choice with
       | Some text => Ok ("<p>" +:+ text +:+ "</p>")
       | None => Err (TypeError "Cannot read properties of undefined")
       end;
     CHECK_ICON := "[check]";
     RED_X_ICON := "[x]";
     response_choices _ := ["one"; "two"; "three"];
     Question_toString _ := "[object Object]" |}.

#[export] Instance objects : ComponentObjects :=
  {| section_object s := VObject [("section_id", VString (section_id s))];
     question_object q := VObject [("question_id", VString (question_id q))] |}.

(** Paths without [.] and [..], joined with a slash. *)
#[export] Instance paths : PathModule :=
  {| path_join segments := String.concat "/" segments |}.

#[export] Instance submissions : SubmissionCollaborators :=
  {| TrustedExamSubmission := value * value;
     fillManifest manifest submitted := Ok (manifest, submitted);
     readdirSync directory :=
       if String.eqb directory "submitted"
       then Ok ["bo.json"; "alice.json"; "notes.txt"]
       else Err (Thrown "ENOENT: no such file or directory");
     ToString v :=
       match v with
       | VString s => s
       | VUndefined => "undefined"
       | VNull => "null"
       | _ => "[object Object]"
       end |}.

(** The exams of two students. *)
Definition assigned_fixed (student : StudentInfo) : AssignedExam :=
  assigned exam_fixed student
    [(sec1, "default", [(q1, "default-plain"); (q2, "default-plain")])].

(** Four assigned questions to grade, two per student. *)
Definition to_grade (student : StudentInfo) (q : QuestionSpec) (part : nat)
  : AssignedQuestion :=
  {| aq_uuid := uniqname student +:+ "-midterm-q-" +:+ qs_id q;
     aq_exam := exam_fixed; aq_student := student;
     aq_question := to_question q; aq_skin := "default-plain";
     aq_sectionIndex := 0; aq_partIndex := part; aq_rawSubmission := "" |}.

Definition questions_to_grade : list AssignedQuestion :=
  [to_grade bo q1 0; to_grade bo q2 1; to_grade alice q1 0;
   to_grade alice q2 1].

(** Their grading assignments in three chunks: the chunk size is 2, which
    gives two assignments. *)
Definition two_assignments : list GradingAssignmentSpecification :=
  Eval vm_compute in
    match fst (createGradingAssignments questions_to_grade (WholeNumber 3) tt)
    with
    | Ok assns => assns
    | Err _ => []
    end.

(** The two assignments cut again, in four chunks. *)
Definition four_assignments : list GradingAssignmentSpecification :=
  Eval vm_compute in
    match fst (rechunkGradingAssignments two_assignments (WholeNumber 4) tt)
    with
    | Ok assns => assns
    | Err _ => []
    end.

(** Five answers to a multiple-choice question: two for the second choice,
    one for the first, one blank and one empty. *)
Definition answers : list MCAssignedQuestion :=
  map (fun sub => {| mc_question := to_question q1; mc_submission := sub |})
      [MC_selected [1]; MC_BLANK; MC_selected [0]; MC_selected [1];
       MC_selected []].

(** The overview of the answers, with the second choice as the correct
    one. *)
Definition answers_overview : string :=
  Eval vm_compute in
    match fst (renderOverview 1 answers tt) with
    | Ok html => html
    | Err _ => ""
    end.

(** An exam laid out as the test exams of the repository are: its one
    section has the id "section". *)
Definition section_of_test : SectionSpec :=
  {| ss_id := "section"; ss_ref := 20; ss_skin := inl "default";
     ss_questions := [Fixed q1; Fixed q2] |}.

Definition exam_test : Exam := exam_of "simple_test" [Fixed section_of_test].

Definition test_student : StudentInfo :=
  {| uniqname := "test"; name := "Test Student" |}.

(** A roster file whose header has no [name] column. *)
Definition roster_without_names : RosterFiles :=
  {| readFileSync filename := Ok ("uniqname" +:+ newline +:+ "bo");
     Papa_parse_data text :=
       [ {| row_uniqname := Some "bo"; row_name := None |} ] |}.

(** A specification file with a [null] in an array. *)
Definition file_with_null : gmap string file_content :=
  {[ "spec.json" :=
       JsonText (JObject [("id", JString "q1");
                          ("choices", JArray [JString "a"; JNull])]) ]}.

(** The submission of [bo] with its manifest, a submission without a
    student, and a file that is not JSON. *)
Definition submitted_files : gmap string file_content :=
  {[ "submitted/bo.json" :=
       JsonText (JObject [("uuid", JString "bo-midterm");
                          ("student",
                           JObject [("uniqname", JString "bo");
                                    ("name", JString "Bo")])]);
     "manifests/bo-bo-midterm.json" :=
       JsonText (JObject [("uuid", JString "bo-midterm")]);
     "submitted/alice.json" :=
       JsonText (JObject [("uuid", JString "alice-midterm")]);
     "submitted/notes.txt" := OtherText "to do" ]}.

(** The exam of [bo] when duplicates are allowed and the section has two
    skins. *)
Definition exam_of_two_skins : AssignedExam :=
  Eval vm_compute in
    match fst (createRandomizedExam exam_two_skins duplicates_options bo None
                 fresh) with
    | Ok ae => ae
    | Err _ => assigned exam_two_skins bo []
    end.

#[export] Instance assignment_files : AssignmentFiles :=
  {| uniqueNamesGenerator draw := "name-" +:+ pretty draw;
     assignment_json assn :=
       JObject [("exam_id", JString (assn_exam_id assn));
                ("question_id", JString (assn_question_id assn));
                ("groups",
                 JArray (map (fun g => JString (group_name g))
                             (assn_groups assn)));
                ("name", JString (default "" (assn_name assn)))] |}.

(** A file of an earlier grading session, under the name that is drawn
    first. *)
Definition graded_before : gmap string file_content :=
  {[ "data/midterm/manual_grading/q1/name-0.json" := OtherText "graded" ]}.

(** The exam [exam_fixed] with a media directory. *)
Definition exam_with_media : Exam :=
  {| exam_id := "midterm"; exam_sections := [Fixed sec1];
     exam_media_dir := Some "media/midterm" |}.

(** [trim] for the blank, and [JSON.parse] on three texts: a drop item
    with the id a and the number 42 as children, then the string x; the
    string x, then a drop list with a [null] between an item and a number;
    and a drop item without id whose children are the string x. Every other
    text is taken as a syntax error. *)
Fixpoint trim_start (s : string) : string :=
  match s with
  | String " " s' => trim_start s'
  | _ => s
  end.

Definition reverse_string (s : string) : string :=
  string_of_list_ascii (rev (list_ascii_of_string s)).

Definition dq : string := String (ascii_of_nat 34) EmptyString.

Definition text_with_ids : string :=
  Eval vm_compute in
    "[[{" +:+ dq +:+ "id" +:+ dq +:+ ":" +:+ dq +:+ "a" +:+ dq +:+ ","
    +:+ dq +:+ "children" +:+ dq +:+ ":42}]," +:+ dq +:+ "x" +:+ dq +:+ "]".

Definition text_with_null : string :=
  Eval vm_compute in
    "[" +:+ dq +:+ "x" +:+ dq +:+ ",[{" +:+ dq +:+ "id" +:+ dq +:+ ":"
    +:+ dq +:+ "a" +:+ dq +:+ "},null,7]]".

Definition text_with_children : string :=
  Eval vm_compute in
    "[[{" +:+ dq +:+ "children" +:+ dq +:+ ":[" +:+ dq +:+ "x" +:+ dq
    +:+ "]}]]".

#[export] Instance texts : TextBuiltins :=
  {| String_trim s := reverse_string (trim_start (reverse_string (trim_start s)));
     JSON_parse_text raw :=
       if String.eqb raw text_with_ids then
         Some (JArray [JArray [JObject [("id", JString "a");
                                        ("children", JNumber 42)]];
                       JString "x"])
       else if String.eqb raw text_with_null then
         Some (JArray [JString "x";
                       JArray [JObject [("id", JString "a")]; JNull;
                               JNumber 7]])
       else if String.eqb raw text_with_children then
         Some (JArray [JArray [JObject [("children",
                                         JArray [JString "x"])]]])
       else None |}.

End Demo2.

(** *** The copies of media that are requested *)

Section MediaRequests.
Context `{JsNumber} `{Opaque} `{PathModule}.

(** The copy requested for a section and for a question, if it has a
    media directory. *)
Definition section_copy (media_out_dir : string) (s : Section)
  : option (string * string) :=
  match section_media_dir s with
  | Some dir =>
      if String.eqb dir "" then None
      else Some (dir, path_join [media_out_dir; "section"; section_id s])
  | None => None
  end.

Definition question_copy (media_out_dir : string) (q : Question)
  : option (string * string) :=
  match question_media_dir q with
  | Some dir =>
      if String.eqb dir "" then None
      else Some (dir, path_join [media_out_dir; "question"; question_id q])
  | None => None
  end.

Definition exam_copy (media_out_dir : string) (exam : Exam)
  : option (string * string) :=
  match exam_media_dir exam with
  | Some dir =>
      if String.eqb dir "" then None
      else Some (dir, path_join [media_out_dir; "exam"; exam_id exam])
  | None => None
  end.

End MediaRequests.

(** *** Submissions of drag-and-drop code *)

(** A drop item that is an object with a string under [id], and an element
    of a submission that is a string or a list of such items. *)
Definition has_string_id (d : value) : bool :=
  match d with
  | VObject props =>
      match lookup_prop "id" props with
      | Some (VString _) => true
      | _ => false
      end
  | _ => false
  end.

Definition plain_element (elem : value) : bool :=
  match elem with
  | VString _ => true
  | VArray drops => forallb has_string_id drops
  | _ => false
  end.

(** The callbacks of [isValidParsonsSubmission], by name: the test of a
    child of a drop item, of a drop item and of an element. *)
Definition child_test (e : value) : result bool :=
  match e with
  | VString _ => Ok true
  | _ => isValidParsonsSubmission e
  end.

Definition drop_test (d : value) : result bool :=
  id <-- get_prop d "id" ;;
  if String.eqb (typeof id) "string" then Ok true
  else
    match d with
    | VObject props | VInstance _ props => children_every child_test props
    | _ => Ok false
    end.

Definition element_test (elem : value) : result bool :=
  match elem with
  | VString _ => Ok true
  | VArray drops => every drop_test drops
  | _ => Ok false
  end.

(** What the validity test computes on a parsed text without [null]: none
    of its callbacks throws, at any depth. *)
Definition tests_return (v : value) : Prop :=
  (exists b, isValidParsonsSubmission v = Ok b)
  /\ (exists b, child_test v = Ok b)
  /\ (exists b, drop_test v = Ok b)
  /\ (exists b, element_test v = Ok b)
  /\ (exists b, match v with
                | VArray items => every child_test items
                | _ => Ok false
                end = Ok b).

(** * Properties *)

(** ** The monad *)

Lemma bind_inv {St A B} (m : M St A) (k : A -> M St B) st r st' :
  bind m k st = (r, st') ->
  (exists e, m st = (Err e, st') /\ r = Err e) \/
  (exists a st1, m st = (Ok a, st1) /\ k a st1 = (r, st')).
Proof.
  unfold bind. destruct (m st) as [[a|e] st1]; intros Hk.
  - right. eauto.
  - left. inversion Hk; subst. eauto.
Qed.

Lemma bind_Ok_inv {St A B} (m : M St A) (k : A -> M St B) st b st' :
  bind m k st = (Ok b, st') ->
  exists a st1, m st = (Ok a, st1) /\ k a st1 = (Ok b, st').
Proof.
  intros Hb. apply bind_inv in Hb as [(e & _ & He)|Hb]; [discriminate|done].
Qed.

Lemma bind_Ok {St A B} (m : M St A) (k : A -> M St B) st a st1 :
  m st = (Ok a, st1) -> bind m k st = k a st1.
Proof. unfold bind. by intros ->. Qed.

Lemma bind_Err {St A B} (m : M St A) (k : A -> M St B) st e st1 :
  m st = (Err e, st1) -> bind m k st = (Err e, st1).
Proof. unfold bind. by intros ->. Qed.

Lemma assert_Ok_inv {St} (c : bool) (msg : string) (st st' : St) u :
  assert c msg st = (Ok u, st') -> c = true /\ st' = st.
Proof. destruct c; cbn; intros Ha; inversion Ha; done. Qed.

(** ** Configuration (claim C6) *)

Section ConstructorProperties.
Context `{JsNumber} `{Opaque}.

(** C6. Under the [uuidv5] strategy the constructor throws when no namespace
    is given and when the namespace has fewer than 16 characters, so that no
    generator exists to process a student; a namespace of 16 characters or
    more passes the check and yields a generator that has assigned no exam. *)
Theorem constructor_checks_uuidv5_namespace
    (draws : nat) (exam : Exam) (options : PartialOptions) :
  p_uuid_strategy options = Some uuidv5 ->
  (p_uuidv5_namespace options = None ->
   constructor draws exam options = Err (AssertionFailed msg_namespace_missing))
  /\ (forall ns, p_uuidv5_namespace options = Some ns ->
      String.length ns < 16 ->
      constructor draws exam options
      = Err (AssertionFailed (if String.eqb ns "" then msg_namespace_missing
                              else msg_namespace_short)))
  /\ (forall ns, p_uuidv5_namespace options = Some ns ->
      16 <= String.length ns ->
      constructor draws exam options
      = Ok {| gen_exam := exam; gen_options := assign_defaults options;
              gen_state := initial_state draws |}).
Proof.
  intros Hs. unfold constructor, verifyOptions. rewrite Hs.
  rewrite bool_decide_eq_true_2 by done. cbn [negb orb].
  split; [|split].
  - intros ->. reflexivity.
  - intros ns -> Hlen. cbn [truthy_string namespace_length_ok].
    destruct (String.eqb ns "") eqn:Hns; cbn [negb]; [reflexivity|].
    destruct (Nat.leb_spec 16 (String.length ns)); [lia|reflexivity].
  - intros ns -> Hlen. cbn [truthy_string namespace_length_ok].
    destruct (String.eqb ns "") eqn:Hns; cbn [negb].
    + apply String.eqb_eq in Hns. subst ns. cbn in Hlen. lia.
    + destruct (Nat.leb_spec 16 (String.length ns)); [reflexivity|lia].
Qed.

End ConstructorProperties.

(** ** Rules for [post] and [preserves] *)

Lemma post_ret {St A} (a : A) (Q : A -> Prop) : Q a -> post (@ret St A a) Q.
Proof. intros Ha st b st' Hr. inversion Hr; subst. exact Ha. Qed.

Lemma post_bind {St A B} (m : M St A) (k : A -> M St B)
    (Q1 : A -> Prop) (Q2 : B -> Prop) :
  post m Q1 -> (forall a, Q1 a -> post (k a) Q2) -> post (bind m k) Q2.
Proof.
  intros Hm Hk st b st' Hb.
  apply bind_Ok_inv in Hb as (a & st1 & Ha & Hb).
  exact (Hk a (Hm _ _ _ Ha) _ _ _ Hb).
Qed.

Lemma post_weaken {St A} (m : M St A) (Q Q' : A -> Prop) :
  post m Q -> (forall a, Q a -> Q' a) -> post m Q'.
Proof. intros Hm HQ st a st' Ha. exact (HQ _ (Hm _ _ _ Ha)). Qed.

Lemma post_true {St A} (m : M St A) : post m (fun _ => True).
Proof. intros st a st' _. exact I. Qed.

Lemma post_mapM_from {St A B} (f : A -> nat -> M St B) (Q : B -> Prop) l :
  (forall x i, post (f x i) Q) ->
  forall i, post (mapM_from i f l) (Forall Q).
Proof.
  intros Hf. induction l as [|x l IH]; intros i; cbn [mapM_from].
  - apply post_ret. constructor.
  - eapply post_bind; [apply Hf|]. intros y Hy.
    eapply post_bind; [apply IH|]. intros ys Hys.
    apply post_ret. by constructor.
Qed.

Lemma post_mapM {St A B} (f : A -> M St B) (Q : B -> Prop) l :
  (forall x, post (f x) Q) -> post (mapM f l) (Forall Q).
Proof. intros Hf. apply post_mapM_from. intros x _. apply Hf. Qed.

Lemma Forall_concat {A} (Q : A -> Prop) (ls : list (list A)) :
  Forall (Forall Q) ls -> Forall Q (concat ls).
Proof.
  induction 1 as [|l ls Hl _ IH]; cbn; [constructor|].
  apply Forall_app. by split.
Qed.

Lemma post_flatMapM_idx {St A B} (f : A -> nat -> M St (list B))
    (Q : B -> Prop) l :
  (forall x i, post (f x i) (Forall Q)) -> post (flatMapM_idx f l) (Forall Q).
Proof.
  intros Hf. unfold flatMapM_idx.
  eapply post_bind; [by apply post_mapM_from|].
  intros ls Hls. apply post_ret. by apply Forall_concat.
Qed.

Lemma post_zoom_fst {St T A} (m : M St A) (Q : A -> Prop) :
  post m Q -> post (@zoom_fst St T A m) Q.
Proof.
  intros Hm [s t] a st'. unfold zoom_fst. cbn.
  destruct (m s) as [r s'] eqn:Hs. intros Hr. inversion Hr; subst.
  exact (Hm _ _ _ Hs).
Qed.

Lemma post_zoom_snd {St T A} (m : M T A) (Q : A -> Prop) :
  post m Q -> post (@zoom_snd St T A m) Q.
Proof.
  intros Hm [s t] a st'. unfold zoom_snd. cbn.
  destruct (m t) as [r t'] eqn:Ht. intros Hr. inversion Hr; subst.
  exact (Hm _ _ _ Ht).
Qed.

Lemma post_with_local {St T A} (t0 : T) (m : M (St * T) A) (Q : A -> Prop) :
  post m Q -> post (@with_local St T A t0 m) Q.
Proof.
  intros Hm s a s'. unfold with_local.
  destruct (m (s, t0)) as [r st] eqn:Hs. intros Hr. inversion Hr; subst.
  exact (Hm _ _ _ Hs).
Qed.

Section Preserves.
Context {St : Type} (R : St -> St -> Prop) `{!Reflexive R} `{!Transitive R}.

Lemma preserves_ret {A} (a : A) : preserves R (ret a).
Proof. intros st r st' Hr. inversion Hr; subst. reflexivity. Qed.

Lemma preserves_throw {A} (e : error) : preserves R (@throw St A e).
Proof. intros st r st' Hr. inversion Hr; subst. reflexivity. Qed.

Lemma preserves_liftR {A} (x : result A) : preserves R (liftR x).
Proof. intros st r st' Hr. inversion Hr; subst. reflexivity. Qed.

Lemma preserves_assert (c : bool) (msg : string) : preserves R (assert c msg).
Proof. destruct c; [apply preserves_ret|apply preserves_throw]. Qed.

Lemma preserves_bind {A B} (m : M St A) (k : A -> M St B) :
  preserves R m -> (forall a, preserves R (k a)) -> preserves R (bind m k).
Proof.
  intros Hm Hk st r st' Hb.
  apply bind_inv in Hb as [(e & He & _)|(a & st1 & Ha & Hb)].
  - exact (Hm _ _ _ He).
  - transitivity st1; [exact (Hm _ _ _ Ha)|exact (Hk _ _ _ _ Hb)].
Qed.

Lemma preserves_forEach {A} (f : A -> M St unit) l :
  (forall x, preserves R (f x)) -> preserves R (forEach f l).
Proof.
  intros Hf. induction l as [|x l IH]; cbn [forEach].
  - apply preserves_ret.
  - apply preserves_bind; [apply Hf|]. intros _. exact IH.
Qed.

Lemma preserves_mapM_from {A B} (f : A -> nat -> M St B) l :
  (forall x i, preserves R (f x i)) -> forall i, preserves R (mapM_from i f l).
Proof.
  intros Hf. induction l as [|x l IH]; intros i; cbn [mapM_from].
  - apply preserves_ret.
  - apply preserves_bind; [apply Hf|]. intros y.
    apply preserves_bind; [apply IH|]. intros ys. apply preserves_ret.
Qed.

Lemma preserves_mapM {A B} (f : A -> M St B) l :
  (forall x, preserves R (f x)) -> preserves R (mapM f l).
Proof. intros Hf. apply preserves_mapM_from. intros x _. apply Hf. Qed.

Lemma preserves_flatMapM_idx {A B} (f : A -> nat -> M St (list B)) l :
  (forall x i, preserves R (f x i)) -> preserves R (flatMapM_idx f l).
Proof.
  intros Hf. apply preserves_bind; [by apply preserves_mapM_from|].
  intros ls. apply preserves_ret.
Qed.

#[global] Instance on_fst_refl {T} : Reflexive (@on_fst St T R).
Proof. intros p. unfold on_fst. reflexivity. Qed.

#[global] Instance on_fst_trans {T} : Transitive (@on_fst St T R).
Proof. intros p q r. unfold on_fst. apply transitivity. Qed.

Lemma preserves_zoom_fst {T A} (m : M St A) :
  preserves R m -> preserves (on_fst R) (@zoom_fst St T A m).
Proof.
  intros Hm [s t] r st'. unfold zoom_fst, on_fst. cbn.
  destruct (m s) as [r' s'] eqn:Hs. intros Hr. inversion Hr; subst. cbn.
  exact (Hm _ _ _ Hs).
Qed.

Lemma preserves_zoom_snd {T A} (m : M T A) :
  preserves (on_fst R) (@zoom_snd St T A m).
Proof.
  intros [s t] r st'. unfold zoom_snd, on_fst. cbn.
  destruct (m t) as [r' t'] eqn:Ht. intros Hr. inversion Hr; subst. cbn.
  reflexivity.
Qed.

Lemma preserves_with_local {T A} (t0 : T) (m : M (St * T) A) :
  preserves (on_fst R) m -> preserves R (with_local t0 m).
Proof.
  intros Hm s r s'. unfold with_local.
  destruct (m (s, t0)) as [r' st] eqn:Hs. intros Hr. inversion Hr; subst.
  apply (Hm _ _ _ Hs).
Qed.

End Preserves.

(** One structural step of a proof of [preserves]. *)
Ltac preserves_step :=
  lazymatch goal with
  | |- preserves ?R (bind _ _) => apply (preserves_bind R); [|intros ?]
  | |- preserves ?R (ret _) => apply (preserves_ret R)
  | |- preserves ?R (throw _) => apply (preserves_throw R)
  | |- preserves ?R (liftR _) => apply (preserves_liftR R)
  | |- preserves ?R (assert _ _) => apply (preserves_assert R)
  | |- preserves ?R (forEach _ _) => apply (preserves_forEach R); intros ?
  | |- preserves ?R (mapM _ _) => apply (preserves_mapM R); intros ?
  | |- preserves ?R (flatMapM_idx _ _) =>
      apply (preserves_flatMapM_idx R); intros ? ?
  | |- preserves (on_fst ?R) (zoom_fst _) => apply (preserves_zoom_fst R)
  | |- preserves (on_fst ?R) (zoom_snd _) => apply (preserves_zoom_snd R)
  | |- preserves ?R (with_local _ _) => apply (preserves_with_local R)
  end.

(** ** Reads and assignments of a table *)

Lemma read_property_cases {A} (table : gmap string A) key :
  (exists a, table !! key = Some a /\ read_property table key = Own a)
  \/ (table !! key = None /\ inherited key = true
      /\ read_property table key = Inherited)
  \/ (table !! key = None /\ inherited key = false
      /\ read_property table key = Missing).
Proof.
  unfold read_property. destruct (table !! key) as [a|]; [left; by exists a|].
  right. destruct (inherited key); [by left|by right].
Qed.

Lemma inherited_proto key : String.eqb key "__proto__" = true -> inherited key = true.
Proof.
  intros Hkey. unfold inherited, Object_prototype_names. cbn [existsb].
  rewrite Hkey. by rewrite !orb_true_r.
Qed.

Lemma assign_property_insert {A} key (a : A) table :
  inherited key = false -> assign_property key a table = <[key := a]> table.
Proof.
  intros Hkey. unfold assign_property.
  destruct (String.eqb key "__proto__") eqn:Hproto; [|reflexivity].
  apply inherited_proto in Hproto. congruence.
Qed.

(** What a table holds under a key after an assignment. *)
Lemma lookup_assign_property {A} key (a : A) table key' :
  assign_property key a table !! key'
  = if String.eqb key "__proto__" then table !! key'
    else if String.eqb key key' then Some a else table !! key'.
Proof.
  unfold assign_property. destruct (String.eqb key "__proto__"); [done|].
  destruct (String.eqb key key') eqn:Hkey.
  - apply String.eqb_eq in Hkey as ->. apply lookup_insert_eq.
  - apply String.eqb_neq in Hkey. by apply lookup_insert_ne.
Qed.

(** ** What the steps of the generator leave alone *)

Section GeneratorFrame.
Context `{JsNumber} `{Opaque} `{!Collaborators} `{UuidPackage}.
Variable exam : Exam.
Variable options : ExamGeneratorOptions.

#[global] Instance frame_refl : Reflexive frame.
Proof. intros st. repeat split; eauto. Qed.

#[global] Instance frame_trans : Transitive frame.
Proof.
  intros st1 st2 st3 (Ha & Hs & Hq) (Ha' & Hs' & Hq'). split; [congruence|].
  split.
  - intros id stats Hl. destruct (Hs _ _ Hl) as (stats2 & Hl2 & E2).
    destruct (Hs' _ _ Hl2) as (stats3 & Hl3 & E3).
    exists stats3. split; [done|congruence].
  - intros id stats Hl. destruct (Hq _ _ Hl) as (stats2 & Hl2 & E2).
    destruct (Hq' _ _ Hl2) as (stats3 & Hl3 & E3).
    exists stats3. split; [done|congruence].
Qed.

Lemma frame_on_uuid_draws {A} (m : M nat A) : preserves frame (on_uuid_draws m).
Proof.
  intros st r st'. unfold on_uuid_draws.
  destruct (m (uuid_draws st)) as [r' d]. intros Hr. inversion Hr; subst.
  repeat split; cbn; eauto.
Qed.

Lemma frame_newAssignedQuestions question student sectionIndex partIndex skins :
  preserves frame
    (newAssignedQuestions exam options question student sectionIndex partIndex
       skins).
Proof.
  unfold newAssignedQuestions. repeat preserves_step.
  apply frame_on_uuid_draws.
Qed.

Lemma frame_createRandomizedQuestion question student sectionIndex partIndex
    sectionSkin rand :
  preserves frame
    (createRandomizedQuestion exam options question student sectionIndex
       partIndex sectionSkin rand).
Proof.
  unfold createRandomizedQuestion. repeat preserves_step.
  apply frame_newAssignedQuestions.
Qed.

Lemma frame_newAssignedSections section student sectionIndex rand skins :
  preserves frame
    (newAssignedSections exam options section student sectionIndex rand skins).
Proof.
  unfold newAssignedSections. repeat preserves_step.
  - apply frame_on_uuid_draws.
  - apply frame_createRandomizedQuestion.
Qed.

Lemma frame_createRandomizedSection section student sectionIndex rand skinRand :
  preserves frame
    (createRandomizedSection exam options section student sectionIndex rand
       skinRand).
Proof.
  unfold createRandomizedSection. repeat preserves_step.
  apply frame_newAssignedSections.
Qed.

Lemma frame_trackSection s : preserves frame (trackSection s).
Proof.
  intros st r st' Hr. inversion Hr; subst. repeat split; cbn; eauto.
Qed.

Lemma frame_trackQuestion q : preserves frame (trackQuestion q).
Proof.
  intros st r st' Hr. inversion Hr; subst. repeat split; cbn; eauto.
Qed.

Lemma frame_set_sectionStats st id (stats : SectionStats) :
  (forall old, sectionStatsMap st !! id = Some old ->
               stats_section stats = stats_section old) ->
  frame st (set_sectionStatsMap (<[id := stats]> (sectionStatsMap st)) st).
Proof.
  intros Hold. split; [done|]. split; cbn; [|eauto].
  intros id0 stats0 Hl. destruct (decide (id = id0)) as [->|Hne].
  - exists stats. rewrite lookup_insert_eq. split; [done|]. by apply Hold.
  - exists stats0. by rewrite lookup_insert_ne.
Qed.

Lemma frame_set_questionStats st id (stats : QuestionStats) :
  (forall old, questionStatsMap st !! id = Some old ->
               stats_question stats = stats_question old) ->
  frame st (set_questionStatsMap (<[id := stats]> (questionStatsMap st)) st).
Proof.
  intros Hold. split; [done|]. split; cbn; [eauto|].
  intros id0 stats0 Hl. destruct (decide (id = id0)) as [->|Hne].
  - exists stats. rewrite lookup_insert_eq. split; [done|]. by apply Hold.
  - exists stats0. by rewrite lookup_insert_ne.
Qed.

Lemma frame_checkSection s : preserves frame (checkSection s).
Proof.
  intros st r st'. unfold checkSection, bind, get, modify.
  destruct (read_property_cases (sectionStatsMap st) (section_id s))
    as [(stats & Hl & ->)|[(Hl & Hin & ->)|(Hl & Hin & ->)]].
  - set (st1 := set_sectionStatsMap _ st).
    assert (frame st st1) as Hf.
    { apply frame_set_sectionStats. intros old Hold. cbn. congruence. }
    destruct (_ =? 0)%N.
    + intros Hr. inversion Hr; subst. exact Hf.
    + intros Hr. apply (preserves_assert frame) in Hr.
      by transitivity st1.
  - intros Hr. inversion Hr; subst. reflexivity.
  - intros Hr. inversion Hr; subst. rewrite assign_property_insert by done.
    apply frame_set_sectionStats. intros old Hold. congruence.
Qed.

Lemma frame_checkQuestion q : preserves frame (checkQuestion q).
Proof.
  intros st r st'. unfold checkQuestion, bind, get, modify.
  destruct (read_property_cases (questionStatsMap st) (question_id q))
    as [(stats & Hl & ->)|[(Hl & Hin & ->)|(Hl & Hin & ->)]].
  - set (st1 := set_questionStatsMap _ st).
    assert (frame st st1) as Hf.
    { apply frame_set_questionStats. intros old Hold. cbn. congruence. }
    destruct (_ =? 0)%N.
    + intros Hr. inversion Hr; subst. exact Hf.
    + intros Hr. apply (preserves_assert frame) in Hr.
      by transitivity st1.
  - intros Hr. inversion Hr; subst. reflexivity.
  - intros Hr. inversion Hr; subst. rewrite assign_property_insert by done.
    apply frame_set_questionStats. intros old Hold. congruence.
Qed.

Lemma frame_checkExam ae : preserves frame (checkExam ae).
Proof.
  unfold checkExam. repeat preserves_step.
  - apply frame_trackSection.
  - apply frame_checkSection.
  - apply frame_trackQuestion.
  - apply frame_checkQuestion.
Qed.

Lemma frame_randomizedExam student rand :
  preserves frame (randomizedExam exam options student rand).
Proof.
  unfold randomizedExam. repeat preserves_step.
  - apply frame_on_uuid_draws.
  - apply frame_createRandomizedSection.
Qed.

Lemma frame_createRandomizedExam student rand :
  preserves frame (createRandomizedExam exam options student rand).
Proof.
  unfold createRandomizedExam. repeat preserves_step.
  - apply frame_randomizedExam.
  - apply frame_checkExam.
Qed.

End GeneratorFrame.

(** ** Assigning exams (claims C1 and C3) *)

Lemma forEach_app {St A} (f : A -> M St unit) (l1 l2 : list A) st :
  forEach f (l1 ++ l2) st
  = match forEach f l1 st with
    | (Ok _, st1) => forEach f l2 st1
    | (Err e, st1) => (Err e, st1)
    end.
Proof.
  revert st. induction l1 as [|x l1 IH]; intros st; cbn [forEach app].
  - reflexivity.
  - unfold bind. destruct (f x st) as [[u|e] st1]; [apply IH|done].
Qed.

Section AssignExams.
Context `{JsNumber} `{Opaque} `{!Collaborators} `{UuidPackage}.
Variable exam : Exam.
Variable options : ExamGeneratorOptions.

Lemma createStudentUuid_plain student id :
  uuid_strategy options = plain ->
  createStudentUuid options student id = ret (uniqname student +:+ "-" +:+ id).
Proof. unfold createStudentUuid. by intros ->. Qed.

Lemma post_on_uuid_draws {A} (m : M nat A) (Q : A -> Prop) :
  post m Q -> post (on_uuid_draws m) Q.
Proof.
  intros Hm st a st'. unfold on_uuid_draws.
  destruct (m (uuid_draws st)) as [r d] eqn:Hd. intros Hr.
  inversion Hr; subst. exact (Hm _ _ _ Hd).
Qed.

Lemma post_randomizedExam (Qu : string -> Prop)
    (Qs : AssignedSection -> Prop) student rand :
  post (createStudentUuid options student (exam_id exam)) Qu ->
  (forall s i,
     post (createRandomizedSection exam options s student i None None)
          (Forall Qs)) ->
  post (randomizedExam exam options student rand)
       (fun ae => Qu (ae_uuid ae) /\ ae_student ae = student
                  /\ ae_exam ae = exam
                  /\ Forall Qs (ae_assignedSections ae)).
Proof.
  intros Hu Hs. unfold randomizedExam.
  eapply post_bind; [apply post_on_uuid_draws, Hu|]. intros uuid Huuid.
  eapply post_bind; [apply post_true|]. intros sections _.
  eapply post_bind; [apply post_flatMapM_idx, Hs|]. intros assigned Ha.
  apply post_ret. cbn. done.
Qed.

Lemma createRandomizedExam_Ok_inv student rand st ae st' :
  createRandomizedExam exam options student rand st = (Ok ae, st') ->
  exists st1,
    randomizedExam exam options student
      (default (default_section_choice_rand exam options student) rand) st
    = (Ok ae, st1)
    /\ checkExam ae st1 = (Ok tt, st').
Proof.
  unfold createRandomizedExam. intros Hr.
  apply bind_Ok_inv in Hr as (ae' & st1 & Hb & Hr).
  apply bind_Ok_inv in Hr as ([] & st2 & Hc & Hr).
  inversion Hr; subst. eauto.
Qed.

Lemma post_createRandomizedExam (Qu : string -> Prop)
    (Qs : AssignedSection -> Prop) student rand :
  post (createStudentUuid options student (exam_id exam)) Qu ->
  (forall s i,
     post (createRandomizedSection exam options s student i None None)
          (Forall Qs)) ->
  post (createRandomizedExam exam options student rand)
       (fun ae => Qu (ae_uuid ae) /\ ae_student ae = student
                  /\ ae_exam ae = exam
                  /\ Forall Qs (ae_assignedSections ae)).
Proof.
  intros Hu Hs st ae st' Hr.
  apply createRandomizedExam_Ok_inv in Hr as (st1 & Hb & _).
  exact (post_randomizedExam Qu Qs _ _ Hu Hs _ _ _ Hb).
Qed.

Lemma createRandomizedExam_student student rand st ae st' :
  createRandomizedExam exam options student rand st = (Ok ae, st') ->
  ae_student ae = student.
Proof.
  intros Hr.
  eapply (post_createRandomizedExam (fun _ => True) (fun _ => True)) in Hr.
  - tauto.
  - apply post_true.
  - intros s i. eapply post_weaken; [apply post_true|].
    intros l _. apply Forall_forall. done.
Qed.

(** The two ways [assignExam] ends once the exam is built. *)
Lemma assignExam_cases student st r st' :
  assignExam exam options student st = (r, st') ->
  (exists e, createRandomizedExam exam options student None st = (Err e, st')
             /\ r = Err e)
  \/ (exists ae st1 first,
        createRandomizedExam exam options student None st = (Ok ae, st1)
        /\ st' = pushed student ae st1
        /\ head (assignedExams st ++ [ae]) = Some first
        /\ r = if strict_eq (ae_pointsPossible ae) (ae_pointsPossible first)
               then Ok ae
               else Err (AssertionFailed (msg_inconsistent_points first ae))).
Proof.
  unfold assignExam. intros Hr.
  apply bind_inv in Hr as [(e & He & ->)|(ae & st1 & Hae & Hr)]; [left; eauto|].
  right. exists ae, st1.
  destruct (frame_createRandomizedExam _ _ _ _ _ _ _ Hae) as (Hexams & _).
  unfold bind, modify, get in Hr. cbn in Hr. rewrite Hexams in Hr.
  destruct (assignedExams st) as [|first0 exams]; cbn in Hr.
  - exists ae. unfold bind in Hr.
    destruct (strict_eq _ _); cbn in Hr; inversion Hr; subst; done.
  - exists first0. unfold bind in Hr.
    destruct (strict_eq _ _); cbn in Hr; inversion Hr; subst; done.
Qed.

Lemma assignedExams_pushed student ae st :
  assignedExams (pushed student ae st) = assignedExams st ++ [ae].
Proof. reflexivity. Qed.

Lemma points_consistent_snoc exams ae first :
  points_consistent exams ->
  head (exams ++ [ae]) = Some first ->
  strict_eq (ae_pointsPossible ae) (ae_pointsPossible first) = true ->
  points_consistent (exams ++ [ae]).
Proof.
  intros Hc Hfirst Heq first' Hfirst'.
  assert (first' = first) as -> by congruence.
  apply Forall_app. split; [|by repeat constructor].
  destruct exams as [|x exams]; [constructor|].
  apply Hc. exact Hfirst.
Qed.

(** C1. A run of [assignExams] that returns leaves every assigned exam with
    the points of the first assigned exam, one exam per student of the
    roster, in order; and when the exam built for a student does not have
    the points of the first assigned exam, the run throws the assertion of
    [assignExam] at that student. *)
Theorem assignExams_points_consistent students st r st' :
  assignExams exam options students st = (r, st') ->
  points_consistent (assignedExams st) ->
  (r = Ok tt ->
   points_consistent (assignedExams st')
   /\ map ae_student (assignedExams st')
      = map ae_student (assignedExams st) ++ students)
  /\ (forall done student rest st_k ae st1 first,
        students = done ++ student :: rest ->
        assignExams exam options done st = (Ok tt, st_k) ->
        createRandomizedExam exam options student None st_k = (Ok ae, st1) ->
        head (assignedExams st_k ++ [ae]) = Some first ->
        strict_eq (ae_pointsPossible ae) (ae_pointsPossible first) = false ->
        r = Err (AssertionFailed (msg_inconsistent_points first ae))
        /\ st' = pushed student ae st1).
Proof.
  intros Hrun Hc. split.
  - revert st r st' Hrun Hc.
    induction students as [|s students IH]; intros st r st' Hrun Hc Hr.
    + cbn in Hrun. inversion Hrun; subst. by rewrite app_nil_r.
    + unfold assignExams in Hrun. cbn [forEach] in Hrun.
      apply bind_inv in Hrun as [(e & _ & ->)|([] & st2 & Hs & Hrest)];
        [discriminate|].
      apply bind_inv in Hs as [(e & _ & Hn)|(ae' & st2' & Hs & Hret)];
        [discriminate|].
      inversion Hret; subst st2'. clear Hret.
      apply assignExam_cases in Hs
        as [(e & _ & Hn)|(ae & st1 & first & Hae & -> & Hfirst & Hres)];
        [discriminate|].
      destruct (strict_eq _ _) eqn:Heq; [|discriminate].
      destruct (frame_createRandomizedExam _ _ _ _ _ _ _ Hae) as (Hexams & _).
      destruct (IH (pushed s ae st1) r st' Hrest) as (Hc' & Hmap); [|done|].
      { rewrite assignedExams_pushed, Hexams.
        by apply (points_consistent_snoc _ _ first). }
      split; [done|]. rewrite Hmap, assignedExams_pushed, Hexams.
      rewrite map_app. cbn [map].
      rewrite (createRandomizedExam_student _ _ _ _ _ Hae).
      by rewrite <- app_assoc.
  - intros done student rest st_k ae st1 first -> Hdone Hae Hfirst Hne.
    unfold assignExams in *. rewrite forEach_app, Hdone in Hrun.
    cbn [forEach] in Hrun.
    destruct (assignExam exam options student st_k) as [r1 st2] eqn:Hs.
    unfold bind in Hrun. rewrite Hs in Hrun.
    apply assignExam_cases in Hs
      as [(e & He & _)|(ae2 & st1' & first2 & Hae2 & -> & Hfirst2 & ->)];
      [congruence|].
    assert (ae2 = ae /\ st1' = st1) as [-> ->] by (split; congruence).
    assert (first2 = first) as -> by congruence.
    rewrite Hne in Hrun. inversion Hrun; subst. done.
Qed.

End AssignExams.

Section PlainUuids.
Context `{JsNumber} `{Opaque} `{!Collaborators} `{UuidPackage}.
Variable exam : Exam.
Variable options : ExamGeneratorOptions.

Lemma assignExams_cons s students st :
  assignExams exam options (s :: students) st
  = match assignExam exam options s st with
    | (Ok _, st1) => assignExams exam options students st1
    | (Err e, st1) => (Err e, st1)
    end.
Proof.
  unfold assignExams. cbn [forEach]. unfold bind, ret.
  by destruct (assignExam exam options s st) as [[ae|e] st1].
Qed.

(** Any property of the exams that [createRandomizedExam] builds holds of
    all assigned exams, however the run ends. *)
Lemma assignExams_Forall (P : AssignedExam -> Prop) :
  (forall student, post (createRandomizedExam exam options student None) P) ->
  forall students st r st',
    assignExams exam options students st = (r, st') ->
    Forall P (assignedExams st) -> Forall P (assignedExams st').
Proof.
  intros HP. induction students as [|s students IH]; intros st r st' Hrun Hst.
  - cbn in Hrun. by inversion Hrun; subst.
  - rewrite assignExams_cons in Hrun.
    destruct (assignExam exam options s st) as [r1 st1] eqn:Hs.
    assert (Forall P (assignedExams st1)) as Hst1.
    { apply assignExam_cases in Hs
        as [(e & He & _)|(ae & st0 & first & Hae & -> & _ & _)].
      - destruct (frame_createRandomizedExam _ _ _ _ _ _ _ He) as (-> & _).
        exact Hst.
      - destruct (frame_createRandomizedExam _ _ _ _ _ _ _ Hae) as (Hex & _).
        rewrite assignedExams_pushed, Hex. apply Forall_app. split; [done|].
        repeat constructor. exact (HP _ _ _ _ Hae). }
    destruct r1 as [ae|e].
    + exact (IH _ _ _ Hrun Hst1).
    + by inversion Hrun; subst.
Qed.

(** C3. Under the [plain] strategy [createStudentUuid] returns
    [uniqname + "-" + id] and leaves the random source alone, whatever the
    state it is called in; the uuid of the exam built for a student is
    [uniqname + "-" + exam_id], and so is the uuid of every exam that a run
    of [assignExams] assigns. *)
Theorem plain_uuid_is_uniqname_dash_id :
  uuid_strategy options = plain ->
  (forall student id draws,
     createStudentUuid options student id draws
     = (Ok (uniqname student +:+ "-" +:+ id), draws))
  /\ (forall student rand st ae st',
        createRandomizedExam exam options student rand st = (Ok ae, st') ->
        ae_uuid ae = uniqname student +:+ "-" +:+ exam_id exam)
  /\ (forall students st r st',
        assignExams exam options students st = (r, st') ->
        Forall (fun ae => ae_uuid ae
                          = uniqname (ae_student ae) +:+ "-" +:+ exam_id exam)
               (assignedExams st) ->
        Forall (fun ae => ae_uuid ae
                          = uniqname (ae_student ae) +:+ "-" +:+ exam_id exam)
               (assignedExams st')).
Proof.
  intros Hplain.
  assert (forall student rand,
            post (createRandomizedExam exam options student rand)
                 (fun ae => ae_uuid ae
                            = uniqname student +:+ "-" +:+ exam_id exam
                            /\ ae_student ae = student)) as Hexam.
  { intros student rand.
    eapply post_weaken.
    - apply (post_createRandomizedExam exam options
               (fun u => u = uniqname student +:+ "-" +:+ exam_id exam)
               (fun _ => True)).
      + rewrite createStudentUuid_plain by done. by apply post_ret.
      + intros s i. eapply post_weaken; [apply post_true|].
        intros l _. by apply Forall_forall.
    - cbn. tauto. }
  split; [|split].
  - intros student id draws. by rewrite createStudentUuid_plain.
  - intros student rand st ae st' Hae. by destruct (Hexam _ _ _ _ _ Hae).
  - apply assignExams_Forall. intros student st ae st' Hae.
    destruct (Hexam _ _ _ _ _ Hae) as [-> ->]. done.
Qed.

End PlainUuids.

(** ** The consistency checker (claim C2) *)

Section SpecDrift.
Context `{JsNumber} `{Opaque} `{!Collaborators} `{UuidPackage}.
Variable exam : Exam.
Variable options : ExamGeneratorOptions.

Lemma section_covered_frame st st' s :
  section_covered st s -> frame st st' -> section_covered st' s.
Proof.
  intros [Hin|(stats & Hl & Hspec)] (_ & Hs & _); [by left|].
  destruct (Hs _ _ Hl) as (stats' & Hl' & E). right. exists stats'.
  split; [done|congruence].
Qed.

Lemma question_covered_frame st st' q :
  question_covered st q -> frame st st' -> question_covered st' q.
Proof.
  intros [Hin|(stats & Hl & Hspec)] (_ & _ & Hq); [by left|].
  destruct (Hq _ _ Hl) as (stats' & Hl' & E). right. exists stats'.
  split; [done|congruence].
Qed.

Lemma exam_covered_frame st st' ae :
  exam_covered st ae -> frame st st' -> exam_covered st' ae.
Proof.
  intros [Hs Hq] Hf. split.
  - eapply Forall_impl; [exact Hs|]. intros s Hc.
    by apply (section_covered_frame st).
  - eapply Forall_impl; [exact Hq|]. intros q Hc.
    by apply (question_covered_frame st).
Qed.

Lemma succ_count_truthy (n : N) : (n + 1 =? 0)%N = false.
Proof. apply N.eqb_neq. lia. Qed.

Lemma checkSection_Ok s st u st' :
  checkSection s st = (Ok u, st') -> section_covered st' s.
Proof.
  unfold checkSection, bind, get, modify.
  destruct (read_property_cases (sectionStatsMap st) (section_id s))
    as [(stats & Hl & ->)|[(Hl & Hin & ->)|(Hl & Hin & ->)]].
  - rewrite succ_count_truthy. intros Ha.
    apply assert_Ok_inv in Ha as [Heq ->]. apply Nat.eqb_eq in Heq.
    right. eexists. cbn. rewrite lookup_insert_eq. split; [done|]. cbn. done.
  - intros _. by left.
  - intros Hr. inversion Hr; subst. right. eexists. cbn.
    rewrite assign_property_insert by done.
    rewrite lookup_insert_eq. split; done.
Qed.

Lemma checkQuestion_Ok q st u st' :
  checkQuestion q st = (Ok u, st') -> question_covered st' q.
Proof.
  unfold checkQuestion, bind, get, modify.
  destruct (read_property_cases (questionStatsMap st) (question_id q))
    as [(stats & Hl & ->)|[(Hl & Hin & ->)|(Hl & Hin & ->)]].
  - rewrite succ_count_truthy. intros Ha.
    apply assert_Ok_inv in Ha as [Heq ->]. apply Nat.eqb_eq in Heq.
    right. eexists. cbn. rewrite lookup_insert_eq. split; [done|]. cbn. done.
  - intros _. by left.
  - intros Hr. inversion Hr; subst. right. eexists. cbn.
    rewrite assign_property_insert by done.
    rewrite lookup_insert_eq. split; done.
Qed.

Lemma forEach_checkSection_Ok l st u st' :
  forEach checkSection l st = (Ok u, st') -> Forall (section_covered st') l.
Proof.
  revert st. induction l as [|s l IH]; intros st Hr; [constructor|].
  cbn [forEach] in Hr. apply bind_Ok_inv in Hr as (u1 & st1 & Hs & Hr).
  constructor; [|by apply (IH st1)].
  apply (section_covered_frame st1); [by apply (checkSection_Ok _ st u1)|].
  eapply (preserves_forEach frame); [apply frame_checkSection|exact Hr].
Qed.

Lemma forEach_checkQuestion_Ok l st u st' :
  forEach checkQuestion l st = (Ok u, st') -> Forall (question_covered st') l.
Proof.
  revert st. induction l as [|q l IH]; intros st Hr; [constructor|].
  cbn [forEach] in Hr. apply bind_Ok_inv in Hr as (u1 & st1 & Hs & Hr).
  constructor; [|by apply (IH st1)].
  apply (question_covered_frame st1); [by apply (checkQuestion_Ok _ st u1)|].
  eapply (preserves_forEach frame); [apply frame_checkQuestion|exact Hr].
Qed.

Lemma checkExam_Ok ae st u st' :
  checkExam ae st = (Ok u, st') -> exam_covered st' ae.
Proof.
  unfold checkExam. intros Hr.
  apply bind_Ok_inv in Hr as (u1 & st1 & _ & Hr).
  apply bind_Ok_inv in Hr as (u2 & st2 & Hs & Hr).
  apply bind_Ok_inv in Hr as (u3 & st3 & Ht & Hr).
  split.
  - apply forEach_checkSection_Ok in Hs.
    eapply Forall_impl; [exact Hs|]. intros s Hc.
    apply (section_covered_frame st2); [done|]. transitivity st3.
    + eapply (preserves_forEach frame); [apply frame_trackQuestion|exact Ht].
    + eapply (preserves_forEach frame); [apply frame_checkQuestion|exact Hr].
  - by apply forEach_checkQuestion_Ok in Hr.
Qed.

(** The only errors of the checker are its two drift errors. *)
Lemma checkSection_Err s st e st' :
  checkSection s st = (Err e, st') ->
  e = AssertionFailed (msg_section_drift (section_id s)).
Proof.
  unfold checkSection, bind, get, modify.
  destruct (read_property_cases (sectionStatsMap st) (section_id s))
    as [(stats & Hl & ->)|[(Hl & Hin & ->)|(Hl & Hin & ->)]]; [|done|done].
  rewrite succ_count_truthy. unfold assert.
  destruct (_ =? _)%nat; cbn; intros Hr; by inversion Hr.
Qed.

Lemma checkQuestion_Err q st e st' :
  checkQuestion q st = (Err e, st') ->
  e = AssertionFailed (msg_question_drift (question_id q)).
Proof.
  unfold checkQuestion, bind, get, modify.
  destruct (read_property_cases (questionStatsMap st) (question_id q))
    as [(stats & Hl & ->)|[(Hl & Hin & ->)|(Hl & Hin & ->)]]; [|done|done].
  rewrite succ_count_truthy. unfold assert.
  destruct (_ =? _)%nat; cbn; intros Hr; by inversion Hr.
Qed.

Lemma forEach_Err {St A} (f : A -> M St unit) (P : error -> Prop) l st e st' :
  (forall x st e st', f x st = (Err e, st') -> P e) ->
  forEach f l st = (Err e, st') -> P e.
Proof.
  intros Hf. revert st. induction l as [|x l IH]; intros st Hr; [done|].
  cbn [forEach] in Hr.
  apply bind_inv in Hr as [(e' & He & E)|(u & st1 & _ & Hr)].
  - inversion E; subst. by eapply Hf.
  - by eapply IH.
Qed.

Lemma checkExam_Err ae st e st' :
  checkExam ae st = (Err e, st') -> is_drift_error e.
Proof.
  unfold checkExam. intros Hr.
  apply bind_inv in Hr as [(e' & He & E)|(u1 & st1 & _ & Hr)].
  { inversion E; subst. eapply forEach_Err in He; [exact He|]. done. }
  apply bind_inv in Hr as [(e' & He & E)|(u2 & st2 & _ & Hr)].
  { inversion E; subst. eapply (forEach_Err _ is_drift_error) in He; [done|].
    intros s st0 e0 st0' Hx. apply checkSection_Err in Hx as ->.
    exists (section_id s). by left. }
  apply bind_inv in Hr as [(e' & He & E)|(u3 & st3 & _ & Hr)].
  { inversion E; subst. eapply forEach_Err in He; [exact He|]. done. }
  eapply (forEach_Err _ is_drift_error) in Hr; [done|].
  intros q st0 e0 st0' Hx. apply checkQuestion_Err in Hx as ->.
  exists (question_id q). by right.
Qed.

Lemma all_covered_consistent st :
  all_covered st -> spec_consistent_checked (assignedExams st).
Proof.
  intros Hall ae1 ae2 Hin_a Hin_b. unfold all_covered in Hall.
  rewrite Forall_forall in Hall.
  destruct (Hall _ Hin_a) as [Hs1 Hq1]. destruct (Hall _ Hin_b) as [Hs2 Hq2].
  rewrite Forall_forall in Hs1. rewrite Forall_forall in Hs2.
  rewrite Forall_forall in Hq1. rewrite Forall_forall in Hq2. split.
  - intros s1 s2 Hin1 Hin2 Hid Hchecked.
    destruct (Hs1 _ Hin1) as [?|(stats1 & Hl1 & E1)]; [congruence|].
    destruct (Hs2 _ Hin2) as [?|(stats2 & Hl2 & E2)]; [congruence|].
    rewrite Hid in Hl1. congruence.
  - intros q1 q2 Hin1 Hin2 Hid Hchecked.
    destruct (Hq1 _ Hin1) as [?|(stats1 & Hl1 & E1)]; [congruence|].
    destruct (Hq2 _ Hin2) as [?|(stats2 & Hl2 & E2)]; [congruence|].
    rewrite Hid in Hl1. congruence.
Qed.

Lemma all_covered_frame st st' :
  all_covered st -> frame st st' -> all_covered st'.
Proof.
  intros Hall Hf. unfold all_covered. destruct Hf as (Hexams & Hreps).
  rewrite Hexams. eapply Forall_impl; [exact Hall|].
  intros ae Hc. apply (exam_covered_frame st); [done|]. by split.
Qed.

Lemma assignExam_all_covered student st r st' :
  assignExam exam options student st = (r, st') ->
  all_covered st -> all_covered st'.
Proof.
  intros Hr Hall.
  apply assignExam_cases in Hr
    as [(e & He & _)|(ae & st1 & first & Hae & -> & _ & _)].
  - apply (all_covered_frame st); [done|].
    exact (frame_createRandomizedExam _ _ _ _ _ _ _ He).
  - pose proof (frame_createRandomizedExam _ _ _ _ _ _ _ Hae) as Hf.
    apply createRandomizedExam_Ok_inv in Hae as (st0 & _ & Hcheck).
    apply checkExam_Ok in Hcheck.
    unfold all_covered. rewrite assignedExams_pushed.
    apply Forall_app. split.
    + exact (all_covered_frame _ _ Hall Hf).
    + constructor; [exact Hcheck|constructor].
Qed.

Lemma assignExams_all_covered students st r st' :
  assignExams exam options students st = (r, st') ->
  all_covered st -> all_covered st'.
Proof.
  revert st. induction students as [|s students IH]; intros st Hrun Hall.
  - cbn in Hrun. by inversion Hrun; subst.
  - rewrite assignExams_cons in Hrun.
    destruct (assignExam exam options s st) as [r1 st1] eqn:Hs.
    apply assignExam_all_covered in Hs; [|done].
    destruct r1 as [ae|e]; [by apply (IH st1)|by inversion Hrun; subst].
Qed.

(** X24. Among the ids that name no property of [Object.prototype], the
    checker rejects every drift: the exams that a run of [assignExams] has
    assigned, from a state whose tables cover the exams assigned so far,
    never hold two sections with one such [section_id], or two questions
    with one such [question_id], that come from different specification
    objects; and when the exam built for a student would break this, the
    run throws a specification-drift error of [checkExam] at that student,
    whose exam is not assigned. *)
Theorem checkExam_rejects_drift_of_own_ids students st r st' :
  assignExams exam options students st = (r, st') ->
  all_covered st ->
  spec_consistent_checked (assignedExams st')
  /\ (forall done student rest st_k ae st1,
        students = done ++ student :: rest ->
        assignExams exam options done st = (Ok tt, st_k) ->
        randomizedExam exam options student
          (default_section_choice_rand exam options student) st_k
        = (Ok ae, st1) ->
        ~ spec_consistent_checked (assignedExams st_k ++ [ae]) ->
        exists e, r = Err e /\ is_drift_error e
                  /\ assignedExams st' = assignedExams st_k).
Proof.
  intros Hrun Hall. split.
  { apply all_covered_consistent. by apply (assignExams_all_covered students st r). }
  intros done student rest st_k ae st1 -> Hdone Hbuild Hdrift.
  pose proof (assignExams_all_covered _ _ _ _ Hdone Hall) as Hall_k.
  pose proof (frame_randomizedExam _ _ _ _ _ _ _ Hbuild) as Hf1.
  destruct (checkExam ae st1) as [[u|e] st2] eqn:Hcheck.
  - exfalso. apply Hdrift.
    pose proof (frame_checkExam _ _ _ _ Hcheck) as Hf2.
    assert (frame st_k st2) as Hf by (by transitivity st1).
    apply checkExam_Ok in Hcheck.
    pose proof (all_covered_frame _ _ Hall_k Hf) as Hall2.
    destruct Hf as (Hexams & _). rewrite <- Hexams.
    apply (all_covered_consistent (pushed student ae st2)).
    unfold all_covered. rewrite assignedExams_pushed. apply Forall_app.
    split; [exact Hall2|constructor; [exact Hcheck|constructor]].
  - assert (assignExam exam options student st_k = (Err e, st2)) as Hs.
    { unfold assignExam. apply bind_Err.
      unfold createRandomizedExam. cbn [default].
      rewrite (bind_Ok _ _ _ _ _ Hbuild). by apply bind_Err. }
    unfold assignExams in Hrun, Hdone. rewrite forEach_app, Hdone in Hrun.
    fold (assignExams exam options (student :: rest)) in Hrun.
    rewrite assignExams_cons, Hs in Hrun. inversion Hrun; subst.
    exists e. split; [done|]. split; [by apply (checkExam_Err ae st1 e st')|].
    pose proof (frame_checkExam _ _ _ _ Hcheck) as (Hex2 & _).
    destruct Hf1 as (Hex1 & _). congruence.
Qed.

End SpecDrift.

(** ** Skins per slot (claim C8) *)

Lemma with_local_zoom_snd {St T A} (m : M T A) (t0 : T) (s : St) r t' :
  m t0 = (r, t') -> with_local t0 (zoom_snd m) s = (r, s).
Proof. unfold with_local, zoom_snd. cbn. by intros ->. Qed.

Section SkinsPerSlot.
Context `{JsNumber} `{Opaque} `{!Collaborators} `{UuidPackage}.
Variable exam : Exam.
Variable options : ExamGeneratorOptions.

Lemma compositeSkins_length sectionSkin skins composites :
  compositeSkins sectionSkin skins = Ok composites ->
  length composites = length skins.
Proof.
  revert composites. induction skins as [|x skins IH]; intros composites; cbn.
  - intros Hc. by inversion Hc.
  - destruct (createCompositeSkin sectionSkin x) as [c|e]; cbn; [|done].
    destruct (compositeSkins sectionSkin skins) as [cs|e]; cbn; [|done].
    intros Hc. inversion Hc; subst. cbn. f_equal. by apply IH.
Qed.

Lemma one_skin_or_duplicates (n : nat) :
  (allow_duplicates options = true \/ n = 1) ->
  allow_duplicates options || (n =? 1)%nat = true.
Proof.
  intros [->| ->]; [done|]. by rewrite orb_true_r.
Qed.

Lemma many_skins_no_duplicates (n : nat) :
  allow_duplicates options = false -> n <> 1 ->
  allow_duplicates options || (n =? 1)%nat = false.
Proof. intros -> Hn. cbn. by apply Nat.eqb_neq. Qed.

(** C8. Once the skin chooser of a section has yielded its skins,
    [createRandomizedSection] throws its assertion, before it builds
    anything, when duplicates are not allowed and the skins are not exactly
    one; when duplicates are allowed or there is exactly one skin, the
    assertion passes and the function goes on to build the assigned
    sections. The same holds of [createRandomizedQuestion], whose assertion
    counts the composite skins, as many as the chooser of the question
    yielded. *)
Theorem skin_assertions_fire_iff_many_without_duplicates :
  (forall section student sectionIndex rand skinRand st skins rand',
     choose_skins exam (section_skin section) student
       (default (default_section_skin_rand exam options student section)
                skinRand)
     = (Ok skins, rand') ->
     (allow_duplicates options = false -> length skins <> 1 ->
      createRandomizedSection exam options section student sectionIndex
        rand skinRand st
      = (Err (AssertionFailed msg_section_skins), st))
     /\ (allow_duplicates options = true \/ length skins = 1 ->
         createRandomizedSection exam options section student sectionIndex
           rand skinRand st
         = newAssignedSections exam options section student sectionIndex
             (default (default_question_choice_rand exam options student
                         section) rand)
             skins st))
  /\ (forall question student sectionIndex partIndex sectionSkin rand st
             chosen rand' composites,
        choose_skins exam (question_skin question) student
          (default (default_question_skin_rand exam options student question)
                   rand)
        = (Ok chosen, rand') ->
        compositeSkins sectionSkin chosen = Ok composites ->
        (allow_duplicates options = false -> length chosen <> 1 ->
         createRandomizedQuestion exam options question student sectionIndex
           partIndex sectionSkin rand st
         = (Err (AssertionFailed msg_question_skins), st))
        /\ (allow_duplicates options = true \/ length chosen = 1 ->
            createRandomizedQuestion exam options question student
              sectionIndex partIndex sectionSkin rand st
            = newAssignedQuestions exam options question student sectionIndex
                partIndex composites st)).
Proof.
  split.
  - intros section student sectionIndex rand skinRand st skins rand' Hchoose.
    unfold createRandomizedSection.
    rewrite (bind_Ok _ _ _ _ _ (with_local_zoom_snd _ _ st _ _ Hchoose)).
    split.
    + intros Hdup Hlen. rewrite many_skins_no_duplicates by done.
      reflexivity.
    + intros Hone. rewrite one_skin_or_duplicates by done. reflexivity.
  - intros question student sectionIndex partIndex sectionSkin rand st
      chosen rand' composites Hchoose Hcomp.
    pose proof (compositeSkins_length _ _ _ Hcomp) as Hlen.
    unfold createRandomizedQuestion.
    rewrite (bind_Ok _ _ _ _ _ (with_local_zoom_snd _ _ st _ _ Hchoose)).
    rewrite Hcomp.
    rewrite (bind_Ok (liftR (Ok composites)) _ st composites st eq_refl).
    rewrite Hlen. split.
    + intros Hdup Hne. rewrite many_skins_no_duplicates by done.
      reflexivity.
    + intros Hone. rewrite one_skin_or_duplicates by done. reflexivity.
Qed.

End SkinsPerSlot.

(** ** Rosters (claim C9) *)

Section Rosters.
Context `{RosterFiles}.

Lemma checkRosterRow_Ok row :
  (exists u n, row_uniqname row = Some u /\ row_name row = Some n
               /\ u <> "" /\ n <> "") ->
  checkRosterRow row tt = (Ok tt, tt).
Proof.
  intros (u & n & Hu & Hn & Hune & Hnne). unfold checkRosterRow.
  rewrite Hu, Hn. cbn [not_empty_string].
  apply String.eqb_neq in Hune, Hnne. rewrite Hune, Hnne. reflexivity.
Qed.

Lemma checkRosterRow_Err row :
  row_uniqname row = Some "" \/ row_name row = Some "" ->
  exists msg, checkRosterRow row tt = (Err (AssertionFailed msg), tt)
              /\ (msg = msg_empty_uniqname \/ msg = msg_empty_name).
Proof.
  intros Hrow. unfold checkRosterRow.
  destruct (not_empty_string (row_uniqname row)) eqn:Hu.
  - destruct Hrow as [Hrow|Hrow]; [rewrite Hrow in Hu; discriminate|].
    rewrite Hrow. cbn. eauto.
  - cbn. eauto.
Qed.

Lemma checkRosterRow_cases row :
  checkRosterRow row tt = (Ok tt, tt)
  \/ exists msg, checkRosterRow row tt = (Err (AssertionFailed msg), tt)
                 /\ (msg = msg_empty_uniqname \/ msg = msg_empty_name).
Proof.
  unfold checkRosterRow.
  destruct (not_empty_string (row_uniqname row)),
           (not_empty_string (row_name row)); cbn; eauto.
Qed.

Lemma forEach_checkRosterRow_Err rows :
  Exists (fun row => row_uniqname row = Some "" \/ row_name row = Some "")
         rows ->
  exists msg, forEach checkRosterRow rows tt = (Err (AssertionFailed msg), tt)
              /\ (msg = msg_empty_uniqname \/ msg = msg_empty_name).
Proof.
  induction 1 as [row rows Hrow|row rows _ IH]; cbn [forEach].
  - destruct (checkRosterRow_Err row Hrow) as (msg & Hmsg & Hor).
    exists msg. by rewrite (bind_Err _ _ _ _ _ Hmsg).
  - destruct (checkRosterRow_cases row) as [Hok|(msg & Hmsg & Hor)].
    + rewrite (bind_Ok _ _ _ _ _ Hok). exact IH.
    + exists msg. by rewrite (bind_Err _ _ _ _ _ Hmsg).
Qed.

Lemma forEach_checkRosterRow_Ok rows :
  Forall (fun row => exists u n, row_uniqname row = Some u
                                 /\ row_name row = Some n
                                 /\ u <> "" /\ n <> "") rows ->
  forEach checkRosterRow rows tt = (Ok tt, tt).
Proof.
  induction 1 as [|row rows Hrow _ IH]; cbn [forEach]; [done|].
  rewrite (bind_Ok _ _ _ _ _ (checkRosterRow_Ok row Hrow)). exact IH.
Qed.

(** C9. [loadCSVRoster] throws when a parsed row has an empty uniqname or an
    empty name, and returns all the rows when every row has a uniqname and a
    name that are not empty. *)
Theorem loadCSVRoster_rejects_empty_fields filename text :
  readFileSync filename = Ok text ->
  (Exists (fun row => row_uniqname row = Some "" \/ row_name row = Some "")
          (Papa_parse_data text) ->
   exists msg, loadCSVRoster filename = Err (AssertionFailed msg)
               /\ (msg = msg_empty_uniqname \/ msg = msg_empty_name))
  /\ (Forall (fun row => exists u n, row_uniqname row = Some u
                                     /\ row_name row = Some n
                                     /\ u <> "" /\ n <> "")
             (Papa_parse_data text) ->
      loadCSVRoster filename = Ok (Papa_parse_data text)).
Proof.
  intros Hread. unfold loadCSVRoster. rewrite Hread. cbn [rbind]. split.
  - intros Hex.
    destruct (forEach_checkRosterRow_Err _ Hex) as (msg & -> & Hor).
    exists msg. done.
  - intros Hall. by rewrite (forEach_checkRosterRow_Ok _ Hall).
Qed.

End Rosters.

(** ** Distinct uuids under the plain strategy (claim C10) *)

Lemma string_length_app (s1 s2 : string) :
  String.length (s1 +:+ s2) = String.length s1 + String.length s2.
Proof. induction s1 as [|c s1 IH]; simpl; [done|]. f_equal. exact IH. Qed.

Lemma string_app_not_longer (s t : string) : s = s +:+ t -> t = "".
Proof.
  intros Heq. apply (f_equal String.length) in Heq.
  rewrite string_length_app in Heq. destruct t; [done|]. cbn in Heq. lia.
Qed.

Section DistinctUuids.
Context `{JsNumber} `{Opaque} `{!Collaborators} `{UuidPackage}.
Variable exam : Exam.
Variable options : ExamGeneratorOptions.
Hypothesis Hplain : uuid_strategy options = plain.

Lemma post_createStudentUuid_plain student id :
  post (on_uuid_draws (createStudentUuid options student id))
       (fun uuid => uuid = uniqname student +:+ "-" +:+ id).
Proof.
  apply post_on_uuid_draws. rewrite createStudentUuid_plain by done.
  by apply post_ret.
Qed.

Lemma post_createRandomizedQuestion_plain q student sectionIndex partIndex
    sectionSkin rand :
  post (createRandomizedQuestion exam options q student sectionIndex partIndex
          sectionSkin rand)
       (Forall (fun aq => aq_uuid aq = plain_question_uuid exam student aq)).
Proof.
  unfold createRandomizedQuestion.
  eapply post_bind; [apply post_true|]. intros chosen _.
  eapply post_bind; [apply post_true|]. intros skins _.
  eapply post_bind; [apply post_true|]. intros _ _.
  apply post_mapM. intros skin.
  eapply post_bind; [apply post_createStudentUuid_plain|].
  intros uuid ->. by apply post_ret.
Qed.

Lemma post_createRandomizedSection_plain s student sectionIndex rand skinRand :
  post (createRandomizedSection exam options s student sectionIndex rand
          skinRand)
       (Forall (fun a => as_uuid a = plain_section_uuid exam student a
                         /\ Forall (fun aq => aq_uuid aq
                                              = plain_question_uuid exam
                                                  student aq)
                                   (as_assignedQuestions a))).
Proof.
  unfold createRandomizedSection.
  eapply post_bind; [apply post_true|]. intros skins _.
  eapply post_bind; [apply post_true|]. intros _ _.
  unfold newAssignedSections. apply post_with_local, post_mapM. intros skin.
  eapply post_bind;
    [apply post_zoom_fst, post_createStudentUuid_plain|].
  intros uuid ->.
  eapply post_bind; [apply post_true|]. intros questions _.
  eapply post_bind.
  { apply post_zoom_fst, post_flatMapM_idx. intros q i.
    apply post_createRandomizedQuestion_plain. }
  intros assigned Hassigned. by apply post_ret.
Qed.

Lemma exam_uuid_not_component (u e infix id : string) :
  infix <> "" -> u +:+ "-" +:+ e <> u +:+ "-" +:+ e +:+ infix +:+ id.
Proof.
  intros Hinfix Heq. apply String.app_inj in Heq.
  apply (String.app_inj "-") in Heq.
  apply string_app_not_longer in Heq.
  destruct infix; [done|discriminate].
Qed.

Lemma section_uuid_not_question_uuid student (s : AssignedSection)
    (q : AssignedQuestion) :
  plain_section_uuid exam student s <> plain_question_uuid exam student q.
Proof.
  unfold plain_section_uuid, plain_question_uuid. intros Heq.
  apply String.app_inj in Heq. apply (String.app_inj "-") in Heq.
  apply String.app_inj in Heq. discriminate.
Qed.

Lemma NoDup_map_on {A B} (f g : A -> B) (h : B -> B) (l : list A) :
  (forall x y, h x = h y -> x = y) ->
  Forall (fun a => f a = h (g a)) l ->
  NoDup (map g l) -> NoDup (map f l).
Proof.
  intros Hinj Hf.
  assert (map f l = map h (map g l)) as ->.
  { induction Hf as [|a l Ha _ IH]; cbn; [done|]. by rewrite Ha, IH. }
  generalize (map g l). intros k Hk.
  induction Hk as [|b k Hb _ IH]; cbn; constructor; [|done].
  intros Hin. apply Hb. apply list_elem_of_In in Hin.
  apply in_map_iff in Hin as (b' & Hb' & Hin). apply Hinj in Hb'. subst b'.
  by apply list_elem_of_In.
Qed.

(** C10. Under the [plain] strategy, the exam built for a student has the
    uuid [uniqname-examid], each of its sections the uuid
    [uniqname-examid-s-sectionid] and each of its questions the uuid
    [uniqname-examid-q-questionid]; the uuid of a section is never the uuid
    of a question, whatever the ids; and when the section ids are pairwise
    distinct and the question ids are pairwise distinct, all these uuids
    are pairwise distinct. *)
Theorem plain_uuids_pairwise_distinct student rand st ae st' :
  createRandomizedExam exam options student rand st = (Ok ae, st') ->
  ae_uuid ae = uniqname student +:+ "-" +:+ exam_id exam
  /\ Forall (fun s => as_uuid s = plain_section_uuid exam student s)
            (ae_assignedSections ae)
  /\ Forall (fun q => aq_uuid q = plain_question_uuid exam student q)
            (assignedQuestions (ae_assignedSections ae))
  /\ (forall s q, s ∈ ae_assignedSections ae ->
                  q ∈ assignedQuestions (ae_assignedSections ae) ->
                  as_uuid s <> aq_uuid q)
  /\ (NoDup (map (fun s => section_id (as_section s))
                 (ae_assignedSections ae)) ->
      NoDup (map (fun q => question_id (aq_question q))
                 (assignedQuestions (ae_assignedSections ae))) ->
      NoDup (ae_uuid ae
             :: map as_uuid (ae_assignedSections ae)
             ++ map aq_uuid (assignedQuestions (ae_assignedSections ae)))).
Proof.
  intros Hae.
  eapply (post_createRandomizedExam exam options
            (fun u => u = uniqname student +:+ "-" +:+ exam_id exam)) in Hae
    as (Hu & _ & _ & Hs).
  2: { rewrite createStudentUuid_plain by done. by apply post_ret. }
  2: { intros s i. apply post_createRandomizedSection_plain. }
  assert (Forall (fun s => as_uuid s = plain_section_uuid exam student s)
                 (ae_assignedSections ae)) as Hsec.
  { eapply Forall_impl; [exact Hs|]. cbn. tauto. }
  assert (Forall (fun q => aq_uuid q = plain_question_uuid exam student q)
                 (assignedQuestions (ae_assignedSections ae))) as Hq.
  { unfold assignedQuestions. apply Forall_concat.
    apply Forall_forall. intros l Hl. apply list_elem_of_In in Hl.
    apply in_map_iff in Hl as (s & <- & Hin).
    rewrite Forall_forall in Hs. apply list_elem_of_In in Hin.
    by destruct (Hs _ Hin). }
  assert (forall s q, s ∈ ae_assignedSections ae ->
                      q ∈ assignedQuestions (ae_assignedSections ae) ->
                      as_uuid s <> aq_uuid q) as Hsq.
  { intros s q Hins Hinq.
    rewrite Forall_forall in Hsec. rewrite Forall_forall in Hq.
    rewrite (Hsec _ Hins), (Hq _ Hinq).
    apply section_uuid_not_question_uuid. }
  split; [done|]. split; [done|]. split; [done|]. split; [done|].
  intros Hsids Hqids. apply NoDup_cons. split.
  - rewrite Hu. intros Hin. apply elem_of_app in Hin as [Hin|Hin].
    + apply list_elem_of_In, in_map_iff in Hin as (s & Heq & Hin).
      apply list_elem_of_In in Hin.
      rewrite Forall_forall in Hsec. rewrite (Hsec _ Hin) in Heq.
      symmetry in Heq. revert Heq. by apply exam_uuid_not_component.
    + apply list_elem_of_In, in_map_iff in Hin as (q & Heq & Hin).
      apply list_elem_of_In in Hin.
      rewrite Forall_forall in Hq. rewrite (Hq _ Hin) in Heq.
      symmetry in Heq. revert Heq. by apply exam_uuid_not_component.
  - apply NoDup_app. split; [|split].
    + eapply (NoDup_map_on _ _
                (fun id => uniqname student +:+ "-" +:+ exam_id exam +:+ "-s-"
                           +:+ id)); [|exact Hsec|exact Hsids].
      intros x y Heq. do 4 apply String.app_inj in Heq. exact Heq.
    + intros u Hins Hinq.
      apply list_elem_of_In, in_map_iff in Hins as (s & <- & Hins).
      apply list_elem_of_In, in_map_iff in Hinq as (q & Heq & Hinq).
      apply list_elem_of_In in Hins, Hinq. by apply (Hsq s q).
    + eapply (NoDup_map_on _ _
                (fun id => uniqname student +:+ "-" +:+ exam_id exam +:+ "-q-"
                           +:+ id)); [|exact Hq|exact Hqids].
      intros x y Heq. do 4 apply String.app_inj in Heq. exact Heq.
Qed.

End DistinctUuids.

(** ** Saving and loading a specification (claim C5) *)

Lemma value_ind_nested (P : value -> Prop) :
  P VUndefined -> P VNull ->
  (forall b, P (VBool b)) -> (forall n, P (VNumber n)) ->
  (forall x, P (VOtherNumber x)) ->
  (forall s, P (VString s)) ->
  (forall source flags, P (VRegExp source flags)) ->
  (forall items, Forall P items -> P (VArray items)) ->
  (forall props, Forall (fun p => P (snd p)) props -> P (VObject props)) ->
  (forall class props, Forall (fun p => P (snd p)) props ->
                       P (VInstance class props)) ->
  forall v, P v.
Proof.
  intros Hu Hn Hb Hnum Hother Hs Hre Harr Hobj Hinst. fix IH 1.
  assert (forall props : list (string * value),
            Forall (fun p => P (snd p)) props) as IHprops.
  { induction props as [|[k x] props IHprops]; constructor.
    - apply IH.
    - exact IHprops. }
  intros [].
  - exact Hu.
  - exact Hn.
  - apply Hb.
  - apply Hnum.
  - apply Hother.
  - apply Hs.
  - apply Hre.
  - apply Harr. induction items as [|x items IHitems]; constructor.
    + apply IH.
    + exact IHitems.
  - apply Hobj, IHprops.
  - apply Hinst, IHprops.
Qed.



Lemma value_depth_items items :
  Forall (fun x => value_depth x
                   <= foldr (fun x d => Nat.max (value_depth x) d) 0 items)
         items.
Proof.
  induction items as [|x items IH]; constructor; cbn [foldr].
  - lia.
  - eapply Forall_impl; [exact IH|]. cbn. intros y Hy. lia.
Qed.

Lemma value_depth_props (props : list (string * value)) :
  Forall (fun p => value_depth (snd p)
                   <= foldr (fun p d => Nat.max (value_depth (snd p)) d) 0
                        props)
         props.
Proof.
  induction props as [|x props IH]; constructor; cbn [foldr].
  - lia.
  - eapply Forall_impl; [exact IH|]. cbn. intros y Hy. lia.
Qed.



(** *** The properties that [JSON.parse] makes of the members of a text *)




(** The properties are among the members, whatever the keys. *)
Lemma CreateDataProperty_members {A} key (a : A) props p :
  p ∈ CreateDataProperty key a props -> p = (key, a) \/ p ∈ props.
Proof.
  unfold CreateDataProperty. destruct (existsb _ _).
  - induction props as [|[k x] props IH]; cbn [replace_property]; [by right|].
    destruct (String.eqb k key) eqn:Hk.
    + apply String.eqb_eq in Hk as ->. intros Hp.
      apply elem_of_cons in Hp as [->|Hp]; [by left|].
      right. by apply elem_of_cons; right.
    + intros Hp. apply elem_of_cons in Hp as [->|Hp].
      * right. by apply elem_of_cons; left.
      * destruct (IH Hp) as [->|Hin]; [by left|].
        right. by apply elem_of_cons; right.
  - induction props as [|[k x] props IH]; cbn [insert_property].
    + intros Hp. apply list_elem_of_singleton in Hp. by left.
    + destruct (goes_before key k).
      * intros Hp. apply elem_of_cons in Hp as [->|Hp]; [by left|by right].
      * intros Hp. apply elem_of_cons in Hp as [->|Hp].
        -- right. by apply elem_of_cons; left.
        -- destruct (IH Hp) as [->|Hin]; [by left|].
           right. by apply elem_of_cons; right.
Qed.

Lemma properties_members {A} (members : list (string * A)) p :
  p ∈ properties members -> p ∈ members.
Proof.
  unfold properties.
  assert (forall made rest : list (string * A),
            p ∈ foldl (fun props m => CreateDataProperty (fst m) (snd m) props)
                      made rest ->
            p ∈ made \/ p ∈ rest) as Hfold.
  { intros made rest. revert made.
    induction rest as [|[k x] rest IH]; intros made Hp; [by left|].
    cbn [foldl fst snd] in Hp.
    destruct (IH _ Hp) as [Hin|Hin].
    - apply CreateDataProperty_members in Hin as [->|Hin]; [|by left].
      right. by apply elem_of_cons; left.
    - right. by apply elem_of_cons; right. }
  intros Hp. destruct (Hfold [] members Hp) as [Hin|Hin]; [|done].
  by apply elem_of_nil in Hin.
Qed.






Section SaveLoad.
Context `{RegExpBuiltin}.







(** The fuel that [saveExamSpecification] gives the serialization is
    enough for every value: the [RangeError] is never thrown. *)
Lemma serialize_elements_total serialize items :
  Forall (fun x => forall key, serialize key x <> None) items ->
  forall i, serialize_elements serialize i items <> None.
Proof.
  induction 1 as [|x items Hx _ IH]; intros i; cbn; [done|].
  specialize (Hx (pretty i)). destruct (serialize (pretty i) x); [|done].
  specialize (IH (S i)). by destruct (serialize_elements _ _ _).
Qed.

Lemma serialize_members_total serialize (props : list (string * value)) :
  Forall (fun p => forall key, serialize key (snd p) <> None) props ->
  serialize_members serialize props <> None.
Proof.
  induction 1 as [|[k x] props Hx _ IH]; cbn; [done|].
  specialize (Hx k). cbn in Hx. destruct (serialize k x) as [[j|]|]; try done.
  by destruct (serialize_members _ _).
Qed.

Lemma save_never_overflows_props fuel (props : list (string * value)) :
  Forall (fun p => forall fuel key,
                     value_depth (snd p) + 3 <= fuel ->
                     SerializeJSONProperty save_replacer fuel key (snd p)
                     <> None) props ->
  foldr (fun p d => Nat.max (value_depth (snd p)) d) 0 props + 3 <= fuel ->
  serialize_members (SerializeJSONProperty save_replacer fuel) props <> None.
Proof.
  intros IH Hfuel. pose proof (value_depth_props props) as Hd.
  rewrite Forall_forall in IH. rewrite Forall_forall in Hd.
  apply serialize_members_total, Forall_forall. intros p Hp key'.
  apply IH; [done|]. specialize (Hd p Hp). cbn in Hd. lia.
Qed.

Lemma save_never_overflows v :
  forall fuel key,
    value_depth v + 3 <= fuel ->
    SerializeJSONProperty save_replacer fuel key v <> None.
Proof.
  induction v as [| |b|n|x|s|source flags|items IH|props IH|class props IH]
    using value_ind_nested; intros fuel key Hfuel;
    try (destruct fuel; [lia|]; done).
  - destruct fuel as [|[|[|fuel]]]; try (cbn in Hfuel; lia). done.
  - destruct fuel as [|fuel]; [lia|]. cbn [value_depth] in Hfuel.
    cbn [SerializeJSONProperty save_replacer].
    pose proof (value_depth_items items) as Hd.
    rewrite Forall_forall in IH. rewrite Forall_forall in Hd.
    assert (serialize_elements (SerializeJSONProperty save_replacer fuel) 0
              items <> None) as Hne.
    { apply serialize_elements_total, Forall_forall. intros x Hx key'.
      apply IH; [done|]. specialize (Hd x Hx). lia. }
    by destruct (serialize_elements _ _ _).
  - destruct fuel as [|fuel]; [lia|]. cbn [value_depth] in Hfuel.
    cbn [SerializeJSONProperty save_replacer].
    assert (serialize_members (SerializeJSONProperty save_replacer fuel)
              props <> None) as Hne
      by (apply save_never_overflows_props; [done|lia]).
    by destruct (serialize_members _ _).
  - destruct fuel as [|fuel]; [lia|]. cbn [value_depth] in Hfuel.
    cbn [SerializeJSONProperty save_replacer].
    assert (serialize_members (SerializeJSONProperty save_replacer fuel)
              props <> None) as Hne
      by (apply save_never_overflows_props; [done|lia]).
    by destruct (serialize_members _ _).
Qed.






End SaveLoad.

(** ** The constant seed (claim C4) *)

Lemma agree_ret {St A B} (proj : A -> B) (a1 a2 : A) :
  proj a1 = proj a2 -> agree proj (@ret St A a1) (ret a2).
Proof.
  intros Hp st1 st2 b1 b2 st1' st2' Hr1 Hr2.
  inversion Hr1; inversion Hr2; subst. exact Hp.
Qed.

Lemma agree_unit {St A} (m1 m2 : M St A) : agree (fun _ => tt) m1 m2.
Proof. intros st1 st2 a1 a2 st1' st2' _ _. reflexivity. Qed.

Lemma agree_bind {St A B C D} (p1 : A -> C) (p : B -> D)
    (m1 m2 : M St A) (k1 k2 : A -> M St B) :
  agree p1 m1 m2 ->
  (forall a1 a2, p1 a1 = p1 a2 -> agree p (k1 a1) (k2 a2)) ->
  agree p (bind m1 k1) (bind m2 k2).
Proof.
  intros Hm Hk st1 st2 b1 b2 st1' st2' Hr1 Hr2.
  apply bind_Ok_inv in Hr1 as (a1 & s1 & Ha1 & Hb1).
  apply bind_Ok_inv in Hr2 as (a2 & s2 & Ha2 & Hb2).
  exact (Hk a1 a2 (Hm _ _ _ _ _ _ Ha1 Ha2) _ _ _ _ _ _ Hb1 Hb2).
Qed.

Lemma agree_mapM_from {St A B C} (proj : B -> C)
    (f1 f2 : A -> nat -> M St B) l :
  (forall x i, agree proj (f1 x i) (f2 x i)) ->
  forall i, agree (map proj) (mapM_from i f1 l) (mapM_from i f2 l).
Proof.
  intros Hf. induction l as [|x l IH]; intros i; cbn [mapM_from].
  - by apply agree_ret.
  - eapply agree_bind; [apply Hf|]. intros y1 y2 Hy.
    eapply agree_bind; [apply IH|]. intros ys1 ys2 Hys.
    apply agree_ret. cbn. by rewrite Hy, Hys.
Qed.

Lemma agree_flatMapM_idx {St A B C} (proj : B -> C)
    (f1 f2 : A -> nat -> M St (list B)) l :
  (forall x i, agree (map proj) (f1 x i) (f2 x i)) ->
  agree (map proj) (flatMapM_idx f1 l) (flatMapM_idx f2 l).
Proof.
  intros Hf. unfold flatMapM_idx.
  eapply agree_bind; [by apply (agree_mapM_from (map proj))|].
  intros ls1 ls2 Hls. apply agree_ret.
  by rewrite !concat_map, Hls.
Qed.

Lemma agree_local_ret {St T A B} (proj : A -> B) (a1 a2 : A) :
  proj a1 = proj a2 -> agree_local proj (@ret (St * T) A a1) (ret a2).
Proof.
  intros Hp st1 st2 t b1 b2 st1' st2' Hr1 Hr2.
  inversion Hr1; inversion Hr2; subst. done.
Qed.

Lemma agree_local_bind {St T A B C D} (p1 : A -> C) (p : B -> D)
    (m1 m2 : M (St * T) A) (k1 k2 : A -> M (St * T) B) :
  agree_local p1 m1 m2 ->
  (forall a1 a2, p1 a1 = p1 a2 -> agree_local p (k1 a1) (k2 a2)) ->
  agree_local p (bind m1 k1) (bind m2 k2).
Proof.
  intros Hm Hk st1 st2 t b1 b2 st1' st2' Hr1 Hr2.
  apply bind_Ok_inv in Hr1 as (a1 & [s1 t1] & Ha1 & Hb1).
  apply bind_Ok_inv in Hr2 as (a2 & [s2 t2] & Ha2 & Hb2).
  destruct (Hm _ _ _ _ _ _ _ Ha1 Ha2) as [Hp Ht]. cbn in Ht. subst t2.
  exact (Hk a1 a2 Hp _ _ _ _ _ _ _ Hb1 Hb2).
Qed.

Lemma agree_local_mapM {St T A B C} (proj : B -> C)
    (f1 f2 : A -> M (St * T) B) l :
  (forall x, agree_local proj (f1 x) (f2 x)) ->
  agree_local (map proj) (mapM f1 l) (mapM f2 l).
Proof.
  intros Hf. unfold mapM. generalize 0.
  induction l as [|x l IH]; intros i; cbn [mapM_from].
  - by apply agree_local_ret.
  - eapply agree_local_bind; [apply Hf|]. intros y1 y2 Hy.
    eapply agree_local_bind; [apply IH|]. intros ys1 ys2 Hys.
    apply agree_local_ret. cbn. by rewrite Hy, Hys.
Qed.

Lemma agree_local_zoom_fst {St T A B} (proj : A -> B) (m1 m2 : M St A) :
  agree proj m1 m2 -> agree_local proj (@zoom_fst St T A m1) (zoom_fst m2).
Proof.
  intros Hm st1 st2 t a1 a2 st1' st2'. unfold zoom_fst. cbn.
  destruct (m1 st1) as [r1 s1] eqn:E1. destruct (m2 st2) as [r2 s2] eqn:E2.
  intros Hr1 Hr2. inversion Hr1; inversion Hr2; subst. cbn.
  split; [exact (Hm _ _ _ _ _ _ E1 E2)|done].
Qed.

Lemma agree_local_zoom_snd {St T A} (m1 m2 : M T A) :
  (forall t, m1 t = m2 t) ->
  agree_local id (@zoom_snd St T A m1) (zoom_snd m2).
Proof.
  intros Hm st1 st2 t a1 a2 st1' st2'. unfold zoom_snd. cbn.
  rewrite Hm. destruct (m2 t) as [r t'].
  intros Hr1 Hr2. inversion Hr1; inversion Hr2; subst. cbn. split; congruence.
Qed.

Lemma agree_with_local {St T A B} (proj : A -> B) (t0 : T)
    (m1 m2 : M (St * T) A) :
  agree_local proj m1 m2 -> agree proj (with_local t0 m1) (with_local t0 m2).
Proof.
  intros Hm st1 st2 a1 a2 st1' st2'. unfold with_local.
  destruct (m1 (st1, t0)) as [r1 s1] eqn:E1.
  destruct (m2 (st2, t0)) as [r2 s2] eqn:E2.
  intros Hr1 Hr2. inversion Hr1; inversion Hr2; subst.
  by destruct (Hm _ _ _ _ _ _ _ E1 E2).
Qed.

Lemma flatMapM_ext {St A B} (f1 f2 : A -> M St (list B)) l :
  (forall x st, f1 x st = f2 x st) ->
  forall st, flatMapM f1 l st = flatMapM f2 l st.
Proof.
  intros Hf. unfold flatMapM, flatMapM_idx. generalize 0.
  assert (forall i st, mapM_from i (fun x _ => f1 x) l st
                       = mapM_from i (fun x _ => f2 x) l st) as Hmap.
  { induction l as [|x l IH]; intros i st; cbn [mapM_from]; [done|].
    unfold bind. rewrite Hf. destruct (f2 x st) as [[y|e] st1]; [|done].
    by rewrite IH. }
  intros i st. unfold bind. by rewrite Hmap.
Qed.

Section ConstantSeed.
Context `{JsNumber} `{Opaque} `{!Collaborators} `{UuidPackage}.
Variable exam : Exam.
Variable options : ExamGeneratorOptions.
Hypothesis Hconsistent : truthy_bool (consistent_randomization options) = true.

Lemma makeSeed_common student : makeSeed options student = "common".
Proof. unfold makeSeed. by rewrite Hconsistent. Qed.

Lemma section_choice_rand_common s1 s2 :
  default_section_choice_rand exam options s1
  = default_section_choice_rand exam options s2.
Proof. unfold default_section_choice_rand. by rewrite !makeSeed_common. Qed.

Lemma question_choice_rand_common s1 s2 section :
  default_question_choice_rand exam options s1 section
  = default_question_choice_rand exam options s2 section.
Proof. unfold default_question_choice_rand. by rewrite !makeSeed_common. Qed.

Lemma section_skin_rand_common s1 s2 section :
  default_section_skin_rand exam options s1 section
  = default_section_skin_rand exam options s2 section.
Proof. unfold default_section_skin_rand. by rewrite !makeSeed_common. Qed.

Lemma question_skin_rand_common s1 s2 question :
  default_question_skin_rand exam options s1 question
  = default_question_skin_rand exam options s2 question.
Proof. unfold default_question_skin_rand. by rewrite !makeSeed_common. Qed.

Hypothesis Hdraw : choosers_draw_only.

Lemma choose_skins_draw_only skin s1 s2 r :
  choose_skins exam skin s1 r = choose_skins exam skin s2 r.
Proof.
  destruct Hdraw as (_ & _ & Hskin). destruct skin; cbn; [done|apply Hskin].
Qed.

Lemma agree_createRandomizedQuestion q s1 s2 sectionIndex partIndex skin1 skin2 :
  skin1 = skin2 ->
  agree question_selection
    (createRandomizedQuestion exam options q s1 sectionIndex partIndex skin1
       None)
    (createRandomizedQuestion exam options q s2 sectionIndex partIndex skin2
       None).
Proof.
  intros <-. unfold createRandomizedQuestion. cbn [default].
  rewrite (question_skin_rand_common s1 s2).
  eapply (agree_bind id).
  { apply agree_with_local, agree_local_zoom_snd.
    intros r. apply choose_skins_draw_only. }
  unfold id. intros chosen ? <-.
  eapply (agree_bind id).
  { intros st1 st2 a1 a2 st1' st2' Hr1 Hr2. unfold liftR in *. congruence. }
  unfold id. intros skins ? <-.
  eapply agree_bind; [apply agree_unit|]. intros _ _ _.
  unfold newAssignedQuestions, mapM.
  apply (agree_mapM_from (fun q => (aq_question q, aq_skin q))).
  intros skin i. eapply agree_bind; [apply agree_unit|]. intros u1 u2 _.
  by apply agree_ret.
Qed.

Lemma agree_createRandomizedSection s s1 s2 sectionIndex :
  agree section_selection
    (createRandomizedSection exam options s s1 sectionIndex None None)
    (createRandomizedSection exam options s s2 sectionIndex None None).
Proof.
  unfold createRandomizedSection. cbn [default].
  rewrite (section_skin_rand_common s1 s2),
          (question_choice_rand_common s1 s2).
  eapply (agree_bind id).
  { apply agree_with_local, agree_local_zoom_snd.
    intros r. apply choose_skins_draw_only. }
  unfold id. intros skins ? <-.
  eapply agree_bind; [apply agree_unit|]. intros _ _ _.
  unfold newAssignedSections. apply agree_with_local.
  apply (agree_local_mapM
           (fun a => (as_section a, as_skin a,
                      question_selection (as_assignedQuestions a)))).
  intros skin.
  eapply agree_local_bind; [apply agree_local_zoom_fst, agree_unit|].
  intros u1 u2 _.
  eapply (agree_local_bind id).
  { apply agree_local_zoom_snd. apply flatMapM_ext.
    intros c r. destruct Hdraw as (_ & Hq & _). apply Hq. }
  unfold id. intros questions ? <-.
  eapply (agree_local_bind question_selection).
  { apply agree_local_zoom_fst.
    apply (agree_flatMapM_idx (fun q => (aq_question q, aq_skin q))).
    intros q i. by apply agree_createRandomizedQuestion. }
  intros qs1 qs2 Hqs. apply agree_local_ret. cbn [as_section as_skin
    as_assignedQuestions]. by rewrite Hqs.
Qed.

Lemma agree_randomizedExam s1 s2 :
  agree selection
    (randomizedExam exam options s1
       (default_section_choice_rand exam options s1))
    (randomizedExam exam options s2
       (default_section_choice_rand exam options s2)).
Proof.
  unfold randomizedExam. rewrite (section_choice_rand_common s1 s2).
  eapply agree_bind; [apply agree_unit|]. intros u1 u2 _.
  eapply (agree_bind id).
  { apply agree_with_local, agree_local_zoom_snd. apply flatMapM_ext.
    intros c r. destruct Hdraw as (Hs & _ & _). apply Hs. }
  unfold id. intros sections ? <-.
  eapply (agree_bind section_selection).
  { apply (agree_flatMapM_idx
             (fun a => (as_section a, as_skin a,
                        question_selection (as_assignedQuestions a)))).
    intros s i. apply agree_createRandomizedSection. }
  intros a1 a2 Ha. by apply agree_ret.
Qed.

End ConstantSeed.

Section ConsistentRandomization.
Context `{JsNumber} `{Opaque} `{!Collaborators} `{UuidPackage}.
Variable exam : Exam.
Variable options : ExamGeneratorOptions.

(** C4, as amended. When [consistent_randomization] is set, the seed of
    every student is the constant "common", so the four randomizers of a
    build (for the choice of sections, the choice of questions, the skin of
    a section and the skin of a question) are created alike for all
    students; and with choosers that draw from their randomizer only, the
    exams built for any two students hold the same sections and questions
    with the same skins. *)
Theorem consistent_randomization_seeds_every_randomizer :
  truthy_bool (consistent_randomization options) = true ->
  (forall student, makeSeed options student = "common")
  /\ (forall s1 s2,
        default_section_choice_rand exam options s1
        = default_section_choice_rand exam options s2)
  /\ (forall s1 s2 section,
        default_question_choice_rand exam options s1 section
        = default_question_choice_rand exam options s2 section)
  /\ (forall s1 s2 section,
        default_section_skin_rand exam options s1 section
        = default_section_skin_rand exam options s2 section)
  /\ (forall s1 s2 question,
        default_question_skin_rand exam options s1 question
        = default_question_skin_rand exam options s2 question)
  /\ (choosers_draw_only ->
      forall s1 s2 st1 st2 ae1 ae2 st1' st2',
        createRandomizedExam exam options s1 None st1 = (Ok ae1, st1') ->
        createRandomizedExam exam options s2 None st2 = (Ok ae2, st2') ->
        selection ae1 = selection ae2).
Proof.
  intros Hc. repeat split.
  - intros student. by apply makeSeed_common.
  - intros s1 s2. by apply section_choice_rand_common.
  - intros s1 s2 section. by apply question_choice_rand_common.
  - intros s1 s2 section. by apply section_skin_rand_common.
  - intros s1 s2 question. by apply question_skin_rand_common.
  - intros Hdraw s1 s2 st1 st2 ae1 ae2 st1' st2' Hr1 Hr2.
    apply createRandomizedExam_Ok_inv in Hr1 as (st1m & Hb1 & _).
    apply createRandomizedExam_Ok_inv in Hr2 as (st2m & Hb2 & _).
    cbn [default] in Hb1, Hb2.
    exact (agree_randomizedExam exam options Hc Hdraw s1 s2 _ _ _ _ _ _ Hb1 Hb2).
Qed.

End ConsistentRandomization.

(** ** The uuidv5 strategy

    With a namespace, [createStudentUuid] is the [v5] function of the [uuid]
    package applied to [uniqname + "-" + id] and the namespace; it makes no
    draw from the random source. *)
Lemma createStudentUuid_uuidv5 `{UuidPackage} options student id ns draws :
  uuid_strategy options = uuidv5 ->
  uuidv5_namespace options = Some ns -> ns <> "" ->
  createStudentUuid options student id draws
  = (uuid_v5 (uniqname student +:+ "-" +:+ id) ns, draws).
Proof.
  intros Hs Hns Hne. unfold createStudentUuid. rewrite Hs, Hns.
  cbn [truthy_string]. apply String.eqb_neq in Hne. rewrite Hne.
  reflexivity.
Qed.

(** A [null] anywhere in the file makes [loadExamSpecification] throw:
    [typeof null] is "object", and the reviver reads a property of it. *)
Lemma load_reviver_null `{RegExpBuiltin} key :
  load_reviver key VNull
  = Err (TypeError "Cannot read properties of null").
Proof. reflexivity. Qed.

(** ** The tables of the generator *)

Section Keeps.
Context `{JsNumber} `{Opaque} `{!Collaborators} `{UuidPackage}.
Variable exam : Exam.
Variable options : ExamGeneratorOptions.
Context {X : Type} (field : GenState -> X).

#[global] Instance keeps_refl : Reflexive (keeps field).
Proof. intros st. reflexivity. Qed.

#[global] Instance keeps_trans : Transitive (keeps field).
Proof. intros st1 st2 st3. unfold keeps. congruence. Qed.

Lemma keeps_on_uuid_draws {A} (m : M nat A) :
  apart_from_draws field -> preserves (keeps field) (on_uuid_draws m).
Proof.
  intros Hfield st r st'. unfold on_uuid_draws.
  destruct (m (uuid_draws st)) as [r' d]. intros Hr. inversion Hr; subst.
  apply Hfield.
Qed.

Lemma keeps_randomizedExam student rand :
  apart_from_draws field ->
  preserves (keeps field) (randomizedExam exam options student rand).
Proof.
  intros Hfield.
  unfold randomizedExam, createRandomizedSection, newAssignedSections,
    createRandomizedQuestion, newAssignedQuestions.
  repeat preserves_step; by apply keeps_on_uuid_draws.
Qed.

Lemma keeps_trackSection s :
  (forall m st, field (set_sectionsMap m st) = field st) ->
  preserves (keeps field) (trackSection s).
Proof. intros Hs st r st' Hr. inversion Hr; subst. apply Hs. Qed.

Lemma keeps_trackQuestion q :
  (forall m st, field (set_questionsMap m st) = field st) ->
  preserves (keeps field) (trackQuestion q).
Proof. intros Hq st r st' Hr. inversion Hr; subst. apply Hq. Qed.

Lemma keeps_checkSection s :
  (forall m st, field (set_sectionStatsMap m st) = field st) ->
  preserves (keeps field) (checkSection s).
Proof.
  intros Hs st r st'. unfold checkSection, bind, get, modify.
  destruct (read_property (sectionStatsMap st) (section_id s)) as [stats| |].
  - destruct (_ =? 0)%N.
    + intros Hr. inversion Hr; subst. apply Hs.
    + intros Hr. apply (preserves_assert (keeps field)) in Hr.
      unfold keeps in *. rewrite Hr. apply Hs.
  - intros Hr. inversion Hr; subst. reflexivity.
  - intros Hr. inversion Hr; subst. apply Hs.
Qed.

Lemma keeps_checkQuestion q :
  (forall m st, field (set_questionStatsMap m st) = field st) ->
  preserves (keeps field) (checkQuestion q).
Proof.
  intros Hq st r st'. unfold checkQuestion, bind, get, modify.
  destruct (read_property (questionStatsMap st) (question_id q)) as [stats| |].
  - destruct (_ =? 0)%N.
    + intros Hr. inversion Hr; subst. apply Hq.
    + intros Hr. apply (preserves_assert (keeps field)) in Hr.
      unfold keeps in *. rewrite Hr. apply Hq.
  - intros Hr. inversion Hr; subst. reflexivity.
  - intros Hr. inversion Hr; subst. apply Hq.
Qed.

Lemma keeps_createRandomizedExam student rand :
  apart_from_draws field -> apart_from_tables field ->
  preserves (keeps field) (createRandomizedExam exam options student rand).
Proof.
  intros Hd (T1 & T2 & T3 & T4).
  unfold createRandomizedExam, checkExam. repeat preserves_step.
  - by apply keeps_randomizedExam.
  - by apply keeps_trackSection.
  - by apply keeps_checkSection.
  - by apply keeps_trackQuestion.
  - by apply keeps_checkQuestion.
Qed.

End Keeps.

Section Tables.
Context `{JsNumber} `{Opaque} `{!Collaborators} `{UuidPackage}.
Variable exam : Exam.
Variable options : ExamGeneratorOptions.

Lemma sections_with_snoc id l s :
  sections_with id (l ++ [s])
  = sections_with id l ++ (if String.eqb (section_id s) id then [s] else []).
Proof. unfold sections_with. rewrite List.filter_app. reflexivity. Qed.

Lemma questions_with_snoc id l q :
  questions_with id (l ++ [q])
  = questions_with id l ++ (if String.eqb (question_id q) id then [q] else []).
Proof. unfold questions_with. rewrite List.filter_app. reflexivity. Qed.

Lemma section_stats_of_snoc_other id l s :
  section_id s <> id -> section_stats_of id (l ++ [s]) = section_stats_of id l.
Proof.
  intros Hne. unfold section_stats_of. rewrite sections_with_snoc.
  apply String.eqb_neq in Hne. rewrite Hne, app_nil_r. reflexivity.
Qed.

Lemma question_stats_of_snoc_other id l q :
  question_id q <> id ->
  question_stats_of id (l ++ [q]) = question_stats_of id l.
Proof.
  intros Hne. unfold question_stats_of. rewrite questions_with_snoc.
  apply String.eqb_neq in Hne. rewrite Hne, app_nil_r. reflexivity.
Qed.

Lemma section_stats_of_snoc s l :
  section_stats_of (section_id s) (l ++ [s])
  = Some match section_stats_of (section_id s) l with
         | Some stats => {| stats_section := stats_section stats;
                            stats_section_n := stats_section_n stats + 1 |}
         | None => {| stats_section := s; stats_section_n := 1 |}
         end.
Proof.
  unfold section_stats_of. rewrite sections_with_snoc, String.eqb_refl.
  destruct (sections_with (section_id s) l) as [|s0 rest]; cbn [app].
  - reflexivity.
  - cbn [stats_section stats_section_n]. rewrite length_app. cbn [length].
    do 2 f_equal. lia.
Qed.

Lemma question_stats_of_snoc q l :
  question_stats_of (question_id q) (l ++ [q])
  = Some match question_stats_of (question_id q) l with
         | Some stats => {| stats_question := stats_question stats;
                            stats_question_n := stats_question_n stats + 1 |}
         | None => {| stats_question := q; stats_question_n := 1 |}
         end.
Proof.
  unfold question_stats_of. rewrite questions_with_snoc, String.eqb_refl.
  destruct (questions_with (question_id q) l) as [|q0 rest]; cbn [app].
  - reflexivity.
  - cbn [stats_question stats_question_n]. rewrite length_app. cbn [length].
    do 2 f_equal. lia.
Qed.

(** The checker counts a section before it compares it, so the count is
    kept whether the comparison passes or not. *)
Lemma checkSection_counts s l st r st' :
  checkSection s st = (r, st') ->
  (forall id, sectionStatsMap st !! id = counted id (section_stats_of id l)) ->
  forall id, sectionStatsMap st' !! id
             = counted id (section_stats_of id (l ++ [s])).
Proof.
  intros Hr Hst.
  assert (sectionStatsMap st'
          = if inherited (section_id s) then sectionStatsMap st
            else
              <[section_id s :=
                  match sectionStatsMap st !! section_id s with
                  | Some stats =>
                      {| stats_section := stats_section stats;
                         stats_section_n := stats_section_n stats + 1 |}
                  | None => {| stats_section := s; stats_section_n := 1 |}
                  end]> (sectionStatsMap st)) as ->.
  { revert Hr. unfold checkSection, bind, get, modify.
    destruct (read_property_cases (sectionStatsMap st) (section_id s))
      as [(stats & Hl & ->)|[(Hl & Hin & ->)|(Hl & Hin & ->)]].
    - assert (inherited (section_id s) = false) as ->.
      { specialize (Hst (section_id s)). rewrite Hl in Hst. unfold counted in Hst.
        by destruct (inherited (section_id s)). }
      rewrite Hl, succ_count_truthy. intros Hr.
      apply (preserves_assert (keeps sectionStatsMap)) in Hr.
      rewrite Hr. reflexivity.
    - rewrite Hin. intros Hr. by inversion Hr; subst.
    - rewrite Hin, Hl. intros Hr. inversion Hr; subst.
      cbn. by rewrite assign_property_insert. }
  intros id. unfold counted. destruct (decide (section_id s = id)) as [<-|Hne].
  - destruct (inherited (section_id s)) eqn:Hin.
    + specialize (Hst (section_id s)). unfold counted in Hst. by rewrite Hin in Hst.
    + rewrite lookup_insert_eq, section_stats_of_snoc.
      specialize (Hst (section_id s)). unfold counted in Hst. rewrite Hin in Hst.
      by rewrite Hst.
  - rewrite section_stats_of_snoc_other by done.
    destruct (inherited (section_id s)); [|rewrite lookup_insert_ne by done];
      apply Hst.
Qed.

Lemma checkQuestion_counts q l st r st' :
  checkQuestion q st = (r, st') ->
  (forall id, questionStatsMap st !! id = counted id (question_stats_of id l)) ->
  forall id, questionStatsMap st' !! id
             = counted id (question_stats_of id (l ++ [q])).
Proof.
  intros Hr Hst.
  assert (questionStatsMap st'
          = if inherited (question_id q) then questionStatsMap st
            else
              <[question_id q :=
                  match questionStatsMap st !! question_id q with
                  | Some stats =>
                      {| stats_question := stats_question stats;
                         stats_question_n := stats_question_n stats + 1 |}
                  | None => {| stats_question := q; stats_question_n := 1 |}
                  end]> (questionStatsMap st)) as ->.
  { revert Hr. unfold checkQuestion, bind, get, modify.
    destruct (read_property_cases (questionStatsMap st) (question_id q))
      as [(stats & Hl & ->)|[(Hl & Hin & ->)|(Hl & Hin & ->)]].
    - assert (inherited (question_id q) = false) as ->.
      { specialize (Hst (question_id q)). rewrite Hl in Hst. unfold counted in Hst.
        by destruct (inherited (question_id q)). }
      rewrite Hl, succ_count_truthy. intros Hr.
      apply (preserves_assert (keeps questionStatsMap)) in Hr.
      rewrite Hr. reflexivity.
    - rewrite Hin. intros Hr. by inversion Hr; subst.
    - rewrite Hin, Hl. intros Hr. inversion Hr; subst.
      cbn. by rewrite assign_property_insert. }
  intros id. unfold counted. destruct (decide (question_id q = id)) as [<-|Hne].
  - destruct (inherited (question_id q)) eqn:Hin.
    + specialize (Hst (question_id q)). unfold counted in Hst. by rewrite Hin in Hst.
    + rewrite lookup_insert_eq, question_stats_of_snoc.
      specialize (Hst (question_id q)). unfold counted in Hst. rewrite Hin in Hst.
      by rewrite Hst.
  - rewrite question_stats_of_snoc_other by done.
    destruct (inherited (question_id q)); [|rewrite lookup_insert_ne by done];
      apply Hst.
Qed.

Lemma forEach_checkSection_counts l2 l st u st' :
  forEach checkSection l2 st = (Ok u, st') ->
  (forall id, sectionStatsMap st !! id = counted id (section_stats_of id l)) ->
  forall id, sectionStatsMap st' !! id = counted id (section_stats_of id (l ++ l2)).
Proof.
  revert l st. induction l2 as [|s l2 IH]; intros l st Hr Hst.
  - inversion Hr; subst. by rewrite app_nil_r.
  - cbn [forEach] in Hr. apply bind_Ok_inv in Hr as (u1 & st1 & Hs & Hr).
    replace (l ++ s :: l2) with ((l ++ [s]) ++ l2) by by rewrite <- app_assoc.
    apply (IH _ st1); [done|]. by apply (checkSection_counts s l st (Ok u1)).
Qed.

Lemma forEach_checkQuestion_counts l2 l st u st' :
  forEach checkQuestion l2 st = (Ok u, st') ->
  (forall id, questionStatsMap st !! id = counted id (question_stats_of id l)) ->
  forall id, questionStatsMap st' !! id = counted id (question_stats_of id (l ++ l2)).
Proof.
  revert l st. induction l2 as [|q l2 IH]; intros l st Hr Hst.
  - inversion Hr; subst. by rewrite app_nil_r.
  - cbn [forEach] in Hr. apply bind_Ok_inv in Hr as (u1 & st1 & Hs & Hr).
    replace (l ++ q :: l2) with ((l ++ [q]) ++ l2) by by rewrite <- app_assoc.
    apply (IH _ st1); [done|]. by apply (checkQuestion_counts q l st (Ok u1)).
Qed.

Lemma forEach_trackSection_latest l2 l st r st' :
  forEach trackSection l2 st = (r, st') ->
  (forall id, sectionsMap st !! id = kept id (last (sections_with id l))) ->
  forall id, sectionsMap st' !! id = kept id (last (sections_with id (l ++ l2))).
Proof.
  revert l st. induction l2 as [|s l2 IH]; intros l st Hr Hst.
  - inversion Hr; subst. by rewrite app_nil_r.
  - cbn [forEach] in Hr. unfold bind, trackSection at 1, modify in Hr.
    replace (l ++ s :: l2) with ((l ++ [s]) ++ l2) by by rewrite <- app_assoc.
    apply (IH _ _ Hr). intros id. cbn [sectionsMap set_sectionsMap].
    rewrite sections_with_snoc, lookup_assign_property. unfold kept.
    destruct (String.eqb (section_id s) id) eqn:Hid.
    + apply String.eqb_eq in Hid as <-. rewrite last_snoc.
      destruct (String.eqb (section_id s) "__proto__") eqn:Hproto; [|done].
      specialize (Hst (section_id s)). unfold kept in Hst. by rewrite Hproto in Hst.
    + rewrite app_nil_r.
      destruct (String.eqb (section_id s) "__proto__"); apply Hst.
Qed.

Lemma forEach_trackQuestion_latest l2 l st r st' :
  forEach trackQuestion l2 st = (r, st') ->
  (forall id, questionsMap st !! id = kept id (last (questions_with id l))) ->
  forall id, questionsMap st' !! id = kept id (last (questions_with id (l ++ l2))).
Proof.
  revert l st. induction l2 as [|q l2 IH]; intros l st Hr Hst.
  - inversion Hr; subst. by rewrite app_nil_r.
  - cbn [forEach] in Hr. unfold bind, trackQuestion at 1, modify in Hr.
    replace (l ++ q :: l2) with ((l ++ [q]) ++ l2) by by rewrite <- app_assoc.
    apply (IH _ _ Hr). intros id. cbn [questionsMap set_questionsMap].
    rewrite questions_with_snoc, lookup_assign_property. unfold kept.
    destruct (String.eqb (question_id q) id) eqn:Hid.
    + apply String.eqb_eq in Hid as <-. rewrite last_snoc.
      destruct (String.eqb (question_id q) "__proto__") eqn:Hproto; [|done].
      specialize (Hst (question_id q)). unfold kept in Hst. by rewrite Hproto in Hst.
    + rewrite app_nil_r.
      destruct (String.eqb (question_id q) "__proto__"); apply Hst.
Qed.

(** The four loops of a check that passes. *)
Lemma checkExam_Ok_inv ae st u st' :
  checkExam ae st = (Ok u, st') ->
  exists st1 st2 st3,
    forEach trackSection (sections_of ae) st = (Ok tt, st1)
    /\ forEach checkSection (sections_of ae) st1 = (Ok tt, st2)
    /\ forEach trackQuestion (questions_of ae) st2 = (Ok tt, st3)
    /\ forEach checkQuestion (questions_of ae) st3 = (Ok tt, st').
Proof.
  unfold checkExam. intros Hr.
  apply bind_Ok_inv in Hr as ([] & st1 & T1 & Hr).
  apply bind_Ok_inv in Hr as ([] & st2 & T2 & Hr).
  apply bind_Ok_inv in Hr as ([] & st3 & T3 & Hr).
  destruct u. by exists st1, st2, st3.
Qed.

Lemma all_sections_snoc exams ae :
  all_sections (exams ++ [ae]) = all_sections exams ++ sections_of ae.
Proof. unfold all_sections. rewrite flat_map_app. cbn. by rewrite app_nil_r. Qed.

Lemma all_questions_snoc exams ae :
  all_questions (exams ++ [ae]) = all_questions exams ++ questions_of ae.
Proof. unfold all_questions. rewrite flat_map_app. cbn. by rewrite app_nil_r. Qed.

Lemma table_fields :
  apart_from_draws sectionsMap /\ apart_from_draws questionsMap
  /\ apart_from_draws sectionStatsMap /\ apart_from_draws questionStatsMap.
Proof. by repeat split. Qed.

Lemma createRandomizedExam_stats_exact student rand st ae st' exams :
  createRandomizedExam exam options student rand st = (Ok ae, st') ->
  stats_exact st exams -> stats_exact st' (exams ++ [ae]).
Proof.
  intros Hr [Hs Hq].
  apply createRandomizedExam_Ok_inv in Hr as (st0 & Hb & Hc).
  apply checkExam_Ok_inv in Hc as (st1 & st2 & st3 & T1 & T2 & T3 & T4).
  split.
  - rewrite all_sections_snoc. intros id.
    assert (sectionStatsMap st' = sectionStatsMap st2) as ->.
    { transitivity (sectionStatsMap st3).
      - eapply (preserves_forEach (keeps sectionStatsMap)); [|exact T4].
        intros q. apply keeps_checkQuestion. done.
      - eapply (preserves_forEach (keeps sectionStatsMap)); [|exact T3].
        intros q. apply keeps_trackQuestion. done. }
    apply (forEach_checkSection_counts _ _ st1 tt); [done|].
    intros id'.
    assert (sectionStatsMap st1 = sectionStatsMap st0) as ->.
    { eapply (preserves_forEach (keeps sectionStatsMap)); [|exact T1].
      intros s. apply keeps_trackSection. done. }
    assert (sectionStatsMap st0 = sectionStatsMap st) as ->.
    { eapply (keeps_randomizedExam exam options sectionStatsMap); [|exact Hb].
      apply table_fields. }
    apply Hs.
  - rewrite all_questions_snoc. intros id.
    apply (forEach_checkQuestion_counts _ _ st3 tt); [done|].
    intros id'.
    assert (questionStatsMap st3 = questionStatsMap st2) as ->.
    { eapply (preserves_forEach (keeps questionStatsMap)); [|exact T3].
      intros q. apply keeps_trackQuestion. done. }
    assert (questionStatsMap st2 = questionStatsMap st1) as ->.
    { eapply (preserves_forEach (keeps questionStatsMap)); [|exact T2].
      intros s. apply keeps_checkSection. done. }
    assert (questionStatsMap st1 = questionStatsMap st0) as ->.
    { eapply (preserves_forEach (keeps questionStatsMap)); [|exact T1].
      intros s. apply keeps_trackSection. done. }
    assert (questionStatsMap st0 = questionStatsMap st) as ->.
    { eapply (keeps_randomizedExam exam options questionStatsMap); [|exact Hb].
      apply table_fields. }
    apply Hq.
Qed.

Lemma createRandomizedExam_maps_latest student rand st ae st' exams :
  createRandomizedExam exam options student rand st = (Ok ae, st') ->
  maps_latest st exams -> maps_latest st' (exams ++ [ae]).
Proof.
  intros Hr [Hs Hq].
  apply createRandomizedExam_Ok_inv in Hr as (st0 & Hb & Hc).
  apply checkExam_Ok_inv in Hc as (st1 & st2 & st3 & T1 & T2 & T3 & T4).
  split.
  - rewrite all_sections_snoc. intros id.
    assert (sectionsMap st' = sectionsMap st1) as ->.
    { transitivity (sectionsMap st3); [|transitivity (sectionsMap st2)].
      - eapply (preserves_forEach (keeps sectionsMap)); [|exact T4].
        intros q. apply keeps_checkQuestion. done.
      - eapply (preserves_forEach (keeps sectionsMap)); [|exact T3].
        intros q. apply keeps_trackQuestion. done.
      - eapply (preserves_forEach (keeps sectionsMap)); [|exact T2].
        intros s. apply keeps_checkSection. done. }
    apply (forEach_trackSection_latest _ _ st0 (Ok tt)); [done|].
    intros id'.
    assert (sectionsMap st0 = sectionsMap st) as ->.
    { eapply (keeps_randomizedExam exam options sectionsMap); [|exact Hb].
      apply table_fields. }
    apply Hs.
  - rewrite all_questions_snoc. intros id.
    assert (questionsMap st' = questionsMap st3) as ->.
    { eapply (preserves_forEach (keeps questionsMap)); [|exact T4].
      intros q. apply keeps_checkQuestion. done. }
    apply (forEach_trackQuestion_latest _ _ st2 (Ok tt)); [done|].
    intros id'.
    assert (questionsMap st2 = questionsMap st1) as ->.
    { eapply (preserves_forEach (keeps questionsMap)); [|exact T2].
      intros s. apply keeps_checkSection. done. }
    assert (questionsMap st1 = questionsMap st0) as ->.
    { eapply (preserves_forEach (keeps questionsMap)); [|exact T1].
      intros s. apply keeps_trackSection. done. }
    assert (questionsMap st0 = questionsMap st) as ->.
    { eapply (keeps_randomizedExam exam options questionsMap); [|exact Hb].
      apply table_fields. }
    apply Hq.
Qed.

(** A property of the tables and of the assigned exams that every built
    and checked exam keeps is kept by a run that returns. *)
Lemma assignExams_Ok_invariant (P : GenState -> list AssignedExam -> Prop) :
  (forall student st ae st1 exams,
     createRandomizedExam exam options student None st = (Ok ae, st1) ->
     P st exams -> P st1 (exams ++ [ae])) ->
  (forall student ae st exams, P st exams -> P (pushed student ae st) exams) ->
  forall students st st',
    assignExams exam options students st = (Ok tt, st') ->
    P st (assignedExams st) -> P st' (assignedExams st').
Proof.
  intros Hbuild Hpush.
  induction students as [|s students IH]; intros st st' Hrun Hst.
  - cbn in Hrun. by inversion Hrun; subst.
  - rewrite assignExams_cons in Hrun.
    destruct (assignExam exam options s st) as [[ae0|e] st1] eqn:Hs;
      [|discriminate].
    apply (IH _ _ Hrun).
    apply assignExam_cases in Hs
      as [(e & _ & Habs)|(ae & st0 & first & Hae & -> & _ & _)];
      [discriminate|].
    destruct (frame_createRandomizedExam _ _ _ _ _ _ _ Hae) as (Hex & _).
    rewrite assignedExams_pushed, Hex. apply Hpush.
    by apply (Hbuild s st).
Qed.

(** X1. After a run of [assignExams] that returns, the usage statistics
    hold, for every id that names no property of [Object.prototype], the
    section (question) that was assigned first under the id and the number
    of times a section (question) with the id was assigned, over all exams;
    an id that was never assigned has no entry, and neither has an id that
    names a property of [Object.prototype], however often it was
    assigned. *)
Theorem stats_count_every_assignment students st st' :
  assignExams exam options students st = (Ok tt, st') ->
  stats_exact st (assignedExams st) ->
  stats_exact st' (assignedExams st').
Proof.
  apply (assignExams_Ok_invariant stats_exact).
  - intros student st0 ae st1 exams. apply createRandomizedExam_stats_exact.
  - intros student ae st0 exams Hst. exact Hst.
Qed.

(** X2. After a run of [assignExams] that returns, the lookup tables
    [sectionsMap] and [questionsMap] hold, for every id other than
    [__proto__], the section (question) that was assigned last under the
    id, and no entry for an id that was never assigned; they never have an
    entry under [__proto__], where an assignment sets the prototype of the
    table. *)
Theorem maps_hold_latest_assignment students st st' :
  assignExams exam options students st = (Ok tt, st') ->
  maps_latest st (assignedExams st) ->
  maps_latest st' (assignedExams st').
Proof.
  apply (assignExams_Ok_invariant maps_latest).
  - intros student st0 ae st1 exams. apply createRandomizedExam_maps_latest.
  - intros student ae st0 exams Hst. exact Hst.
Qed.

End Tables.

Section RunsOfAssignExams.
Context `{JsNumber} `{Opaque} `{!Collaborators} `{UuidPackage}.
Variable exam : Exam.
Variable options : ExamGeneratorOptions.

Lemma by_uniqname_fields :
  apart_from_draws assignedExamsByUniqname
  /\ apart_from_tables assignedExamsByUniqname.
Proof. by repeat split. Qed.

(** What one call of [assignExam] does to the two collections of assigned
    exams: nothing when no exam could be built, and otherwise the exam
    built for the student is appended and entered under the uniqname,
    before the points are compared. *)
Lemma assignExam_collections student st r st' :
  assignExam exam options student st = (r, st') ->
  (assignedExams st' = assignedExams st
   /\ assignedExamsByUniqname st' = assignedExamsByUniqname st
   /\ exists e, r = Err e)
  \/ (exists ae st1,
        createRandomizedExam exam options student None st = (Ok ae, st1)
        /\ ae_student ae = student
        /\ assignedExams st' = assignedExams st ++ [ae]
        /\ assignedExamsByUniqname st'
           = assign_property (uniqname student) ae
               (assignedExamsByUniqname st)
        /\ (forall ae', r = Ok ae' -> ae' = ae)).
Proof.
  intros Hr. destruct by_uniqname_fields as [Hd Ht].
  apply assignExam_cases in Hr
    as [(e & He & ->)|(ae & st1 & first & Hae & -> & _ & ->)].
  - left.
    destruct (frame_createRandomizedExam _ _ _ _ _ _ _ He) as (Hex & _).
    pose proof (keeps_createRandomizedExam exam options
                  assignedExamsByUniqname student None Hd Ht _ _ _ He) as Hby.
    eauto.
  - right. exists ae, st1.
    destruct (frame_createRandomizedExam _ _ _ _ _ _ _ Hae) as (Hex & _).
    pose proof (keeps_createRandomizedExam exam options
                  assignedExamsByUniqname student None Hd Ht _ _ _ Hae) as Hby.
    split; [done|].
    split; [by apply (createRandomizedExam_student _ _ _ _ _ _ _ Hae)|].
    split; [by rewrite assignedExams_pushed, Hex|].
    split; [cbn; by rewrite Hby|].
    intros ae'. destruct (strict_eq _ _); congruence.
Qed.

(** A run appends to the assigned exams, one exam per student and in the
    order of the roster, up to the student at which it stops; the new exams
    have every property of the exams that [createRandomizedExam] builds. *)
Lemma assignExams_appends (P : AssignedExam -> Prop) students st r st' :
  (forall student, post (createRandomizedExam exam options student None) P) ->
  assignExams exam options students st = (r, st') ->
  exists new rest,
    assignedExams st' = assignedExams st ++ new
    /\ Forall P new
    /\ students = map ae_student new ++ rest
    /\ (r = Ok tt -> rest = []).
Proof.
  intros HP. revert st. induction students as [|s students IH]; intros st Hrun.
  - cbn in Hrun. inversion Hrun; subst. exists [], [].
    by rewrite app_nil_r.
  - rewrite assignExams_cons in Hrun.
    destruct (assignExam exam options s st) as [r1 st1] eqn:Hs.
    apply assignExam_collections in Hs
      as [(Hex & _ & e & ->)|(ae & st0 & Hae & Hstudent & Hex & _ & _)].
    + inversion Hrun; subst. exists [], (s :: students).
      rewrite Hex, app_nil_r. done.
    + apply HP in Hae. destruct r1 as [ae1|e].
      * apply IH in Hrun as (new & rest & Hex' & Hnew & -> & Hrest).
        exists (ae :: new), rest. rewrite Hex', Hex, <- app_assoc.
        cbn. rewrite Hstudent. split; [done|]. split; [|done].
        by constructor.
      * inversion Hrun; subst. exists [ae], students.
        split; [done|]. split; [|done]. by repeat constructor.
Qed.

Lemma exams_of_snoc u exams ae :
  exams_of u (exams ++ [ae])
  = exams_of u exams
    ++ (if String.eqb (uniqname (ae_student ae)) u then [ae] else []).
Proof. unfold exams_of. rewrite List.filter_app. reflexivity. Qed.

(** X3. However a run of [assignExams] ends, [assignedExamsByUniqname]
    maps every uniqname other than [__proto__] to the exam that was
    assigned last to a student with that uniqname, and holds no other key:
    a second assignment to the same uniqname replaces the entry while
    [assignedExams] keeps both exams. The exam of a student whose uniqname
    is [__proto__] becomes the prototype of the table and is no entry of
    it. *)
Theorem by_uniqname_holds_latest_exam students st r st' :
  assignExams exam options students st = (r, st') ->
  by_uniqname_latest st -> by_uniqname_latest st'.
Proof.
  revert st. induction students as [|s students IH]; intros st Hrun Hst.
  - cbn in Hrun. by inversion Hrun; subst.
  - rewrite assignExams_cons in Hrun.
    destruct (assignExam exam options s st) as [r1 st1] eqn:Hs.
    assert (by_uniqname_latest st1) as Hst1.
    { apply assignExam_collections in Hs
        as [(Hex & Hby & _)|(ae & st0 & _ & Hstudent & Hex & Hby & _)];
        intros u; rewrite Hex, Hby; [apply Hst|].
      rewrite exams_of_snoc, Hstudent, lookup_assign_property. unfold kept.
      destruct (String.eqb (uniqname s) u) eqn:Hu.
      - apply String.eqb_eq in Hu as <-. rewrite last_snoc.
        destruct (String.eqb (uniqname s) "__proto__") eqn:Hproto; [|done].
        specialize (Hst (uniqname s)). unfold kept in Hst.
        by rewrite Hproto in Hst.
      - rewrite app_nil_r.
        destruct (String.eqb (uniqname s) "__proto__"); apply Hst. }
    destruct r1 as [ae|e].
    + exact (IH _ Hrun Hst1).
    + by inversion Hrun; subst.
Qed.

(** X4. A run of [assignExams] only appends to [assignedExams]: the exams
    assigned before the run stay in place, and the new exams are exams of
    the generator's exam that belong, in order, to the students of a prefix
    of the roster, which is the whole roster when the run returns. So a run
    that throws leaves no exam for a student listed after the one at which
    it threw. *)
Theorem assignExams_appends_a_prefix students st r st' :
  assignExams exam options students st = (r, st') ->
  exists new rest,
    assignedExams st' = assignedExams st ++ new
    /\ Forall (fun ae => ae_exam ae = exam) new
    /\ students = map ae_student new ++ rest
    /\ (r = Ok tt -> rest = []).
Proof.
  apply assignExams_appends. intros student st0 ae st1 Hae.
  eapply (post_createRandomizedExam exam options
            (fun _ => True) (fun _ => True)) in Hae.
  - tauto.
  - apply post_true.
  - intros s i. eapply post_weaken; [apply post_true|].
    intros l _. apply Forall_forall. done.
Qed.

Lemma string_app_inj_r (s1 s2 t : string) : s1 +:+ t = s2 +:+ t -> s1 = s2.
Proof.
  revert s2. induction s1 as [|c s1 IH]; intros [|c2 s2] Heq.
  - reflexivity.
  - apply (f_equal String.length) in Heq.
    rewrite !string_length_app in Heq. cbn in Heq. lia.
  - apply (f_equal String.length) in Heq.
    rewrite !string_length_app in Heq. cbn in Heq. lia.
  - inversion Heq; subst. f_equal. by apply IH.
Qed.

(** X5. Under the [plain] strategy, a run of [assignExams] on a roster
    whose uniqnames are pairwise distinct, and distinct from the uniqnames
    of the students assigned before, leaves assigned exams with pairwise
    distinct uuids, however the run ends: no two students share an exam
    uuid. *)
Theorem plain_exam_uuids_distinct_across_students students st r st' :
  uuid_strategy options = plain ->
  assignExams exam options students st = (r, st') ->
  Forall (fun ae => ae_uuid ae
                    = uniqname (ae_student ae) +:+ "-" +:+ exam_id exam)
         (assignedExams st) ->
  NoDup (map uniqname (map ae_student (assignedExams st) ++ students)) ->
  NoDup (map ae_uuid (assignedExams st')).
Proof.
  intros Hplain Hrun Hst Hnodup.
  assert (forall student,
            post (createRandomizedExam exam options student None)
                 (fun ae => ae_uuid ae
                            = uniqname (ae_student ae) +:+ "-"
                              +:+ exam_id exam)) as Hbuilt.
  { intros student st0 ae st1 Hae.
    eapply (post_createRandomizedExam exam options
              (fun u => u = uniqname student +:+ "-" +:+ exam_id exam)
              (fun _ => True)) in Hae as (-> & -> & _).
    - reflexivity.
    - rewrite createStudentUuid_plain by done. by apply post_ret.
    - intros s i. eapply post_weaken; [apply post_true|].
      intros l _. apply Forall_forall. done. }
  destruct (assignExams_appends _ _ _ _ _ Hbuilt Hrun)
    as (new & rest & Hex & Hnew & -> & _).
  rewrite Hex.
  apply (NoDup_map_on ae_uuid (fun ae => uniqname (ae_student ae))
           (fun u => u +:+ "-" +:+ exam_id exam)).
  - intros x y. apply string_app_inj_r.
  - apply Forall_app. by split.
  - rewrite app_assoc, map_app in Hnodup. apply NoDup_app in Hnodup as [Hn _].
    by rewrite <- map_app, map_map in Hn.
Qed.

End RunsOfAssignExams.

(** ** The indices of the assignment tree *)

Lemma post_assert {St} (c : bool) (msg : string) :
  post (@assert St c msg) (fun _ => c = true).
Proof. intros st u st' Ha. by apply assert_Ok_inv in Ha as [-> _]. Qed.

Lemma post_and {St A} (m : M St A) (Q1 Q2 : A -> Prop) :
  post m Q1 -> post m Q2 -> post m (fun a => Q1 a /\ Q2 a).
Proof. intros H1 H2 st a st' Ha. split; [exact (H1 _ _ _ Ha)|exact (H2 _ _ _ Ha)]. Qed.

Lemma post_mapM_from_length {St A B} (f : A -> nat -> M St B) l :
  forall i, post (mapM_from i f l) (fun ys => length ys = length l).
Proof.
  induction l as [|x l IH]; intros i; cbn [mapM_from].
  - by apply post_ret.
  - eapply post_bind; [apply post_true|]. intros y _.
    eapply post_bind; [apply IH|]. intros ys Hys.
    apply post_ret. cbn. by rewrite Hys.
Qed.

(** A [flatMap] over callbacks that stamp their results with the index: the
    results are numbered in order when every callback returns one result. *)
Lemma post_mapM_from_numbered {St A B} (f : A -> nat -> M St (list B))
    (idx : B -> nat) (Q : B -> Prop) (single : Prop) l :
  (forall x i, post (f x i)
                    (fun ys => Forall (fun y => Q y /\ idx y = i) ys
                               /\ (single -> length ys = 1))) ->
  forall i, post (mapM_from i f l)
                 (fun ls => Forall Q (concat ls)
                            /\ (single -> map idx (concat ls)
                                          = seq i (length (concat ls)))).
Proof.
  intros Hf. induction l as [|x l IH]; intros i; cbn [mapM_from].
  - apply post_ret. cbn. split; [constructor|done].
  - eapply post_bind; [apply Hf|]. intros ys [Hys Hone].
    eapply post_bind; [apply IH|]. intros ls [Hls Hnum].
    apply post_ret. cbn [concat]. split.
    + apply Forall_app. split; [|done].
      eapply Forall_impl; [exact Hys|]. cbn. tauto.
    + intros Hsingle. specialize (Hone Hsingle). specialize (Hnum Hsingle).
      destruct ys as [|y [|y' ys]]; try discriminate.
      apply Forall_inv in Hys as [_ Hy]. cbn. by rewrite Hy, Hnum.
Qed.

Lemma post_flatMapM_idx_numbered {St A B} (f : A -> nat -> M St (list B))
    (idx : B -> nat) (Q : B -> Prop) (single : Prop) l :
  (forall x i, post (f x i)
                    (fun ys => Forall (fun y => Q y /\ idx y = i) ys
                               /\ (single -> length ys = 1))) ->
  post (flatMapM_idx f l)
       (fun ys => Forall Q ys
                  /\ (single -> map idx ys = seq 0 (length ys))).
Proof.
  intros Hf. unfold flatMapM_idx.
  eapply post_bind; [by apply (post_mapM_from_numbered f idx Q single)|].
  intros ls Hls. by apply post_ret.
Qed.

Section Indices.
Context `{JsNumber} `{Opaque} `{!Collaborators} `{UuidPackage}.
Variable exam : Exam.
Variable options : ExamGeneratorOptions.

Lemma one_without_duplicates (n : nat) :
  allow_duplicates options || (n =? 1)%nat = true ->
  allow_duplicates options = false -> n = 1.
Proof. intros Hc Hd. rewrite Hd in Hc. by apply Nat.eqb_eq in Hc. Qed.

Lemma post_createRandomizedQuestion_in_place q student sectionIndex partIndex
    sectionSkin rand :
  post (createRandomizedQuestion exam options q student sectionIndex partIndex
          sectionSkin rand)
       (fun l => Forall (fun aq => question_in_place exam student sectionIndex aq
                                   /\ aq_partIndex aq = partIndex) l
                 /\ (allow_duplicates options = false -> length l = 1)).
Proof.
  unfold createRandomizedQuestion.
  eapply post_bind; [apply post_true|]. intros chosen _.
  eapply post_bind; [apply post_true|]. intros skins _.
  eapply post_bind; [apply post_assert|]. intros u Hc.
  unfold newAssignedQuestions. apply post_and.
  - apply post_mapM. intros skin.
    eapply post_bind; [apply post_true|]. intros uuid _.
    by apply post_ret.
  - eapply post_weaken; [apply post_mapM_from_length|].
    intros l Hl Hd. cbn in Hl. rewrite Hl.
    by apply one_without_duplicates.
Qed.

Lemma post_createRandomizedSection_in_place s student sectionIndex rand
    skinRand :
  post (createRandomizedSection exam options s student sectionIndex rand
          skinRand)
       (fun l => Forall (fun a => (section_in_place exam student a
                                   /\ (allow_duplicates options = false ->
                                       parts_numbered a))
                                  /\ as_sectionIndex a = sectionIndex) l
                 /\ (allow_duplicates options = false -> length l = 1)).
Proof.
  unfold createRandomizedSection.
  eapply post_bind; [apply post_true|]. intros skins _.
  eapply post_bind; [apply post_assert|]. intros u Hc.
  unfold newAssignedSections. apply post_and.
  - apply post_with_local, post_mapM. intros skin.
    eapply post_bind; [apply post_true|]. intros uuid _.
    eapply post_bind; [apply post_true|]. intros questions _.
    eapply post_bind.
    { apply post_zoom_fst.
      apply (post_flatMapM_idx_numbered _ aq_partIndex
               (question_in_place exam student sectionIndex)
               (allow_duplicates options = false)).
      intros q i. apply post_createRandomizedQuestion_in_place. }
    intros assigned [Hplace Hnum]. by apply post_ret.
  - apply post_with_local.
    eapply post_weaken; [apply post_mapM_from_length|].
    intros l Hl Hd. cbn in Hl. rewrite Hl.
    by apply one_without_duplicates.
Qed.

(** X6. In every exam that [createRandomizedExam] builds, each assigned
    question carries the exam, the student, the [sectionIndex] of the
    assigned section that holds it, and an empty raw submission. When
    duplicates are not allowed, the indices are positions: the assigned
    sections are numbered from 0 in order by [sectionIndex], and the
    questions of each section from 0 in order by [partIndex]. *)
Theorem indices_are_positions student rand st ae st' :
  createRandomizedExam exam options student rand st = (Ok ae, st') ->
  ae_exam ae = exam /\ ae_student ae = student
  /\ Forall (section_in_place exam student) (ae_assignedSections ae)
  /\ (allow_duplicates options = false ->
      map as_sectionIndex (ae_assignedSections ae)
      = seq 0 (length (ae_assignedSections ae))
      /\ Forall parts_numbered (ae_assignedSections ae)).
Proof.
  intros Hae. apply createRandomizedExam_Ok_inv in Hae as (st1 & Hae & _).
  revert Hae. generalize (default (default_section_choice_rand exam options student) rand).
  intros rand' Hae. revert st ae st1 Hae.
  change (post (randomizedExam exam options student rand')
            (fun ae =>
               ae_exam ae = exam /\ ae_student ae = student
               /\ Forall (section_in_place exam student) (ae_assignedSections ae)
               /\ (allow_duplicates options = false ->
                   map as_sectionIndex (ae_assignedSections ae)
                   = seq 0 (length (ae_assignedSections ae))
                   /\ Forall parts_numbered (ae_assignedSections ae)))).
  unfold randomizedExam.
  eapply post_bind; [apply post_true|]. intros uuid _.
  eapply post_bind; [apply post_true|]. intros sections _.
  eapply post_bind.
  { apply (post_flatMapM_idx_numbered _ as_sectionIndex
             (fun a => section_in_place exam student a
                       /\ (allow_duplicates options = false ->
                           parts_numbered a))
             (allow_duplicates options = false)).
    intros s i. apply post_createRandomizedSection_in_place. }
  intros assigned [Hplace Hnum]. apply post_ret. cbn.
  split; [done|]. split; [done|]. split.
  - eapply Forall_impl; [exact Hplace|]. cbn. tauto.
  - intros Hd. split; [by apply Hnum|].
    eapply Forall_impl; [exact Hplace|]. cbn. intros a [_ Ha]. by apply Ha.
Qed.

End Indices.

(** ** The options that the constructor accepts *)

Section ConstructorAccepts.
Context `{JsNumber} `{Opaque} `{UuidPackage}.

Lemma namespace_given_iff (options : PartialOptions) :
  negb (bool_decide (p_uuid_strategy options = Some uuidv5))
  || truthy_string (p_uuidv5_namespace options) = true
  <-> (p_uuid_strategy options = Some uuidv5 ->
       exists ns, p_uuidv5_namespace options = Some ns /\ ns <> "").
Proof.
  destruct (decide (p_uuid_strategy options = Some uuidv5)) as [Hs|Hs].
  - rewrite bool_decide_eq_true_2 by done. cbn [negb orb].
    destruct (p_uuidv5_namespace options) as [ns|]; cbn [truthy_string].
    + rewrite negb_true_iff, String.eqb_neq. split.
      * intros Hne _. by exists ns.
      * intros Hn. destruct (Hn Hs) as (ns' & Hns' & Hne). congruence.
    + split; [discriminate|].
      intros Hn. destruct (Hn Hs) as (ns' & Hns' & _). discriminate.
  - rewrite bool_decide_eq_false_2 by done. cbn [negb orb]. by split.
Qed.

Lemma namespace_long_iff (options : PartialOptions) :
  negb (truthy_string (p_uuidv5_namespace options))
  || namespace_length_ok (p_uuidv5_namespace options) = true
  <-> (forall ns, p_uuidv5_namespace options = Some ns ->
       ns = "" \/ 16 <= String.length ns).
Proof.
  destruct (p_uuidv5_namespace options) as [ns|];
    cbn [truthy_string namespace_length_ok negb orb].
  - rewrite negb_involutive, orb_true_iff, String.eqb_eq, Nat.leb_le. split.
    + intros Hns ns' Hns'. by inversion Hns'; subst.
    + intros Hns. by apply Hns.
  - split; [|done]. intros _ ns Hns. discriminate.
Qed.

Lemma verifyOptions_Ok_iff (options : PartialOptions) :
  fst (verifyOptions options tt) = Ok tt
  <-> (p_uuid_strategy options = Some uuidv5 ->
       exists ns, p_uuidv5_namespace options = Some ns /\ ns <> "")
      /\ (forall ns, p_uuidv5_namespace options = Some ns ->
          ns = "" \/ 16 <= String.length ns).
Proof.
  rewrite <- namespace_given_iff, <- namespace_long_iff.
  unfold verifyOptions, bind.
  destruct (negb (bool_decide _) || _); cbn [assert ret throw fst].
  - destruct (negb (truthy_string _) || _); cbn [assert ret throw fst].
    + by split.
    + split; [discriminate|]. by intros [_ ?].
  - split; [discriminate|]. by intros [? _].
Qed.

Lemma constructor_Ok_iff (draws : nat) (exam : Exam)
    (options : PartialOptions) (g : ExamGenerator) :
  constructor draws exam options = Ok g
  <-> fst (verifyOptions options tt) = Ok tt
      /\ g = {| gen_exam := exam; gen_options := assign_defaults options;
                gen_state := initial_state draws |}.
Proof.
  unfold constructor.
  destruct (fst (verifyOptions options ())) as [[]|e]; cbn.
  - split; [intros Hg; by inversion Hg|]. by intros [_ ->].
  - split; [discriminate|]. by intros [? _].
Qed.

(** X7. The constructor returns a generator exactly when the options name a
    non-empty namespace if they select [uuidv5], and any non-empty namespace
    they name has 16 characters or more; the generator then holds the exam,
    the options over the defaults, and no assigned exam. So a namespace of
    1 to 15 characters is rejected under every strategy, also when the
    strategy is left to its default, and an empty namespace passes unless
    [uuidv5] is selected. *)
Theorem constructor_accepts_iff (draws : nat) (exam : Exam)
    (options : PartialOptions) (g : ExamGenerator) :
  constructor draws exam options = Ok g
  <-> ((p_uuid_strategy options = Some uuidv5 ->
        exists ns, p_uuidv5_namespace options = Some ns /\ ns <> "")
       /\ (forall ns, p_uuidv5_namespace options = Some ns ->
           ns = "" \/ 16 <= String.length ns))
      /\ g = {| gen_exam := exam; gen_options := assign_defaults options;
                gen_state := initial_state draws |}.
Proof. rewrite constructor_Ok_iff, verifyOptions_Ok_iff. reflexivity. Qed.

(** X8. A generator that the constructor returned never fails the
    assertion of [createStudentUuid]: when its strategy is [uuidv5], its
    options hold a namespace of 16 characters or more, and
    [createStudentUuid] returns what [v5] of the [uuid] package makes of
    [uniqname + "-" + id] under that namespace, without a draw from the
    random source. *)
Theorem constructed_generator_has_uuidv5_namespace (draws : nat) (exam : Exam)
    (options : PartialOptions) (g : ExamGenerator) :
  constructor draws exam options = Ok g ->
  uuid_strategy (gen_options g) = uuidv5 ->
  exists ns,
    uuidv5_namespace (gen_options g) = Some ns
    /\ 16 <= String.length ns
    /\ forall student id d,
         createStudentUuid (gen_options g) student id d
         = (uuid_v5 (uniqname student +:+ "-" +:+ id) ns, d).
Proof.
  intros Hg Hs.
  apply constructor_Ok_iff in Hg as [Hv ->]. cbn [gen_options] in *.
  assert (p_uuid_strategy options = Some uuidv5) as Hp.
  { cbn in Hs.
    destruct (p_uuid_strategy options) as [[]|]; by try discriminate. }
  apply verifyOptions_Ok_iff in Hv as [Hn Hlen].
  destruct (Hn Hp) as (ns & Hns & Hne). exists ns.
  split; [done|]. split.
  { by destruct (Hlen ns Hns). }
  intros student id d.
  by apply createStudentUuid_uuidv5.
Qed.

End ConstructorAccepts.

(** ** Manual grading assignments *)

Lemma slices_from_concat {A} (k : nat) :
  1 <= k -> forall fuel (l : list A),
  length l <= fuel -> concat (slices_from fuel k l) = l.
Proof.
  intros Hk. induction fuel as [|fuel IH]; intros l Hl.
  - destruct l; [done|]. cbn in Hl. lia.
  - destruct l as [|x l]; [done|]. cbn [slices_from concat].
    rewrite IH; [apply take_drop|].
    rewrite length_drop. cbn [length] in *. lia.
Qed.

Lemma ceil_div_step (k m : nat) :
  1 <= k -> 1 <= m -> (m + k - 1) / k = S ((m - k + k - 1) / k).
Proof.
  intros Hk Hm. destruct (le_lt_dec k m) as [Hle|Hlt].
  - replace (m + k - 1) with ((m - k + k - 1) + 1 * k) by lia.
    rewrite Nat.div_add by lia. lia.
  - replace (m - k + k - 1) with (k - 1) by lia.
    rewrite (Nat.div_small (k - 1)) by lia.
    symmetry. apply (Nat.div_unique _ _ _ (m - 1)); lia.
Qed.

Lemma slices_from_length {A} (k : nat) :
  1 <= k -> forall fuel (l : list A),
  length l <= fuel ->
  length (slices_from fuel k l) = (length l + k - 1) / k.
Proof.
  intros Hk. induction fuel as [|fuel IH]; intros l Hl.
  - destruct l; [|cbn in Hl; lia]. cbn [slices_from length Nat.add].
    rewrite Nat.div_small; lia.
  - destruct l as [|x l].
    + cbn [slices_from length Nat.add]. rewrite Nat.div_small; lia.
    + cbn [slices_from]. change (length (take k (x :: l) :: ?t)) with (S (length t)).
      rewrite IH by (rewrite length_drop; cbn [length] in *; lia).
      rewrite length_drop. rewrite (ceil_div_step k (length (x :: l))).
      * reflexivity.
      * done.
      * cbn [length]. lia.
Qed.

Lemma slices_from_sizes {A} (k : nat) :
  1 <= k -> forall fuel (l : list A),
  Forall (fun c => 1 <= length c <= k) (slices_from fuel k l).
Proof.
  intros Hk. induction fuel as [|fuel IH]; intros l; [constructor|].
  destruct l as [|x l]; [constructor|]. cbn [slices_from].
  constructor; [|apply IH].
  rewrite length_take. cbn [length]. lia.
Qed.

(** The chunk size that [rechunkGradingAssignments] computes for [n]
    chunks of a non-empty array is 1 or more, and cuts the array in [n]
    slices at most. *)
Lemma ceil_quotient_bounds (len : nat) (n : Z) :
  1 <= len -> (1 <= n)%Z ->
  exists k, Math_ceil_quotient len n = Finite (Z.of_nat k)
            /\ 1 <= k /\ (len + k - 1) / k <= Z.to_nat n.
Proof.
  intros Hlen Hn. unfold Math_ceil_quotient.
  destruct (Z.eqb_spec n 0) as [->|_]; [lia|].
  set (q := (- (- Z.of_nat len / n))%Z).
  assert (Z.of_nat len <= q * n /\ 1 <= q)%Z as [Hq1 Hq2].
  { unfold q. pose proof (Z.div_mod (- Z.of_nat len) n ltac:(lia)) as Hd.
    pose proof (Z.mod_pos_bound (- Z.of_nat len) n ltac:(lia)) as Hm.
    split; [nia|].
    assert (- Z.of_nat len / n < 0)%Z; [|lia].
    apply Z.div_lt_upper_bound; lia. }
  exists (Z.to_nat q). rewrite Z2Nat.id by lia.
  split; [done|]. split; [lia|].
  assert (len <= Z.to_nat q * Z.to_nat n) as Hle by nia.
  apply Nat.lt_succ_r, Nat.Div0.div_lt_upper_bound. nia.
Qed.

(** A projection of the items that [imap] builds: one that leaves the index
    out, and one that reads the index only. *)
Lemma map_imap_apart {A B C} (g : B -> C) (h : A -> C) (f : nat -> A -> B) l :
  (forall i x, g (f i x) = h x) -> map g (imap f l) = map h l.
Proof.
  revert f. induction l as [|x l IH]; intros f Hf; [done|].
  cbn. rewrite Hf. f_equal. apply IH. intros i y. apply Hf.
Qed.

Lemma map_imap_index {A B C} (g : B -> C) (k : nat -> C) (f : nat -> A -> B) l :
  (forall i x, g (f i x) = k i) -> map g (imap f l) = map k (seq 0 (length l)).
Proof.
  revert f k. induction l as [|x l IH]; intros f k Hf; [done|].
  cbn. rewrite Hf. f_equal. rewrite <- seq_shift, map_map.
  apply IH. intros i y. apply Hf.
Qed.

Section GradingProperties.
Context `{GradingCollaborators} `{ChunkPackage}.

Lemma getAssnIds_Ok assns ids u u' :
  getAssnIds assns u = (Ok ids, u') ->
  exists first,
    head assns = Some first
    /\ ids = (assn_exam_id first, assn_question_id first)
    /\ Forall (fun assn => assn_exam_id assn = assn_exam_id first
                           /\ assn_question_id assn = assn_question_id first)
              assns.
Proof.
  unfold getAssnIds. destruct assns as [|first assns]; [discriminate|].
  intros Hr.
  apply bind_Ok_inv in Hr as ([] & u1 & He & Hr).
  apply bind_Ok_inv in Hr as ([] & u2 & Hq & Hr).
  inversion Hr; subst. exists first. split; [done|]. split; [done|].
  apply assert_Ok_inv in He as [He _]. apply assert_Ok_inv in Hq as [Hq _].
  rewrite forallb_forall in He. rewrite forallb_forall in Hq.
  apply Forall_forall. intros assn Hin. apply list_elem_of_In in Hin.
  split; apply String.eqb_eq; auto.
Qed.

Lemma rename_groups_submissions (groups : list GradingGroup) :
  map group_submissions (rename_groups groups) = map group_submissions groups.
Proof. by apply map_imap_apart. Qed.

Lemma rename_groups_results (groups : list GradingGroup) :
  map (fun g => (group_representative_index g, group_grading_result g))
      (rename_groups groups)
  = map (fun g => (group_representative_index g, group_grading_result g))
        groups.
Proof. by apply map_imap_apart. Qed.

Lemma rename_groups_names (groups : list GradingGroup) :
  map group_name (rename_groups groups)
  = map (fun i => "group_" +:+ pretty i) (seq 0 (length groups)).
Proof. by apply map_imap_index. Qed.

Lemma groups_of_chunks (exam_id question_id : string)
    (chunks : list (list GradingGroup)) :
  flat_map assn_groups
    (map (fun c => {| assn_exam_id := exam_id; assn_question_id := question_id;
                      assn_groups := c; assn_name := None |}) chunks)
  = concat chunks.
Proof. induction chunks as [|c chunks IH]; [done|]. cbn. by rewrite IH. Qed.

Lemma rechunk_Ok_inv assns numChunks u out u' :
  rechunkGradingAssignments assns numChunks u = (Ok out, u') ->
  exists first n chunks,
    head assns = Some first /\ numChunks = WholeNumber n
    /\ Forall (fun assn => assn_exam_id assn = assn_exam_id first
                           /\ assn_question_id assn = assn_question_id first)
              assns
    /\ chunk (rename_groups (flat_map assn_groups assns))
             (Math_ceil_quotient (length (flat_map assn_groups assns)) n)
       = Ok chunks
    /\ out = map (fun c => {| assn_exam_id := assn_exam_id first;
                              assn_question_id := assn_question_id first;
                              assn_groups := c; assn_name := None |})
                 chunks.
Proof.
  unfold rechunkGradingAssignments. intros Hr.
  apply bind_Ok_inv in Hr as ([] & u1 & _ & Hr).
  apply bind_Ok_inv in Hr as ([] & u2 & _ & Hr).
  apply bind_Ok_inv in Hr as (ids & u3 & Hids & Hr).
  apply getAssnIds_Ok in Hids as (first & Hfirst & -> & Hall).
  destruct numChunks as [n|]; [|discriminate].
  apply bind_Ok_inv in Hr as (chunks & u4 & Hc & Hr).
  exists first, n, chunks.
  unfold liftR in Hc. injection Hc as Hchunk Hu.
  unfold rename_groups in Hchunk at 2. rewrite length_imap in Hchunk.
  unfold ret in Hr. injection Hr as <- _.
  split; [done|]. split; [done|]. split; [done|]. split; [done|].
  reflexivity.
Qed.

Lemma getAssnIds_same_ids first assns u :
  Forall (fun assn => assn_exam_id assn = assn_exam_id first
                      /\ assn_question_id assn = assn_question_id first)
         (first :: assns) ->
  getAssnIds (first :: assns) u
  = (Ok (assn_exam_id first, assn_question_id first), u).
Proof.
  intros Hall. unfold getAssnIds.
  assert (forallb (fun assn => String.eqb (assn_exam_id assn) (assn_exam_id first))
                  (first :: assns) = true) as ->.
  { apply forallb_forall. intros assn Hin. apply list_elem_of_In in Hin.
    rewrite Forall_forall in Hall. apply String.eqb_eq. by apply Hall. }
  assert (forallb (fun assn => String.eqb (assn_question_id assn)
                                 (assn_question_id first))
                  (first :: assns) = true) as ->.
  { apply forallb_forall. intros assn Hin. apply list_elem_of_In in Hin.
    rewrite Forall_forall in Hall. apply String.eqb_eq. by apply Hall. }
  reflexivity.
Qed.

Lemma rechunk_Ok first assns n chunks u :
  Forall (fun assn => assn_exam_id assn = assn_exam_id first
                      /\ assn_question_id assn = assn_question_id first)
         (first :: assns) ->
  chunk (rename_groups (flat_map assn_groups (first :: assns)))
        (Math_ceil_quotient (length (flat_map assn_groups (first :: assns))) n)
  = Ok chunks ->
  rechunkGradingAssignments (first :: assns) (WholeNumber n) u
  = (Ok (map (fun c => {| assn_exam_id := assn_exam_id first;
                          assn_question_id := assn_question_id first;
                          assn_groups := c; assn_name := None |})
             chunks), u).
Proof.
  intros Hall Hchunk. unfold rechunkGradingAssignments.
  cbn [length Nat.ltb Nat.leb is_integer assert].
  rewrite (bind_Ok (ret tt) _ u tt u eq_refl).
  rewrite (bind_Ok (ret tt) _ u tt u eq_refl).
  rewrite (bind_Ok _ _ u _ u (getAssnIds_same_ids first assns u Hall)).
  unfold rename_groups at 2. rewrite length_imap, Hchunk.
  reflexivity.
Qed.

(** X9. When [rechunkGradingAssignments] returns, all the assignments given
    had the exam id and the question id of the first one, and so has every
    assignment returned; the groups of the assignments returned are, in
    order, the groups of the assignments given, with their submissions,
    representatives and grading results as they were, and renamed,
    [group_0], [group_1], and so on across the assignments, given that the
    chunks that [chunk] returns are the array cut in pieces. The names of
    the assignments given are not carried over. *)
Theorem rechunk_keeps_every_group assns numChunks u out u' :
  chunk_cuts_in_order ->
  rechunkGradingAssignments assns numChunks u = (Ok out, u') ->
  exists first,
    head assns = Some first
    /\ Forall (fun assn => assn_exam_id assn = assn_exam_id first
                           /\ assn_question_id assn = assn_question_id first)
              assns
    /\ Forall (fun assn => assn_exam_id assn = assn_exam_id first
                           /\ assn_question_id assn = assn_question_id first
                           /\ assn_name assn = None)
              out
    /\ map group_submissions (flat_map assn_groups out)
       = map group_submissions (flat_map assn_groups assns)
    /\ map (fun g => (group_representative_index g, group_grading_result g))
           (flat_map assn_groups out)
       = map (fun g => (group_representative_index g, group_grading_result g))
             (flat_map assn_groups assns)
    /\ map group_name (flat_map assn_groups out)
       = map (fun i => "group_" +:+ pretty i)
             (seq 0 (length (flat_map assn_groups assns))).
Proof.
  intros Hchunk Hr.
  apply rechunk_Ok_inv in Hr as (first & n & chunks & Hfirst & -> & Hall & Hc & ->).
  apply Hchunk in Hc. exists first. split; [done|]. split; [done|].
  rewrite groups_of_chunks, Hc.
  split.
  { apply Forall_forall. intros assn Hin.
    apply list_elem_of_In, in_map_iff in Hin as (c & <- & _). done. }
  split; [apply rename_groups_submissions|].
  split; [apply rename_groups_results|apply rename_groups_names].
Qed.

(** X10. For a non-empty array of assigned questions and a whole number of
    chunks of 1 or more, [createGradingAssignments] returns, given that
    [chunk] cuts an array in consecutive slices of the chunk size: it
    returns at least one and at most [numChunks] assignments, none of them
    empty, all with the exam id and the question id of the first assigned
    question, and their groups are, in the order of the array, one group
    per assigned question, which holds the one submission of that
    question and is its own representative. *)
Theorem createGradingAssignments_one_group_per_question
    (first : AssignedQuestion) (aqs : list AssignedQuestion) (n : Z) u :
  chunk_slices ->
  (1 <= n)%Z ->
  exists out,
    createGradingAssignments (first :: aqs) (WholeNumber n) u = (Ok out, u)
    /\ 1 <= length out <= Z.to_nat n
    /\ Forall (fun assn => assn_exam_id assn = exam_id (aq_exam first)
                           /\ assn_question_id assn
                              = question_id (aq_question first)
                           /\ assn_groups assn <> [])
              out
    /\ map (fun g => (map gs_question_uuid (group_submissions g),
                      group_representative_index g))
           (flat_map assn_groups out)
       = map (fun aq => ([aq_uuid aq], 0)) (first :: aqs).
Proof.
  intros Hchunk Hn. unfold createGradingAssignments.
  cbn [length Nat.ltb Nat.leb assert].
  rewrite (bind_Ok (ret tt) _ u tt u eq_refl).
  set (groups := imap _ (first :: aqs)).
  set (initialAssn := {| assn_exam_id := exam_id (aq_exam first);
                         assn_groups := groups |}).
  assert (flat_map assn_groups [initialAssn] = groups) as Hgroups.
  { change (groups ++ [] = groups). apply app_nil_r. }
  assert (length groups = S (length aqs)) as Hlen.
  { unfold groups. by rewrite length_imap. }
  destruct (ceil_quotient_bounds (length groups) n) as (k & Hk & Hk1 & Hkn);
    [lia|done|].
  eexists. split.
  { apply rechunk_Ok; [by repeat constructor|].
    rewrite Hgroups, Hk. apply Hchunk. lia. }
  rewrite Nat2Z.id. unfold slices.
  assert (length (rename_groups groups) = length groups) as Hrl.
  { unfold rename_groups. apply length_imap. }
  rewrite Hrl. split.
  { rewrite length_map, slices_from_length, Hrl by lia. split; [|done].
    apply Nat.div_le_lower_bound; lia. }
  split.
  { apply Forall_forall. intros assn Hin.
    apply list_elem_of_In, in_map_iff in Hin as (c & <- & Hin).
    cbn. split; [done|]. split; [done|].
    pose proof (slices_from_sizes k Hk1 (length groups) (rename_groups groups))
      as Hsizes.
    rewrite Forall_forall in Hsizes. apply list_elem_of_In in Hin.
    apply Hsizes in Hin. destruct c; [cbn in Hin; lia|done]. }
  rewrite groups_of_chunks, slices_from_concat by lia.
  unfold rename_groups. rewrite (map_imap_apart _
    (fun g => (map gs_question_uuid (group_submissions g),
               group_representative_index g))) by done.
  unfold groups. by apply map_imap_apart.
Qed.

Lemma forallb_Exists_false {A} (f : A -> bool) (l : list A) :
  Exists (fun x => f x = false) l -> forallb f l = false.
Proof.
  induction 1 as [x l Hx|x l _ IH]; cbn.
  - by rewrite Hx.
  - rewrite IH. apply andb_false_r.
Qed.

(** X11. The checks of the grading assignments, in the order in which they
    fire: [createGradingAssignments] rejects an empty array of assigned
    questions; [rechunkGradingAssignments] rejects an empty array of
    assignments, then a number of chunks that is not an integer, then
    assignments that do not all have the exam id of the first one, then
    assignments that do not all have its question id. *)
Theorem grading_assignment_checks :
  (forall numChunks u,
     createGradingAssignments [] numChunks u
     = (Err (AssertionFailed msg_no_questions), u))
  /\ (forall numChunks u,
        rechunkGradingAssignments [] numChunks u
        = (Err (AssertionFailed msg_no_assignments), u))
  /\ (forall first assns u,
        rechunkGradingAssignments (first :: assns) OtherNumber u
        = (Err (AssertionFailed msg_not_an_integer), u))
  /\ (forall first assns n u,
        Exists (fun assn => assn_exam_id assn <> assn_exam_id first) assns ->
        rechunkGradingAssignments (first :: assns) (WholeNumber n) u
        = (Err (AssertionFailed msg_other_exam_id), u))
  /\ (forall first assns n u,
        Forall (fun assn => assn_exam_id assn = assn_exam_id first) assns ->
        Exists (fun assn => assn_question_id assn <> assn_question_id first)
               assns ->
        rechunkGradingAssignments (first :: assns) (WholeNumber n) u
        = (Err (AssertionFailed msg_other_question_id), u)).
Proof.
  split; [done|]. split; [done|]. split; [done|]. split.
  - intros first assns n u Hex. unfold rechunkGradingAssignments.
    cbn [length Nat.ltb Nat.leb is_integer assert].
    rewrite (bind_Ok (ret tt) _ u tt u eq_refl).
    rewrite (bind_Ok (ret tt) _ u tt u eq_refl).
    apply bind_Err. unfold getAssnIds. apply bind_Err.
    rewrite forallb_Exists_false; [done|].
    apply Exists_cons_tl. eapply Exists_impl; [exact Hex|].
    intros assn Hne. by apply String.eqb_neq.
  - intros first assns n u Hall Hex. unfold rechunkGradingAssignments.
    cbn [length Nat.ltb Nat.leb is_integer assert].
    rewrite (bind_Ok (ret tt) _ u tt u eq_refl).
    rewrite (bind_Ok (ret tt) _ u tt u eq_refl).
    apply bind_Err. unfold getAssnIds.
    assert (forallb (fun assn => String.eqb (assn_exam_id assn)
                                   (assn_exam_id first))
                    (first :: assns) = true) as ->.
    { apply forallb_forall. intros assn Hin. apply String.eqb_eq.
      destruct Hin as [<-|Hin]; [done|].
      rewrite Forall_forall in Hall. by apply Hall, list_elem_of_In. }
    cbn [assert]. rewrite (bind_Ok (ret tt) _ u tt u eq_refl).
    apply bind_Err.
    rewrite forallb_Exists_false; [done|].
    apply Exists_cons_tl. eapply Exists_impl; [exact Hex|].
    intros assn Hne. by apply String.eqb_neq.
Qed.

End GradingProperties.

(** ** Rosters with a missing column *)

Section RosterColumns.
Context `{RosterFiles}.

Lemma not_empty_string_iff (x : option string) :
  not_empty_string x = true <-> x <> Some "".
Proof.
  destruct x as [s|]; cbn; [|done].
  rewrite negb_true_iff, String.eqb_neq. split; congruence.
Qed.

Lemma forEach_checkRosterRow_Ok_iff rows :
  fst (forEach checkRosterRow rows tt) = Ok tt
  <-> Forall (fun row => row_uniqname row <> Some ""
                         /\ row_name row <> Some "") rows.
Proof.
  induction rows as [|row rows IH]; cbn [forEach].
  - split; [constructor|done].
  - rewrite Forall_cons, <- IH, <- !not_empty_string_iff.
    unfold bind, checkRosterRow at 1, bind.
    destruct (not_empty_string (row_uniqname row)),
             (not_empty_string (row_name row)); cbn;
      (split; [try discriminate; tauto|]);
      try tauto; intros [[? ?] _]; discriminate.
Qed.

(** X12. [loadCSVRoster] returns the parsed rows exactly when the file can
    be read and no row has the empty string as its uniqname or as its name.
    A row that has no uniqname or no name at all, as every row of a file
    whose header lacks the column, passes the check. *)
Theorem loadCSVRoster_accepts_iff filename rows :
  loadCSVRoster filename = Ok rows
  <-> exists text,
        readFileSync filename = Ok text
        /\ Papa_parse_data text = rows
        /\ Forall (fun row => row_uniqname row <> Some ""
                              /\ row_name row <> Some "") rows.
Proof.
  unfold loadCSVRoster. destruct (readFileSync filename) as [text|e]; cbn.
  - pose proof (forEach_checkRosterRow_Ok_iff (Papa_parse_data text)) as Hiff.
    destruct (fst (forEach checkRosterRow (Papa_parse_data text) ()))
      as [[]|e]; cbn.
    + split.
      * intros Hr. inversion Hr; subst. exists text.
        split; [done|]. split; [done|]. by apply Hiff.
      * intros (text' & Ht & <- & _). by inversion Ht; subst.
    + split; [discriminate|].
      intros (text' & Ht & <- & Hall). inversion Ht; subst.
      apply Hiff in Hall. discriminate.
  - split; [discriminate|]. intros (text & Ht & _). discriminate.
Qed.

End RosterColumns.

(** ** Specification files that hold a [null] *)

Section NullInSpecification.
Context `{RegExpBuiltin}.

Lemma internalize_members_null (props : list (string * value)) :
  Forall (fun p => contains_null (snd p) = true ->
                   forall key, exists e,
                     InternalizeJSONProperty load_reviver key (snd p) = Err e)
         props ->
  existsb (fun p => contains_null (snd p)) props = true ->
  exists e,
    internalize_members
      (fun k x => InternalizeJSONProperty load_reviver k x) props
    = Err e.
Proof.
  intros IH Hnull.
  induction IH as [|[k x] props Hx _ IHprops]; [discriminate|].
  cbn [existsb snd] in Hnull. cbn [internalize_members].
  destruct (contains_null x) eqn:Hcx.
  - destruct (Hx Hcx k) as [e He]. cbn [snd] in He. rewrite He.
    by eexists.
  - destruct (InternalizeJSONProperty load_reviver k x) as [x'|e];
      cbn [rbind]; [|by eexists].
    destruct (IHprops Hnull) as [e ->]. by eexists.
Qed.

Lemma internalize_null v :
  contains_null v = true ->
  forall key, exists e, InternalizeJSONProperty load_reviver key v = Err e.
Proof.
  induction v as [| |b|n|x|s|source flags|items IH|props IH|class props IH]
    using value_ind_nested; intros Hnull key; try discriminate.
  - eexists. apply load_reviver_null.
  - cbn [InternalizeJSONProperty].
    assert (exists e,
              internalize_elements
                (fun k x => InternalizeJSONProperty load_reviver k x)
                0%nat items = Err e) as [e ->]; [|by eexists].
    cbn [contains_null] in Hnull. generalize 0%nat.
    induction IH as [|x items Hx _ IHitems]; intros i; [discriminate|].
    cbn [existsb] in Hnull. cbn [internalize_elements].
    destruct (contains_null x) eqn:Hcx.
    + destruct (Hx eq_refl (pretty i)) as [e ->]. by eexists.
    + destruct (InternalizeJSONProperty load_reviver (pretty i) x) as [x'|e];
        cbn [rbind]; [|by eexists].
      destruct (IHitems Hnull (S i)) as [e ->]. by eexists.
  - cbn [InternalizeJSONProperty].
    destruct (internalize_members_null props IH Hnull) as [e ->].
    by eexists.
  - cbn [InternalizeJSONProperty].
    destruct (internalize_members_null props IH Hnull) as [e ->].
    by eexists.
Qed.

(** X13. A specification file whose JSON text is parsed into a value
    that holds a [null], at any depth, cannot be loaded:
    [loadExamSpecification] throws and leaves the files as they are. The
    reviver reads a property of every value of type "object", and [null] is
    one. Where an object of the text repeats a key, the last member is the
    one that is parsed, so a [null] in an earlier member is not held. *)
Theorem loadExamSpecification_rejects_null (fs : gmap string file_content)
    filename text :
  fs !! filename = Some (JsonText text) ->
  contains_null (value_of_json text) = true ->
  exists e, loadExamSpecification filename fs = (Err e, fs).
Proof.
  intros Hfile Hnull. unfold loadExamSpecification, bind, get.
  rewrite Hfile. unfold liftR, JSON_parse.
  destruct (internalize_null _ Hnull "") as [e ->]. by exists e.
Qed.


End NullInSpecification.

(** ** The overview of a multiple-choice question *)

Lemma foldl_alter_lookup (l : list nat) : forall (hist : list nat) i,
  foldl (fun hist c => alter S c hist) hist l !! i
  = (fun n => n + count_occ Nat.eq_dec l i) <$> hist !! i.
Proof.
  induction l as [|c l IH]; intros hist i; cbn [foldl count_occ].
  - destruct (hist !! i); cbn; [f_equal; lia|done].
  - rewrite IH. destruct (Nat.eq_dec c i) as [->|Hne].
    + rewrite list_lookup_alter_eq. destruct (hist !! i); cbn; [f_equal; lia|done].
    + by rewrite list_lookup_alter_ne.
Qed.

Lemma foldl_alter_length (l : list nat) : forall (hist : list nat),
  length (foldl (fun hist c => alter S c hist) hist l) = length hist.
Proof.
  induction l as [|c l IH]; intros hist; cbn [foldl]; [done|].
  by rewrite IH, length_alter.
Qed.

Lemma sum_list_alter_S (hist : list nat) c :
  c < length hist -> sum_list (alter S c hist) = S (sum_list hist).
Proof.
  revert c. induction hist as [|n hist IH]; intros c Hc; [cbn in Hc; lia|].
  destruct c as [|c]; cbn; [done|].
  rewrite IH by (cbn in Hc; lia). lia.
Qed.

Lemma foldl_alter_sum (l : list nat) : forall (hist : list nat),
  Forall (fun c => c < length hist) l ->
  sum_list (foldl (fun hist c => alter S c hist) hist l)
  = sum_list hist + length l.
Proof.
  induction l as [|c l IH]; intros hist Hl; cbn [foldl length]; [lia|].
  apply Forall_cons in Hl as [Hc Hl].
  rewrite IH by (by rewrite length_alter).
  rewrite sum_list_alter_S by done. lia.
Qed.

Lemma selection_histogram_length choices :
  length (selection_histogram choices)
  = match choices with [] => 0 | _ :: _ => S (max_list choices) end.
Proof.
  unfold selection_histogram. rewrite foldl_alter_length.
  destruct choices; [done|]. by rewrite length_replicate.
Qed.

Lemma selection_histogram_lookup choices i :
  i < length (selection_histogram choices) ->
  selection_histogram choices !! i = Some (count_occ Nat.eq_dec choices i).
Proof.
  rewrite selection_histogram_length. intros Hi. unfold selection_histogram.
  rewrite foldl_alter_lookup. destruct choices as [|c choices]; [lia|].
  by rewrite lookup_replicate_2.
Qed.

Lemma selection_histogram_sum choices :
  sum_list (selection_histogram choices) = length choices.
Proof.
  unfold selection_histogram. rewrite foldl_alter_sum.
  - destruct choices as [|c choices]; [done|].
    rewrite sum_list_replicate. lia.
  - destruct choices as [|c choices]; [constructor|].
    rewrite length_replicate. apply Forall_forall. intros x Hx.
    apply max_list_elem_of_le in Hx. lia.
Qed.

Section Overview.
Context `{JsNumber} `{Opaque} `{!OverviewCollaborators}.
Variable correctIndex : nat.

Lemma nonBlank_cons sub subs :
  nonBlank (sub :: subs)
  = match sub with
    | MC_selected (c :: l) => (c :: l) :: nonBlank subs
    | _ => nonBlank subs
    end.
Proof. by destruct sub as [|[|c l]]. Qed.

(** The selections that the overview counts, when every assigned question
    has one selection at most. *)
Lemma selections_counted (aqs : list MCAssignedQuestion) :
  forallb (fun sub => (length sub =? 1)%nat) (nonBlank (map mc_submission aqs))
  = true ->
  (forall i, count_occ Nat.eq_dec
               (omap head (nonBlank (map mc_submission aqs))) i
             = times_selected i aqs)
  /\ length (omap head (nonBlank (map mc_submission aqs))) + unanswered aqs
     = length aqs
  /\ Forall (fun aq =>
               forall u,
                 grade correctIndex aq u
                 = (Ok (if bool_decide (mc_submission aq
                                        = MC_selected [correctIndex])
                        then question_pointsPossible (mc_question aq)
                        else num_zero), u))
            aqs.
Proof.
  unfold times_selected, unanswered.
  induction aqs as [|aq aqs IH]; intros Hone.
  - split; [done|]. split; [done|]. constructor.
  - cbn [map] in *. rewrite nonBlank_cons in *.
    cbn [List.filter].
    destruct (mc_submission aq) as [|[|c [|d sub]]] eqn:Hsub.
    + destruct (IH Hone) as (C1 & C2 & C3).
      rewrite bool_decide_eq_true_2 by (by left).
      split.
      { intros i. rewrite bool_decide_eq_false_2 by done. apply C1. }
      split; [cbn [length]; lia|].
      constructor; [|done]. intros u. unfold grade. rewrite Hsub.
      by rewrite bool_decide_eq_false_2.
    + destruct (IH Hone) as (C1 & C2 & C3).
      rewrite bool_decide_eq_true_2 by (by right).
      split.
      { intros i. rewrite bool_decide_eq_false_2 by done. apply C1. }
      split; [cbn [length]; lia|].
      constructor; [|done]. intros u. unfold grade. rewrite Hsub.
      by rewrite bool_decide_eq_false_2.
    + cbn [forallb length Nat.eqb andb] in Hone.
      destruct (IH Hone) as (C1 & C2 & C3).
      rewrite bool_decide_eq_false_2 by (intros [?|?]; discriminate).
      change (omap head ([c] :: ?l)) with (c :: omap head l).
      split.
      { intros i. cbn [count_occ]. destruct (Nat.eq_dec c i) as [->|Hne].
        - rewrite bool_decide_eq_true_2 by done. cbn [length]. by rewrite C1.
        - rewrite bool_decide_eq_false_2 by congruence. apply C1. }
      split; [cbn [length]; lia|].
      constructor; [|done]. intros u. unfold grade. rewrite Hsub. cbn.
      destruct (Nat.eqb_spec c correctIndex) as [->|Hne].
      * by rewrite bool_decide_eq_true_2.
      * rewrite bool_decide_eq_false_2; [done|]. congruence.
    + cbn [forallb length Nat.eqb andb] in Hone. discriminate.
Qed.

(** X14. When [renderOverview] returns, every assigned question has one
    selection at most, so that [grade] returns for each of them, with the
    points of the question for the selection [correctIndex] and 0 otherwise;
    the overview shows one row per index up to the largest selection, whose
    count is the number of assigned questions with that selection, and a
    last row with the number of assigned questions without a selection; the
    counts add up to the number of assigned questions. *)
Theorem overview_counts_every_submission (aqs : list MCAssignedQuestion)
    u html u' :
  renderOverview correctIndex aqs u = (Ok html, u') ->
  exists first hist options,
    head aqs = Some first
    /\ (forall i count, hist !! i = Some count -> count = times_selected i aqs)
    /\ (forall i, 0 < times_selected i aqs -> i < length hist)
    /\ sum_list hist + unanswered aqs = length aqs
    /\ overview_options correctIndex (mc_question first) 0 hist = Ok options
    /\ html = line_break +:+ "      " +:+ String.concat "" options
              +:+ line_break +:+ "      "
              +:+ "<div class=" +:+ dquote +:+ "examma-ray-mc-option"
              +:+ dquote +:+ ">" +:+ renderNumBadge (unanswered aqs)
              +:+ " " +:+ RED_X_ICON +:+ " BLANK</div>" +:+ line_break
              +:+ "    "
    /\ Forall (fun aq =>
                 forall u,
                   grade correctIndex aq u
                   = (Ok (if bool_decide (mc_submission aq
                                          = MC_selected [correctIndex])
                          then question_pointsPossible (mc_question aq)
                          else num_zero), u))
              aqs.
Proof.
  unfold renderOverview. destruct aqs as [|first aqs]; [discriminate|].
  set (all := first :: aqs). intros Hr.
  apply bind_Ok_inv in Hr as ([] & u1 & Hone & Hr).
  apply assert_Ok_inv in Hone as [Hone ->].
  apply bind_Ok_inv in Hr as (options & u2 & Hopts & Hr).
  unfold liftR in Hopts. injection Hopts as Hopts _.
  unfold ret in Hr. injection Hr as <- _.
  destruct (selections_counted all Hone) as (Hcount & Hlen & Hgrade).
  exists first, (selection_histogram
                   (omap head (nonBlank (map mc_submission all)))), options.
  split; [done|]. split.
  { intros i count Hi. pose proof (lookup_lt_Some _ _ _ Hi) as Hlt.
    rewrite selection_histogram_lookup in Hi by done.
    rewrite Hcount in Hi. congruence. }
  split.
  { intros i Hi. rewrite <- Hcount in Hi.
    rewrite selection_histogram_length.
    destruct (omap head (nonBlank (map mc_submission all))) as [|c l] eqn:Hl;
      [cbn in Hi; lia|].
    apply count_occ_In, list_elem_of_In, max_list_elem_of_le in Hi. lia. }
  split; [by rewrite selection_histogram_sum|].
  split; [done|]. split; [|done].
  assert (unanswered all
          = length (map mc_submission all)
            - length (nonBlank (map mc_submission all))) as ->;
    [|reflexivity].
  assert (length (nonBlank (map mc_submission all))
          = length (omap head (nonBlank (map mc_submission all)))) as ->.
  { revert Hone. generalize (nonBlank (map mc_submission all)).
    induction l as [|[|c l0] l IHl]; cbn [forallb]; intros Hl;
      [done|discriminate|].
    apply andb_true_iff in Hl as [_ Hl].
    change (omap head ((c :: l0) :: l)) with (c :: omap head l).
    cbn [length]. by rewrite IHl. }
  rewrite length_map. lia.
Qed.

End Overview.

(** ** Submissions that cannot be loaded *)

Lemma omap_Ok_Err_length {A B C} (load : A -> result B) (w : A -> C) l :
  length (omap (fun x => match load x with
                         | Ok b => Some b
                         | Err _ => None
                         end) l)
  + length (omap (fun x => match load x with
                           | Ok _ => None
                           | Err _ => Some (w x)
                           end) l)
  = length l.
Proof.
  induction l as [|x l IH]; [done|]. cbn. destruct (load x); cbn; lia.
Qed.

Section TrustedSubmissions.
Context `{SubmissionCollaborators} `{PathModule}.
Variable fs : gmap string file_content.

Lemma forEach_loadOrWarn manifestDirectory submittedDirectory filenames :
  forall trusted console,
  forEach (loadOrWarn fs manifestDirectory submittedDirectory) filenames
          (trusted, console)
  = (Ok tt,
     (trusted
      ++ omap (fun filename =>
                 match loadTrustedSubmission fs manifestDirectory
                         (path_join [submittedDirectory; filename]) with
                 | Ok trustedSub => Some trustedSub
                 | Err _ => None
                 end) filenames,
      console
      ++ omap (fun filename =>
                 match loadTrustedSubmission fs manifestDirectory
                         (path_join [submittedDirectory; filename]) with
                 | Ok _ => None
                 | Err _ => Some (msg_unable_to_open filename)
                 end) filenames)).
Proof.
  induction filenames as [|filename filenames IH]; intros trusted console.
  - cbn. by rewrite !app_nil_r.
  - cbn [forEach]. unfold bind, loadOrWarn at 1. cbn [fst snd omap].
    unfold omap, list_omap. fold (@list_omap).
    destruct (loadTrustedSubmission fs manifestDirectory
                (path_join [submittedDirectory; filename])) as [t|e].
    + rewrite IH. by rewrite <- app_assoc.
    + rewrite IH. by rewrite <- app_assoc.
Qed.

(** X15. [loadTrustedSubmissions] throws only if the directory of the
    submissions cannot be listed. Otherwise it returns the trusted
    submissions of the files that [loadTrustedSubmission] could load, in the
    order of the listing, and writes one warning to the console for each
    file that it could not load, whatever the reason; every file gives a
    submission or a warning. *)
Theorem loadTrustedSubmissions_skips_unreadable
    manifestDirectory submittedDirectory console :
  match readdirSync submittedDirectory with
  | Err e =>
      loadTrustedSubmissions fs manifestDirectory submittedDirectory console
      = (Err e, console)
  | Ok filenames =>
      exists trusted warnings,
        loadTrustedSubmissions fs manifestDirectory submittedDirectory console
        = (Ok trusted, console ++ warnings)
        /\ trusted
           = omap (fun filename =>
                     match loadTrustedSubmission fs manifestDirectory
                             (path_join [submittedDirectory; filename]) with
                     | Ok trustedSub => Some trustedSub
                     | Err _ => None
                     end) filenames
        /\ warnings
           = omap (fun filename =>
                     match loadTrustedSubmission fs manifestDirectory
                             (path_join [submittedDirectory; filename]) with
                     | Ok _ => None
                     | Err _ => Some (msg_unable_to_open filename)
                     end) filenames
        /\ length trusted + length warnings = length filenames
  end.
Proof.
  unfold loadTrustedSubmissions.
  destruct (readdirSync submittedDirectory) as [filenames|e]; [|done].
  rewrite forEach_loadOrWarn. cbn [fst snd rbind app].
  eexists _, _. split; [reflexivity|]. split; [done|]. split; [done|].
  apply (omap_Ok_Err_length
           (fun filename =>
              loadTrustedSubmission fs manifestDirectory
                (path_join [submittedDirectory; filename]))
           msg_unable_to_open).
Qed.

End TrustedSubmissions.

(** ** The usage statistics on disk *)

Lemma sort_keys_pair_swap (k1 k2 : string) (a b : value) :
  String.leb k1 k2 = false ->
  sort_keys [(k1, a); (k2, b)] = [(k2, b); (k1, a)].
Proof.
  intros Hle. unfold sort_keys, merge_sort. cbn.
  rewrite decide_False; [reflexivity|].
  unfold key_le. cbn [fst]. rewrite Hle. exact id.
Qed.

Lemma stable_stringify_object (replacer : string -> value -> value)
    (fuel : nat) (key : string) (v : value) props :
  replacer key v = VObject props ->
  stable_stringify_property replacer (S fuel) key v
  = option_map (fun ms => Some (JObject ms))
      (serialize_members (stable_stringify_property replacer fuel)
         (sort_keys props)).
Proof. intros Hv. cbn [stable_stringify_property]. by rewrite Hv. Qed.

Section StatsOnDisk.
Context `{JsNumber} `{Opaque} `{!ComponentObjects}.
Variable exam : Exam.

Lemma section_entry_written id stats :
  stable_stringify_property stats_replacer 2 id (section_stats_object stats)
  = Some (if dropped id then None
          else Some (count_json (stats_section_n stats))).
Proof.
  cbn [stable_stringify_property]. unfold stats_replacer at 1. fold (dropped id).
  destruct (dropped id); [done|]. unfold section_stats_object.
  rewrite sort_keys_pair_swap by done. reflexivity.
Qed.

Lemma question_entry_written id stats :
  stable_stringify_property stats_replacer 2 id (question_stats_object stats)
  = Some (if dropped id then None
          else Some (count_json (stats_question_n stats))).
Proof.
  cbn [stable_stringify_property]. unfold stats_replacer at 1. fold (dropped id).
  destruct (dropped id); [done|]. unfold question_stats_object.
  rewrite sort_keys_pair_swap by done. reflexivity.
Qed.

Section Table.
Context {A : Type} (entry : A -> value) (count : A -> N).
Hypothesis entry_written : forall id a,
  stable_stringify_property stats_replacer 2 id (entry a)
  = Some (if dropped id then None else Some (count_json (count a))).

Lemma entries_written (entries : list (string * A)) :
  serialize_members (stable_stringify_property stats_replacer 2)
    (map (fun p => (fst p, entry (snd p))) entries)
  = Some (omap (written count) entries).
Proof.
  induction entries as [|[id a] entries IH]; [done|].
  cbn [map fst snd serialize_members]. rewrite entry_written, IH.
  unfold omap, list_omap, written. cbn [fst snd].
  by destruct (dropped id).
Qed.

Lemma lookup_written (entries : list (string * A)) id :
  lookup_member id (omap (written count) entries)
  = if dropped id then None
    else count_json ∘ count
         <$> (list_to_map entries : gmap string A) !! id.
Proof.
  induction entries as [|[k a] entries IH].
  - cbn. by destruct (dropped id).
  - cbn [list_to_map foldr]. unfold omap, list_omap. fold (@list_omap).
    unfold written at 1. cbn [fst snd].
    destruct (String.eqb_spec k id) as [->|Hne].
    + rewrite lookup_insert_eq. destruct (dropped id); [apply IH|].
      cbn [lookup_member]. by rewrite String.eqb_refl.
    + rewrite lookup_insert_ne by done. destruct (dropped k); [apply IH|].
      cbn [lookup_member]. apply String.eqb_neq in Hne. rewrite Hne.
      apply IH.
Qed.

Lemma table_written (table : gmap string A) key :
  dropped key = false ->
  exists members,
    stable_stringify_property stats_replacer 3 key (table_object entry table)
    = Some (Some (JObject members))
    /\ forall id, lookup_member id members
                  = if dropped id then None
                    else count_json ∘ count <$> table !! id.
Proof.
  intros Hkey. unfold table_object.
  rewrite (stable_stringify_object _ 2 _ _
             (map (fun p => (fst p, entry (snd p))) (map_to_list table)));
    [|unfold stats_replacer; fold (dropped key); by rewrite Hkey].
  destruct (Permutation_map_inv (fun p : string * A => (fst p, entry (snd p)))
              (map_to_list table)
              (merge_sort_Permutation key_le _))
    as (entries & Hsorted & Hperm).
  unfold sort_keys. rewrite Hsorted, entries_written. cbn [option_map].
  eexists. split; [reflexivity|]. intros id. rewrite lookup_written.
  destruct (dropped id); [done|]. f_equal. f_equal.
  transitivity (list_to_map (map_to_list table) : gmap string A);
    [|apply list_to_map_to_list].
  apply list_to_map_proper; [|by symmetry].
  rewrite <- Hperm. apply NoDup_fst_map_to_list.
Qed.

End Table.

(** The file that [writeStats] writes, from what is written for the two
    tables. *)
Lemma stats_object_written (st : GenState) (fs : gmap string file_content)
    questions sections :
  stable_stringify_property stats_replacer 3 "questions"
    (table_object question_stats_object (questionStatsMap st))
  = Some (Some (JObject questions)) ->
  stable_stringify_property stats_replacer 3 "sections"
    (table_object section_stats_object (sectionStatsMap st))
  = Some (Some (JObject sections)) ->
  writeStats exam st fs
  = (Ok tt,
     <[stats_file exam :=
         JsonText (JObject [("questions", JObject questions);
                            ("sections", JObject sections)])]> fs).
Proof.
  intros Hq Hs. unfold writeStats.
  change (json_stable_stringify stats_replacer 4 (stats_object st))
    with (stable_stringify_property stats_replacer 4 "" (stats_object st)).
  rewrite (stable_stringify_object stats_replacer 3 "" (stats_object st)
             _ eq_refl).
  rewrite sort_keys_pair_swap by done.
  cbn [serialize_members]. rewrite Hq, Hs. reflexivity.
Qed.

(** X16. [writeStats] writes, to [data/<exam_id>/stats.json], an object
    with the two properties [questions] and [sections]; each of them holds,
    for every id of the table, the count [n] of the id and nothing else.
    The replacer looks at the key alone, so the entry of a section or of a
    question whose id is "section" or "question" is left out of the file. *)
Theorem writeStats_writes_counts (st : GenState)
    (fs : gmap string file_content) :
  exists questions sections,
    writeStats exam st fs
    = (Ok tt,
       <[stats_file exam :=
           JsonText (JObject [("questions", JObject questions);
                              ("sections", JObject sections)])]> fs)
    /\ (forall id,
          lookup_member id sections
          = if String.eqb id "section" || String.eqb id "question" then None
            else count_json ∘ stats_section_n <$> sectionStatsMap st !! id)
    /\ (forall id,
          lookup_member id questions
          = if String.eqb id "section" || String.eqb id "question" then None
            else count_json ∘ stats_question_n <$> questionStatsMap st !! id).
Proof.
  destruct (table_written section_stats_object stats_section_n
              section_entry_written (sectionStatsMap st) "sections" eq_refl)
    as (sections & Hs & Hsections).
  destruct (table_written question_stats_object stats_question_n
              question_entry_written (questionStatsMap st) "questions" eq_refl)
    as (questions & Hq & Hquestions).
  exists questions, sections.
  split; [by apply stats_object_written|]. split; [exact Hsections|].
  exact Hquestions.
Qed.

End StatsOnDisk.

Section StatsOfARun.
Context `{JsNumber} `{Opaque} `{!Collaborators} `{UuidPackage}
  `{!ComponentObjects}.
Variable exam : Exam.
Variable options : ExamGeneratorOptions.

(** X17. After a run of [assignExams] that returns, the file that
    [writeStats] writes reports, for every section id and every question id
    other than "section" and "question" that names no property of
    [Object.prototype], the number of times a section (question) with the
    id was assigned over all exams; it has no entry for an id that was
    never assigned, and none for an id that names a property of
    [Object.prototype]. *)
Theorem stats_file_counts_assignments students st st'
    (fs : gmap string file_content) :
  assignExams exam options students st = (Ok tt, st') ->
  stats_exact st (assignedExams st) ->
  exists questions sections,
    writeStats exam st' fs
    = (Ok tt,
       <[stats_file exam :=
           JsonText (JObject [("questions", JObject questions);
                              ("sections", JObject sections)])]> fs)
    /\ (forall id,
          dropped id = false ->
          lookup_member id sections
          = counted id
              match sections_with id (all_sections (assignedExams st')) with
              | [] => None
              | s :: rest => Some (count_json (N.of_nat (S (length rest))))
              end)
    /\ (forall id,
          dropped id = false ->
          lookup_member id questions
          = counted id
              match questions_with id (all_questions (assignedExams st')) with
              | [] => None
              | q :: rest => Some (count_json (N.of_nat (S (length rest))))
              end).
Proof.
  intros Hrun Hst.
  assert (stats_exact st' (assignedExams st')) as [Hs Hq].
  { revert Hrun Hst. apply (assignExams_Ok_invariant exam options stats_exact).
    - intros student st0 ae st1 exams.
      apply createRandomizedExam_stats_exact.
    - intros student ae st0 exams Hst0. exact Hst0. }
  destruct (table_written section_stats_object stats_section_n
              section_entry_written (sectionStatsMap st') "sections" eq_refl)
    as (sections & Hws & Hsections).
  destruct (table_written question_stats_object stats_question_n
              question_entry_written (questionStatsMap st') "questions"
              eq_refl)
    as (questions & Hwq & Hquestions).
  exists questions, sections.
  split; [by apply stats_object_written|]. split.
  - intros id Hid. rewrite Hsections. fold (dropped id). rewrite Hid, Hs.
    unfold counted, section_stats_of. destruct (inherited id); [done|].
    by destruct (sections_with id (all_sections (assignedExams st'))).
  - intros id Hid. rewrite Hquestions. fold (dropped id). rewrite Hid, Hq.
    unfold counted, question_stats_of. destruct (inherited id); [done|].
    by destruct (questions_with id (all_questions (assignedExams st'))).
Qed.

End StatsOfARun.

(** ** Uuids of duplicates under the plain strategy *)

Section PlainDuplicates.
Context `{JsNumber} `{Opaque} `{!Collaborators} `{UuidPackage}.
Variable exam : Exam.
Variable options : ExamGeneratorOptions.

(** X18. Under the [plain] strategy the uuid of an assigned section, and of
    an assigned question, is a function of its id: two assigned sections of
    an exam have the same uuid exactly when their sections have the same
    id, and so for questions. So the copies of a section that
    [allow_duplicates] admits, one per skin, all carry one uuid. *)
Theorem plain_uuids_follow_ids student rand st ae st' :
  uuid_strategy options = plain ->
  createRandomizedExam exam options student rand st = (Ok ae, st') ->
  (forall a b, a ∈ ae_assignedSections ae -> b ∈ ae_assignedSections ae ->
     (as_uuid a = as_uuid b
      <-> section_id (as_section a) = section_id (as_section b)))
  /\ (forall p q, p ∈ assignedQuestions (ae_assignedSections ae) ->
                  q ∈ assignedQuestions (ae_assignedSections ae) ->
        (aq_uuid p = aq_uuid q
         <-> question_id (aq_question p) = question_id (aq_question q))).
Proof.
  intros Hplain Hae.
  eapply (post_createRandomizedExam exam options (fun _ => True)) in Hae
    as (_ & _ & _ & Hs).
  2: { apply post_true. }
  2: { intros s i. by apply post_createRandomizedSection_plain. }
  rewrite Forall_forall in Hs. split.
  - intros a b Ha Hb.
    destruct (Hs _ Ha) as [-> _]. destruct (Hs _ Hb) as [-> _].
    unfold plain_section_uuid. split; [|by intros ->].
    intros Heq. do 4 apply String.app_inj in Heq. exact Heq.
  - assert (forall q, q ∈ assignedQuestions (ae_assignedSections ae) ->
                      aq_uuid q = plain_question_uuid exam student q) as Hq.
    { intros q Hin. unfold assignedQuestions in Hin.
      apply list_elem_of_In, in_concat in Hin as (l & Hl & Hq).
      apply in_map_iff in Hl as (a & <- & Ha).
      apply list_elem_of_In in Ha, Hq. destruct (Hs _ Ha) as [_ Hall].
      rewrite Forall_forall in Hall. by apply Hall. }
    intros p q Hp Hq'. rewrite (Hq _ Hp), (Hq _ Hq').
    unfold plain_question_uuid. split; [|by intros ->].
    intros Heq. do 4 apply String.app_inj in Heq. exact Heq.
Qed.

End PlainDuplicates.

(** ** Grading assignments on disk *)

Section AssignmentsOnDiskProperties.
Context `{AssignmentFiles}.

(** The file that is written for the assignment that takes the draw
    [draw]. *)
Lemma write_loop (exam_id question_id : string) assns :
  forall fs draws r fs' draws',
  forEach (fun assn =>
             name <- draw_name ;;
             writeFileSync_wx
               (gradingAssignmentDir exam_id question_id +:+ "/" +:+ name
                +:+ ".json")
               (JsonText (assignment_json (named assn name))))
          assns (fs, draws)
  = (r, (fs', draws')) ->
  (forall path content, fs !! path = Some content ->
                        fs' !! path = Some content)
  /\ (r = Ok tt ->
      draws' = draws + length assns
      /\ forall i assn, assns !! i = Some assn ->
           fs !! (gradingAssignmentDir exam_id question_id +:+ "/"
                  +:+ uniqueNamesGenerator (draws + i) +:+ ".json") = None
           /\ fs' !! (gradingAssignmentDir exam_id question_id +:+ "/"
                      +:+ uniqueNamesGenerator (draws + i) +:+ ".json")
              = Some (JsonText
                        (assignment_json
                           (named assn (uniqueNamesGenerator (draws + i)))))).
Proof.
  induction assns as [|assn assns IH]; intros fs draws r fs' draws' Hr.
  - cbn in Hr. injection Hr as <- <- <-. split; [done|]. intros _.
    split; [cbn; lia|]. intros i a Hi. discriminate.
  - cbn [forEach] in Hr. unfold bind at 1 2, draw_name at 1 in Hr.
    cbn [fst snd] in Hr. unfold writeFileSync_wx at 1 in Hr. cbn [fst snd] in Hr.
    set (path := gradingAssignmentDir exam_id question_id +:+ "/"
                 +:+ uniqueNamesGenerator draws +:+ ".json") in *.
    destruct (fs !! path) as [old|] eqn:Hpath.
    + injection Hr as <- <- <-. split; [done|]. discriminate.
    + apply IH in Hr as [Hkeep Hok]. split.
      * intros p c Hp. apply Hkeep. rewrite lookup_insert_ne; [done|].
        intros <-. congruence.
      * intros ->. destruct (Hok eq_refl) as [-> Hfiles].
        split; [cbn [length]; lia|]. intros [|i] a Hi.
        -- cbn in Hi. injection Hi as <-. rewrite Nat.add_0_r.
           split; [done|]. apply Hkeep. apply lookup_insert_eq.
        -- cbn in Hi. destruct (Hfiles i a Hi) as [Hnone Hsome].
           replace (draws + S i) with (S draws + i) by lia.
           split; [|done].
           apply lookup_insert_None in Hnone. tauto.
Qed.

(** X19. [writeGradingAssignments] never overwrites or removes a file:
    every file that exists before the call is there after it with its
    content, whether the call returns or throws. It does nothing for an
    empty array. When it returns, it has drawn one name per assignment and
    written each assignment, under the name drawn for it, to a file of
    [gradingAssignmentDir] that did not exist before; all assignments then
    have the exam id and the question id of the first one. *)
Theorem writeGradingAssignments_never_overwrites assns fs draws r fs' draws' :
  writeGradingAssignments assns (fs, draws) = (r, (fs', draws')) ->
  (forall path content, fs !! path = Some content ->
                        fs' !! path = Some content)
  /\ (assns = [] -> r = Ok tt /\ fs' = fs /\ draws' = draws)
  /\ (r = Ok tt ->
      draws' = draws + length assns
      /\ forall first, head assns = Some first ->
         Forall (fun assn => assn_exam_id assn = assn_exam_id first
                             /\ assn_question_id assn
                                = assn_question_id first) assns
         /\ forall i assn, assns !! i = Some assn ->
              let path :=
                gradingAssignmentDir (assn_exam_id first)
                  (assn_question_id first)
                +:+ "/" +:+ uniqueNamesGenerator (draws + i) +:+ ".json" in
              fs !! path = None
              /\ fs' !! path
                 = Some (JsonText
                           (assignment_json
                              (named assn
                                 (uniqueNamesGenerator (draws + i)))))).
Proof.
  unfold writeGradingAssignments. destruct assns as [|first assns].
  - cbn. intros Hr. injection Hr as <- <- <-.
    split; [done|]. split; [done|]. intros _. split; [lia|]. discriminate.
  - cbn [length Nat.eqb]. unfold bind at 1. cbv beta iota.
    destruct (getAssnIds (first :: assns) ()) as [[ids|e] u] eqn:Hget;
      cbn [fst]; intros Hr.
    + apply getAssnIds_Ok in Hget as (first' & Hfirst & -> & Hall).
      injection Hfirst as <-. cbn [fst snd] in Hr.
      apply write_loop in Hr as [Hkeep Hok].
      split; [done|]. split; [discriminate|].
      intros ->. destruct (Hok eq_refl) as [-> Hfiles].
      split; [done|]. intros first' Hfirst'. injection Hfirst' as <-.
      split; [done|]. intros i assn Hi. cbn zeta. by apply Hfiles.
    + injection Hr as <- <- <-.
      split; [done|]. split; discriminate.
Qed.

End AssignmentsOnDiskProperties.

(** ** Media *)

Lemma omap_not_longer {A B} (f : A -> option B) (l : list A) :
  length (omap f l) <= length l.
Proof.
  induction l as [|x l IH]; [done|]. cbn. destruct (f x); cbn; lia.
Qed.

Section MediaProperties.
Context `{JsNumber} `{Opaque} `{!Collaborators} `{UuidPackage} `{PathModule}.
Variable exam : Exam.
Variable options : ExamGeneratorOptions.

Lemma copy_if_given_spec media_dir target copies :
  copy_if_given media_dir target copies
  = (Ok tt,
     copies ++ match media_dir with
               | Some d => if String.eqb d "" then [] else [(d, target)]
               | None => []
               end).
Proof.
  unfold copy_if_given. destruct media_dir as [d|]; cbn.
  - destruct (String.eqb d ""); cbn; [by rewrite app_nil_r|done].
  - by rewrite app_nil_r.
Qed.

Lemma forEach_section_copies media_out_dir sections : forall copies,
  forEach (fun s => copy_if_given (section_media_dir s)
                      (path_join [media_out_dir; "section"; section_id s]))
          sections copies
  = (Ok tt, copies ++ omap (section_copy media_out_dir) sections).
Proof.
  induction sections as [|s sections IH]; intros copies.
  - cbn. by rewrite app_nil_r.
  - cbn [forEach]. unfold bind. rewrite copy_if_given_spec, IH.
    rewrite <- app_assoc. do 2 f_equal.
    unfold omap, list_omap, section_copy. fold (@list_omap).
    destruct (section_media_dir s) as [d|]; [|done].
    by destruct (String.eqb d "").
Qed.

Lemma forEach_question_copies media_out_dir questions : forall copies,
  forEach (fun q => copy_if_given (question_media_dir q)
                      (path_join [media_out_dir; "question"; question_id q]))
          questions copies
  = (Ok tt, copies ++ omap (question_copy media_out_dir) questions).
Proof.
  induction questions as [|q questions IH]; intros copies.
  - cbn. by rewrite app_nil_r.
  - cbn [forEach]. unfold bind. rewrite copy_if_given_spec, IH.
    rewrite <- app_assoc. do 2 f_equal.
    unfold omap, list_omap, question_copy. fold (@list_omap).
    destruct (question_media_dir q) as [d|]; [|done].
    by destruct (String.eqb d "").
Qed.

Lemma writeExamMedia_copies media_out_dir sections questions copies :
  writeExamMedia media_out_dir exam sections questions copies
  = (Ok tt,
     copies ++ option_list (exam_copy media_out_dir exam)
     ++ omap (section_copy media_out_dir) sections
     ++ omap (question_copy media_out_dir) questions).
Proof.
  unfold writeExamMedia, bind.
  rewrite copy_if_given_spec, forEach_section_copies,
    forEach_question_copies.
  rewrite <- !app_assoc. do 2 f_equal.
  unfold exam_copy. destruct (exam_media_dir exam) as [d|]; [|done].
  by destruct (String.eqb d "").
Qed.

Lemma values_of_latest {A} (table : gmap string A) (latest : string -> option A)
    (a : A) :
  (forall id, table !! id = latest id) ->
  a ∈ Object_values table <-> exists id, latest id = Some a.
Proof.
  intros Htable. unfold Object_values. split.
  - intros Hin. apply list_elem_of_In, in_map_iff in Hin as ([id a'] & <- & Hin).
    apply list_elem_of_In, elem_of_map_to_list in Hin.
    exists id. by rewrite <- Htable.
  - intros [id Hid]. rewrite <- Htable in Hid.
    apply elem_of_map_to_list in Hid.
    apply list_elem_of_In, in_map_iff. exists (id, a).
    split; [done|]. by apply list_elem_of_In.
Qed.

(** X20. After a run of [assignExams] that returns, [writeMedia] requests
    the copy of the media of the exam, if it has a media directory, then
    one copy for each id of an assigned section whose section has a media
    directory, to [path.join(mediaOutDir, "section", section_id)], and the
    same for the questions: a section is copied once, however many students
    were assigned it, and a section that no student was assigned is not
    copied. The section copied for an id is the one that was assigned last
    under the id. A section or question whose id is [__proto__] is no
    entry of the lookup tables and is not copied. *)
Theorem writeMedia_copies_assigned_media students st st' outDir copies :
  assignExams exam options students st = (Ok tt, st') ->
  maps_latest st (assignedExams st) ->
  let mediaOutDir := path_join [outDir; frontend_media_dir options] in
  exists of_sections of_questions,
    writeMedia exam options st' outDir copies
    = (Ok tt,
       copies ++ option_list (exam_copy mediaOutDir exam)
       ++ of_sections ++ of_questions)
    /\ (forall copy,
          copy ∈ of_sections
          <-> exists id s,
                kept id
                  (last (sections_with id (all_sections (assignedExams st'))))
                = Some s
                /\ section_copy mediaOutDir s = Some copy)
    /\ (forall copy,
          copy ∈ of_questions
          <-> exists id q,
                kept id
                  (last (questions_with id
                           (all_questions (assignedExams st'))))
                = Some q
                /\ question_copy mediaOutDir q = Some copy)
    /\ length of_sections <= size (sectionsMap st')
    /\ length of_questions <= size (questionsMap st').
Proof.
  intros Hrun Hst mediaOutDir.
  assert (maps_latest st' (assignedExams st')) as [Hs Hq].
  { revert Hrun Hst. apply (assignExams_Ok_invariant exam options maps_latest).
    - intros student st0 ae st1 exams.
      apply createRandomizedExam_maps_latest.
    - intros student ae st0 exams Hst0. exact Hst0. }
  eexists _, _. split; [apply writeExamMedia_copies|].
  split; [|split; [|split]].
  - intros copy. rewrite list_elem_of_omap. split.
    + intros (s & Hin & Hcopy).
      apply (values_of_latest _ _ _ Hs) in Hin as [id Hid]. eauto.
    + intros (id & s & Hid & Hcopy). exists s. split; [|done].
      apply (values_of_latest _ _ _ Hs). eauto.
  - intros copy. rewrite list_elem_of_omap. split.
    + intros (q & Hin & Hcopy).
      apply (values_of_latest _ _ _ Hq) in Hin as [id Hid]. eauto.
    + intros (id & q & Hid & Hcopy). exists q. split; [|done].
      apply (values_of_latest _ _ _ Hq). eauto.
  - etransitivity; [apply omap_not_longer|].
    unfold Object_values. by rewrite length_map, length_map_to_list.
  - etransitivity; [apply omap_not_longer|].
    unfold Object_values. by rewrite length_map, length_map_to_list.
Qed.

End MediaProperties.

(** ** Submissions of drag-and-drop code *)

Lemma isValidParsonsSubmission_array elems :
  isValidParsonsSubmission (VArray elems) = every element_test elems.
Proof. reflexivity. Qed.

Lemma every_cons {A} (f : A -> result bool) x l :
  every f (x :: l) = (b <-- f x ;; if b then every f l else Ok false).
Proof. reflexivity. Qed.

Lemma every_accepts {A} (f : A -> result bool) l :
  Forall (fun x => f x = Ok true) l -> every f l = Ok true.
Proof.
  induction 1 as [|x l Hx _ IH]; [reflexivity|].
  rewrite every_cons, Hx. exact IH.
Qed.

Lemma every_returns {A} (f : A -> result bool) l :
  Forall (fun x => exists b, f x = Ok b) l -> exists b, every f l = Ok b.
Proof.
  induction 1 as [|x l [b Hx] _ [b' IH]]; [by exists true|].
  rewrite every_cons, Hx. destruct b; [by exists b'|by exists false].
Qed.

(** The first item that throws decides, when the items before it pass. *)
Lemma every_throws {A} (f : A -> result bool) before x after e :
  Forall (fun y => f y = Ok true) before ->
  f x = Err e ->
  every f (before ++ x :: after) = Err e.
Proof.
  induction 1 as [|y before Hy _ IH]; intros Hx.
  - cbn [app]. rewrite every_cons, Hx. reflexivity.
  - cbn [app]. rewrite every_cons, Hy. by apply IH.
Qed.

Lemma drop_test_string_id d : has_string_id d = true -> drop_test d = Ok true.
Proof.
  destruct d as [| | | | | | | |props|]; try discriminate. cbn.
  destruct (lookup_prop "id" props) as [[]|]; try discriminate. reflexivity.
Qed.

Lemma element_test_plain elem :
  plain_element elem = true -> element_test elem = Ok true.
Proof.
  destruct elem as [| | | | |s| |drops| |]; try discriminate; [reflexivity|].
  cbn [plain_element element_test]. intros Hdrops.
  apply every_accepts. apply Forall_forall. intros d Hd.
  apply drop_test_string_id.
  rewrite forallb_forall in Hdrops. apply Hdrops. by apply list_elem_of_In.
Qed.

Lemma plain_elements_valid elems :
  forallb plain_element elems = true ->
  isValidParsonsSubmission (VArray elems) = Ok true.
Proof.
  intros Helems. rewrite isValidParsonsSubmission_array.
  apply every_accepts. apply Forall_forall. intros elem Helem.
  apply element_test_plain.
  rewrite forallb_forall in Helems. apply Helems. by apply list_elem_of_In.
Qed.

Lemma json_ind_nested (P : json -> Prop) :
  P JNull ->
  (forall b, P (JBool b)) -> (forall n, P (JNumber n)) ->
  (forall numerator denominator, P (JFraction numerator denominator)) ->
  (forall s, P (JString s)) ->
  (forall items, Forall P items -> P (JArray items)) ->
  (forall members, Forall (fun m => P (snd m)) members ->
                   P (JObject members)) ->
  forall j, P j.
Proof.
  intros Hn Hb Hnum Hfrac Hs Harr Hobj. fix IH 1. intros [].
  - exact Hn.
  - apply Hb.
  - apply Hnum.
  - apply Hfrac.
  - apply Hs.
  - apply Harr. induction items as [|x items IHitems]; constructor.
    + apply IH.
    + exact IHitems.
  - apply Hobj. induction members as [|[k x] members IHmembers]; constructor.
    + apply IH.
    + exact IHmembers.
Qed.

Lemma existsb_false_Forall {A} (f : A -> bool) l :
  existsb f l = false -> Forall (fun x => f x = false) l.
Proof.
  induction l as [|x l IH]; cbn [existsb]; intros Hl; constructor;
    apply orb_false_iff in Hl; [apply Hl|apply IH, Hl].
Qed.

Lemma children_every_returns check props :
  Forall (fun p => exists b, match snd p with
                             | VArray items => every check items
                             | _ => Ok false
                             end = Ok b) props ->
  exists b, children_every check props = Ok b.
Proof.
  induction 1 as [|[k v] props Hv _ IH]; [by exists false|].
  cbn [children_every]. destruct (String.eqb k "children"); [|exact IH].
  cbn [snd] in Hv. destruct Hv as [b Hv]. exists b.
  destruct v; exact Hv.
Qed.

Lemma tests_return_without_null j :
  contains_null (value_of_json j) = false -> tests_return (value_of_json j).
Proof.
  induction j as [|b|n|numerator denominator|s|items IH|members IH]
    using json_ind_nested; intros Hnull.
  - discriminate.
  - repeat split; by eexists.
  - repeat split; by eexists.
  - repeat split; by eexists.
  - repeat split; by eexists.
  - cbn [value_of_json contains_null] in *.
    assert (Forall tests_return (map value_of_json items)) as Hitems.
    { apply List.Forall_map. apply existsb_false_Forall in Hnull.
      apply List.Forall_map in Hnull.
      rewrite Forall_forall in IH. rewrite Forall_forall in Hnull.
      apply Forall_forall. intros j Hj. by apply IH, Hnull. }
    assert (exists b, every element_test (map value_of_json items) = Ok b)
      as Hvalid.
    { apply every_returns. eapply Forall_impl; [exact Hitems|].
      intros v Hv. apply Hv. }
    repeat split.
    + exact Hvalid.
    + exact Hvalid.
    + by exists false.
    + cbn [element_test]. apply every_returns.
      eapply Forall_impl; [exact Hitems|]. intros v Hv. apply Hv.
    + apply every_returns.
      eapply Forall_impl; [exact Hitems|]. intros v Hv. apply Hv.
  - cbn [value_of_json contains_null] in *.
    repeat split; try by exists false.
    unfold drop_test. cbn [get_prop rbind].
    match goal with |- context [String.eqb ?a "string"] =>
      destruct (String.eqb a "string") end; [by exists true|].
    apply children_every_returns.
    apply existsb_false_Forall in Hnull.
    rewrite Forall_forall in IH. rewrite Forall_forall in Hnull.
    apply Forall_forall. intros p Hp. specialize (Hnull p Hp).
    apply properties_members in Hp.
    apply list_elem_of_In, in_map_iff in Hp as ([k j] & <- & Hj).
    apply list_elem_of_In in Hj. cbn [fst snd] in *.
    destruct (IH _ Hj Hnull) as (_ & _ & _ & _ & Hchildren).
    exact Hchildren.
Qed.

Section Parsons.
Context `{TextBuiltins}.

(** The parser on a text that is not blank and that [JSON.parse] reads. *)
Lemma PARSONS_PARSER_parsed raw text :
  String_trim raw <> "" ->
  JSON_parse_text raw = Some text ->
  PARSONS_PARSER (Some raw)
  = (valid <-- isValidParsonsSubmission (value_of_json text) ;;
     if valid then
       match value_of_json text with
       | VArray (_ :: _) => Ok (Submitted (value_of_json text))
       | _ => Ok BLANK_SUBMISSION
       end
     else Ok MALFORMED_SUBMISSION).
Proof.
  intros Hraw Hparse. unfold PARSONS_PARSER.
  apply String.eqb_neq in Hraw. rewrite Hraw, Hparse. reflexivity.
Qed.

(** X21. [PARSONS_PARSER] throws on nothing but a [null]: when the JSON of
    the raw submission holds no [null] at any depth, or the raw submission
    is absent, blank or not JSON at all, the parser returns. What it
    returns as the submission is the parsed text, which passes the validity
    test and is not the empty array; it answers [MALFORMED_SUBMISSION] for
    a text that is not JSON or that fails the validity test. *)
Theorem PARSONS_PARSER_returns_without_null rawSubmission :
  (forall raw text,
     rawSubmission = Some raw -> JSON_parse_text raw = Some text ->
     contains_null (value_of_json text) = false) ->
  exists r,
    PARSONS_PARSER rawSubmission = Ok r
    /\ match r with
       | BLANK_SUBMISSION => True
       | MALFORMED_SUBMISSION =>
           exists raw,
             rawSubmission = Some raw
             /\ String_trim raw <> ""
             /\ (JSON_parse_text raw = None
                 \/ exists text,
                      JSON_parse_text raw = Some text
                      /\ isValidParsonsSubmission (value_of_json text)
                         = Ok false)
       | Submitted v =>
           exists raw text,
             rawSubmission = Some raw
             /\ JSON_parse_text raw = Some text
             /\ v = value_of_json text
             /\ isValidParsonsSubmission v = Ok true
             /\ v <> VArray []
       end.
Proof.
  intros Hnull. destruct rawSubmission as [raw|]; [|by exists BLANK_SUBMISSION].
  destruct (decide (String_trim raw = "")) as [Hblank|Hraw].
  { exists BLANK_SUBMISSION. unfold PARSONS_PARSER. by rewrite Hblank. }
  destruct (JSON_parse_text raw) as [text|] eqn:Hparse.
  - rewrite (PARSONS_PARSER_parsed _ _ Hraw Hparse).
    destruct (tests_return_without_null text (Hnull _ _ eq_refl Hparse))
      as [[valid Hvalid] _].
    rewrite Hvalid. cbn [rbind]. destruct valid.
    + destruct (value_of_json text) as [| | | | | | |[|elem elems]| |]
        eqn:Hvalue;
        try by exists BLANK_SUBMISSION.
      exists (Submitted (VArray (elem :: elems))). split; [reflexivity|].
      exists raw, text. by rewrite Hvalue.
    + exists MALFORMED_SUBMISSION. split; [reflexivity|].
      exists raw. repeat split; [done|]. right. by exists text.
  - exists MALFORMED_SUBMISSION. split.
    + unfold PARSONS_PARSER. apply String.eqb_neq in Hraw.
      by rewrite Hraw, Hparse.
    + exists raw. repeat split; [done|]. by left.
Qed.

(** X22. A [null] among the items of a drop list makes [PARSONS_PARSER]
    throw a [TypeError], where a malformed submission is otherwise answered
    with [MALFORMED_SUBMISSION]: the validity test reads [d.id] of every
    item [d] before anything else, and the parser throws again whatever is
    not a [SyntaxError]. The elements and the items before the [null] are
    those that pass the test. *)
Theorem PARSONS_PARSER_throws_on_null_item raw text
    (before after drops_before drops_after : list value) :
  String_trim raw <> "" ->
  JSON_parse_text raw = Some text ->
  value_of_json text
  = VArray (before ++ VArray (drops_before ++ VNull :: drops_after) :: after) ->
  Forall (fun elem => element_test elem = Ok true) before ->
  Forall (fun d => drop_test d = Ok true) drops_before ->
  PARSONS_PARSER (Some raw)
  = Err (TypeError "Cannot read properties of null").
Proof.
  intros Hraw Hparse Hvalue Hbefore Hdrops.
  rewrite (PARSONS_PARSER_parsed _ _ Hraw Hparse), Hvalue.
  rewrite isValidParsonsSubmission_array.
  rewrite (every_throws element_test before _ after
             (TypeError "Cannot read properties of null")); [done|done|].
  cbn [element_test]. by apply every_throws.
Qed.

(** X23. The validity test looks no further into a drop item that has a
    string under [id]: a submission whose elements are strings and lists of
    such items is returned as parsed, whatever else the items hold, so the
    value under [children] of such an item is not checked at all. The
    empty array is answered with [BLANK_SUBMISSION]. *)
Theorem PARSONS_PARSER_returns_items_with_ids raw text elems :
  String_trim raw <> "" ->
  JSON_parse_text raw = Some text ->
  value_of_json text = VArray elems ->
  forallb plain_element elems = true ->
  PARSONS_PARSER (Some raw)
  = Ok (match elems with
        | [] => BLANK_SUBMISSION
        | _ :: _ => Submitted (VArray elems)
        end).
Proof.
  intros Hraw Hparse Hvalue Helems.
  rewrite (PARSONS_PARSER_parsed _ _ Hraw Hparse), Hvalue.
  rewrite (plain_elements_valid _ Helems). cbn [rbind].
  by destruct elems.
Qed.

End Parsons.

(** * The properties on the small instance *)

Import Demo.

Lemma fresh_points_consistent : points_consistent (assignedExams fresh).
Proof. intros first Hfirst. discriminate Hfirst. Defined.

Lemma fresh_all_covered : all_covered fresh.
Proof. constructor. Defined.

Lemma demo_choosers_draw_only : choosers_draw_only.
Proof. repeat split. Defined.

(** C6 on the instance: no namespace, 15 characters, 16 characters. *)
Lemma constructor_checks_uuidv5_namespace_witness :
  p_uuid_strategy (uuidv5_options None) = Some uuidv5
  /\ constructor 0 exam_fixed (uuidv5_options None)
     = Err (AssertionFailed msg_namespace_missing)
  /\ constructor 0 exam_fixed (uuidv5_options (Some "0123456789abcde"))
     = Err (AssertionFailed msg_namespace_short)
  /\ constructor 0 exam_fixed (uuidv5_options (Some "0123456789abcdef"))
     = Ok {| gen_exam := exam_fixed;
             gen_options :=
               assign_defaults (uuidv5_options (Some "0123456789abcdef"));
             gen_state := initial_state 0 |}.
Proof.
  split; [reflexivity|]. split; [|split].
  - exact (proj1 (constructor_checks_uuidv5_namespace 0 exam_fixed
                    (uuidv5_options None) eq_refl) eq_refl).
  - apply (proj1 (proj2 (constructor_checks_uuidv5_namespace 0 exam_fixed
                           (uuidv5_options (Some "0123456789abcde")) eq_refl))
             "0123456789abcde" eq_refl).
    cbn. lia.
  - apply (proj2 (proj2 (constructor_checks_uuidv5_namespace 0 exam_fixed
                           (uuidv5_options (Some "0123456789abcdef")) eq_refl))
             "0123456789abcdef" eq_refl).
    cbn. lia.
Defined.

(** C3 on the instance. *)
Lemma plain_uuid_is_uniqname_dash_id_witness :
  uuid_strategy plain_options = plain
  /\ createStudentUuid plain_options alice "midterm" 7
     = (Ok "alice-midterm", 7)
  /\ Forall (fun ae => ae_uuid ae
                       = uniqname (ae_student ae) +:+ "-" +:+ "midterm")
            (assignedExams
               (snd (assignExams exam_fixed plain_options [bo; alice] fresh))).
Proof.
  split; [reflexivity|]. split.
  - exact (proj1 (plain_uuid_is_uniqname_dash_id exam_fixed plain_options
                    eq_refl) alice "midterm" 7).
  - exact (proj2 (proj2 (plain_uuid_is_uniqname_dash_id exam_fixed
                           plain_options eq_refl))
             [bo; alice] fresh _ _ (surjective_pairing _)
             (List.Forall_nil _)).
Defined.

Lemma pair_of_fst {A B} (x : A * B) (a : A) : fst x = a -> x = (a, snd x).
Proof. destruct x. cbn. by intros ->. Qed.

(** C1 on the instance: two students with the same exam, and an exam with a
    section variant worth fewer points, which [alice] draws. *)
Lemma assignExams_points_consistent_witness :
  points_consistent (assignedExams fresh)
  /\ fst (assignExams exam_fixed plain_options [bo; alice] fresh) = Ok tt
  /\ points_consistent
       (assignedExams
          (snd (assignExams exam_fixed plain_options [bo; alice] fresh)))
  /\ map ae_student
         (assignedExams
            (snd (assignExams exam_fixed plain_options [bo; alice] fresh)))
     = [bo; alice]
  /\ fst (assignExams exam_unequal plain_options [bo; alice] fresh)
     = Err (AssertionFailed
              (msg_inconsistent_points
                 (assigned exam_unequal bo
                    [(sec1, "default",
                      [(q1, "default-plain"); (q2, "default-plain")])])
                 (assigned exam_unequal alice
                    [(sec2, "default", [(q3, "default-plain")])]))).
Proof.
  split; [exact fresh_points_consistent|].
  assert (fst (assignExams exam_fixed plain_options [bo; alice] fresh)
          = Ok tt) as Hok by (vm_compute; reflexivity).
  split; [exact Hok|].
  destruct (proj1 (assignExams_points_consistent exam_fixed plain_options
                     [bo; alice] fresh _ _ (surjective_pairing _)
                     fresh_points_consistent) Hok) as [Hc Hmap].
  split; [exact Hc|]. split; [exact Hmap|].
  refine (proj1 (proj2 (assignExams_points_consistent exam_unequal
                          plain_options [bo; alice] fresh _ _
                          (surjective_pairing _) fresh_points_consistent)
                   [bo] alice []
                   (snd (assignExams exam_unequal plain_options [bo] fresh))
                   _ _ _ eq_refl (pair_of_fst _ _ _) (pair_of_fst _ _ _)
                   _ _)).
  - vm_compute. reflexivity.
  - vm_compute. reflexivity.
  - vm_compute. reflexivity.
  - vm_compute. reflexivity.
Defined.

(** C2. The checker misses a drift under an id that names a property of
    [Object.prototype]. [bo] and [alice] draw the two variants of a section
    with the id toString, which come from two specification objects: the
    run returns, both exams are assigned, and the usage statistics have no
    entry for the id. *)
Theorem checkExam_misses_drift_under_inherited_id :
  fst (assignExams exam_drift_inherited plain_options [bo; alice] fresh)
  = Ok tt
  /\ assignedExams
       (snd (assignExams exam_drift_inherited plain_options [bo; alice]
               fresh))
     = [assigned exam_drift_inherited bo
          [(sec_toString, "default",
            [(q1, "default-plain"); (q2, "default-plain")])];
        assigned exam_drift_inherited alice
          [(sec_toString_other, "default",
            [(q1, "default-plain"); (q2, "default-plain")])]]
  /\ ~ spec_consistent
         (assignedExams
            (snd (assignExams exam_drift_inherited plain_options [bo; alice]
                    fresh)))
  /\ sectionStatsMap
       (snd (assignExams exam_drift_inherited plain_options [bo; alice]
               fresh)) !! "toString"
     = None.
Proof.
  assert (assignedExams
            (snd (assignExams exam_drift_inherited plain_options [bo; alice]
                    fresh))
          = [assigned exam_drift_inherited bo
               [(sec_toString, "default",
                 [(q1, "default-plain"); (q2, "default-plain")])];
             assigned exam_drift_inherited alice
               [(sec_toString_other, "default",
                 [(q1, "default-plain"); (q2, "default-plain")])]]) as Hexams
    by (vm_compute; reflexivity).
  split; [vm_compute; reflexivity|]. split; [exact Hexams|].
  split; [|vm_compute; reflexivity].
  rewrite Hexams. intros Hcons.
  destruct (Hcons _ _ (list_elem_of_here _ _)
              (list_elem_of_further _ _ _ (list_elem_of_here _ _)))
    as [Hs _].
  specialize (Hs (to_section sec_toString) (to_section sec_toString_other)
                (list_elem_of_here _ _) (list_elem_of_here _ _) eq_refl).
  discriminate Hs.
Qed.

(** The checker on the instance: two students with the same exam, and an
    exam with a second specification object under the id of a section,
    which [alice] draws. *)
Lemma checkExam_rejects_drift_of_own_ids_witness :
  all_covered fresh
  /\ spec_consistent_checked
       (assignedExams
          (snd (assignExams exam_fixed plain_options [bo; alice] fresh)))
  /\ exists e,
       fst (assignExams exam_drift plain_options [bo; alice] fresh) = Err e
       /\ is_drift_error e
       /\ assignedExams
            (snd (assignExams exam_drift plain_options [bo; alice] fresh))
          = assignedExams
              (snd (assignExams exam_drift plain_options [bo] fresh)).
Proof.
  split; [exact fresh_all_covered|]. split.
  { exact (proj1 (checkExam_rejects_drift_of_own_ids exam_fixed plain_options
                    [bo; alice] fresh _ _ (surjective_pairing _)
                    fresh_all_covered)). }
  refine (proj2 (checkExam_rejects_drift_of_own_ids exam_drift plain_options
                   [bo; alice] fresh _ _ (surjective_pairing _)
                   fresh_all_covered)
            [bo] alice []
            (snd (assignExams exam_drift plain_options [bo] fresh))
            (assigned exam_drift alice
               [(sec1_other, "default",
                 [(q1, "default-plain"); (q2, "default-plain")])])
            _ eq_refl (pair_of_fst _ _ _) (pair_of_fst _ _ _) _).
  - vm_compute. reflexivity.
  - vm_compute. reflexivity.
  - assert (assignedExams
              (snd (assignExams exam_drift plain_options [bo] fresh))
            = [assigned exam_drift bo
                 [(sec1, "default",
                   [(q1, "default-plain"); (q2, "default-plain")])]]) as ->
      by (vm_compute; reflexivity).
    intros Hcons.
    destruct (Hcons _ _ (list_elem_of_here _ _)
                (list_elem_of_further _ _ _ (list_elem_of_here _ _)))
      as [Hs _].
    specialize (Hs (to_section sec1) (to_section sec1_other)
                  (list_elem_of_here _ _) (list_elem_of_here _ _) eq_refl
                  eq_refl).
    discriminate Hs.
Defined.

(** C8 on the instance: a section whose skin chooser yields two skins, with
    and without duplicates allowed; a question with one skin. *)
Lemma skin_assertions_fire_iff_many_without_duplicates_witness :
  choose_skins exam_two_skins (section_skin (to_section sec_two_skins)) bo
    (default_section_skin_rand exam_two_skins plain_options bo
       (to_section sec_two_skins))
  = (Ok ["s1"; "s2"], Some 2)
  /\ createRandomizedSection exam_two_skins plain_options
       (to_section sec_two_skins) bo 0 None None fresh
     = (Err (AssertionFailed msg_section_skins), fresh)
  /\ createRandomizedSection exam_two_skins duplicates_options
       (to_section sec_two_skins) bo 0 None None fresh
     = newAssignedSections exam_two_skins duplicates_options
         (to_section sec_two_skins) bo 0 (Some 2) ["s1"; "s2"] fresh
  /\ createRandomizedQuestion exam_fixed plain_options (to_question q1) bo 0 0
       "default" None fresh
     = newAssignedQuestions exam_fixed plain_options (to_question q1) bo 0 0
         ["default-plain"] fresh.
Proof.
  split; [reflexivity|].
  pose proof (proj1 (skin_assertions_fire_iff_many_without_duplicates
                       exam_two_skins plain_options)
                (to_section sec_two_skins) bo 0 None None fresh
                ["s1"; "s2"] (Some 2) eq_refl) as [Hfire _].
  pose proof (proj1 (skin_assertions_fire_iff_many_without_duplicates
                       exam_two_skins duplicates_options)
                (to_section sec_two_skins) bo 0 None None fresh
                ["s1"; "s2"] (Some 2) eq_refl) as [_ Hpass].
  pose proof (proj2 (skin_assertions_fire_iff_many_without_duplicates
                       exam_fixed plain_options)
                (to_question q1) bo 0 0 "default" None fresh
                ["plain"] (Some 2) ["default-plain"] eq_refl eq_refl)
    as [_ Hone].
  split; [|split].
  - apply Hfire; [reflexivity|]. cbn. lia.
  - apply Hpass. left. reflexivity.
  - apply Hone. right. reflexivity.
Defined.

(** C9 on the instance: a roster of two rows, and one with an empty name. *)
Lemma loadCSVRoster_rejects_empty_fields_witness :
  readFileSync "roster.csv" = Ok roster_text
  /\ loadCSVRoster "roster.csv"
     = Ok [ {| row_uniqname := Some "bo"; row_name := Some "Bo" |};
            {| row_uniqname := Some "alice"; row_name := Some "Alice" |} ]
  /\ readFileSync "bad.csv" = Ok roster_text_empty_name
  /\ exists msg, loadCSVRoster "bad.csv" = Err (AssertionFailed msg)
                 /\ (msg = msg_empty_uniqname \/ msg = msg_empty_name).
Proof.
  pose proof (loadCSVRoster_rejects_empty_fields "roster.csv" roster_text
                eq_refl) as [_ Hgood].
  pose proof (loadCSVRoster_rejects_empty_fields "bad.csv"
                roster_text_empty_name eq_refl) as [Hbad _].
  split; [reflexivity|]. split; [|split; [reflexivity|]].
  - apply Hgood. repeat constructor.
    + exists "bo", "Bo". repeat split; discriminate.
    + exists "alice", "Alice". repeat split; discriminate.
  - apply Hbad. apply Exists_cons_tl, Exists_cons_hd. right. reflexivity.
Defined.

(** C10 on the instance: the uuids of the exam of [alice]. *)
Lemma plain_uuids_pairwise_distinct_witness :
  uuid_strategy plain_options = plain
  /\ fst (createRandomizedExam exam_fixed plain_options alice None fresh)
     = Ok (assigned exam_fixed alice
             [(sec1, "default",
               [(q1, "default-plain"); (q2, "default-plain")])])
  /\ NoDup ["alice-midterm"; "alice-midterm-s-sec1"; "alice-midterm-q-q1";
            "alice-midterm-q-q2"].
Proof.
  assert (fst (createRandomizedExam exam_fixed plain_options alice None fresh)
          = Ok (assigned exam_fixed alice
                  [(sec1, "default",
                    [(q1, "default-plain"); (q2, "default-plain")])]))
    as Hae by (vm_compute; reflexivity).
  split; [reflexivity|]. split; [exact Hae|].
  refine (proj2 (proj2 (proj2 (proj2
            (plain_uuids_pairwise_distinct exam_fixed plain_options eq_refl
               alice None fresh _ _ (pair_of_fst _ _ Hae))))) _ _).
  - apply (bool_decide_unpack _). vm_compute. reflexivity.
  - apply (bool_decide_unpack _). vm_compute. reflexivity.
Defined.

(** C4 on the instance: the constant seed, and the exams of two students
    under it. *)
Lemma consistent_randomization_seeds_every_randomizer_witness :
  truthy_bool (consistent_randomization consistent_options) = true
  /\ choosers_draw_only
  /\ makeSeed consistent_options bo = "common"
  /\ makeSeed consistent_options alice = "common"
  /\ fst (createRandomizedExam exam_skinned consistent_options bo None fresh)
     = Ok (assigned exam_skinned bo
             [(sec_skinned, "green", [(q4, "green-red")])])
  /\ fst (createRandomizedExam exam_skinned consistent_options alice None
            fresh)
     = Ok (assigned exam_skinned alice
             [(sec_skinned, "green", [(q4, "green-red")])])
  /\ selection (assigned exam_skinned bo
                  [(sec_skinned, "green", [(q4, "green-red")])])
     = selection (assigned exam_skinned alice
                    [(sec_skinned, "green", [(q4, "green-red")])]).
Proof.
  pose proof (consistent_randomization_seeds_every_randomizer exam_skinned
                consistent_options eq_refl)
    as (Hseed & _ & _ & _ & _ & Hsame).
  assert (fst (createRandomizedExam exam_skinned consistent_options bo None
                 fresh)
          = Ok (assigned exam_skinned bo
                  [(sec_skinned, "green", [(q4, "green-red")])]))
    as Hbo by (vm_compute; reflexivity).
  assert (fst (createRandomizedExam exam_skinned consistent_options alice None
                 fresh)
          = Ok (assigned exam_skinned alice
                  [(sec_skinned, "green", [(q4, "green-red")])]))
    as Halice by (vm_compute; reflexivity).
  split; [reflexivity|]. split; [exact demo_choosers_draw_only|].
  split; [apply Hseed|]. split; [apply Hseed|].
  split; [exact Hbo|]. split; [exact Halice|].
  exact (Hsame demo_choosers_draw_only bo alice fresh fresh _ _ _ _
           (pair_of_fst _ _ Hbo) (pair_of_fst _ _ Halice)).
Defined.

(** C4 as stated fails on the instance. The section and the question of
    [exam_skinned] draw their skins. From their own seeds [bo] and [alice]
    draw different skins; under [consistent_randomization] they draw the
    same skins, because the constant seed also creates the two skin
    randomizers, which are not the ones that the uniqname of the student
    would create. *)
Lemma consistent_randomization_fixes_skins :
  map outline
      (assignedExams
         (snd (assignExams exam_skinned plain_options [bo; alice] fresh)))
  = [("bo-midterm", 2%Z, [("sec4", "green", [("q4", "green-red")])]);
     ("alice-midterm", 2%Z, [("sec4", "yellow", [("q4", "yellow-blue")])])]
  /\ map outline
         (assignedExams
            (snd (assignExams exam_skinned consistent_options [bo; alice]
                    fresh)))
     = [("bo-midterm", 2%Z, [("sec4", "green", [("q4", "green-red")])]);
        ("alice-midterm", 2%Z, [("sec4", "green", [("q4", "green-red")])])]
  /\ default_section_skin_rand exam_skinned consistent_options alice
       (to_section sec_skinned)
     = default_section_skin_rand exam_skinned consistent_options bo
         (to_section sec_skinned)
  /\ default_question_skin_rand exam_skinned consistent_options alice
       (to_question q4)
     = default_question_skin_rand exam_skinned consistent_options bo
         (to_question q4)
  /\ default_section_skin_rand exam_skinned consistent_options alice
       (to_section sec_skinned)
     <> createSectionSkinRandomizer (uniqname alice) exam_skinned
          (to_section sec_skinned)
  /\ default_question_skin_rand exam_skinned consistent_options alice
       (to_question q4)
     <> createQuestionSkinRandomizer (uniqname alice) exam_skinned
          (to_question q4).
Proof.
  split; [vm_compute; reflexivity|]. split; [vm_compute; reflexivity|].
  split; [reflexivity|]. split; [reflexivity|].
  split; vm_compute; discriminate.
Qed.



(** * More properties on the small instance *)

Import Demo2.

Lemma fresh_stats_exact : stats_exact fresh (assignedExams fresh).
Proof.
  split; intros id; unfold counted; destruct (inherited id);
    apply lookup_empty.
Qed.

Lemma fresh_maps_latest : maps_latest fresh (assignedExams fresh).
Proof.
  split; intros id; unfold kept; destruct (String.eqb id "__proto__");
    apply lookup_empty.
Qed.

Lemma fresh_by_uniqname_latest : by_uniqname_latest fresh.
Proof.
  intros u. unfold kept. destruct (String.eqb u "__proto__");
    apply lookup_empty.
Qed.

Lemma two_students_assigned :
  fst (assignExams exam_fixed plain_options [bo; alice] fresh) = Ok tt.
Proof. vm_compute. reflexivity. Qed.

Lemma two_students_assigned_toString :
  fst (assignExams exam_drift_inherited plain_options [bo; alice] fresh)
  = Ok tt.
Proof. vm_compute. reflexivity. Qed.

(** X1 on the instance: after the exams of two students, the section
    [sec1] was used twice; the section with the id toString, assigned
    twice, has no entry. *)
Lemma stats_count_every_assignment_witness :
  stats_exact fresh (assignedExams fresh)
  /\ stats_exact
       (snd (assignExams exam_fixed plain_options [bo; alice] fresh))
       (assignedExams
          (snd (assignExams exam_fixed plain_options [bo; alice] fresh)))
  /\ section_stats_of "sec1"
       (all_sections
          (assignedExams
             (snd (assignExams exam_fixed plain_options [bo; alice] fresh))))
     = Some {| stats_section := to_section sec1; stats_section_n := 2 |}
  /\ sectionStatsMap
       (snd (assignExams exam_drift_inherited plain_options [bo; alice]
               fresh)) !! "toString"
     = None.
Proof.
  split; [exact fresh_stats_exact|]. split; [|split].
  - exact (stats_count_every_assignment exam_fixed plain_options [bo; alice]
             fresh _ (pair_of_fst _ _ two_students_assigned)
             fresh_stats_exact).
  - vm_compute. reflexivity.
  - rewrite (proj1 (stats_count_every_assignment exam_drift_inherited
                      plain_options [bo; alice] fresh _
                      (pair_of_fst _ _ two_students_assigned_toString)
                      fresh_stats_exact) "toString").
    reflexivity.
Defined.

(** X2 on the instance. *)
Lemma maps_hold_latest_assignment_witness :
  maps_latest fresh (assignedExams fresh)
  /\ maps_latest
       (snd (assignExams exam_fixed plain_options [bo; alice] fresh))
       (assignedExams
          (snd (assignExams exam_fixed plain_options [bo; alice] fresh))).
Proof.
  split; [exact fresh_maps_latest|].
  exact (maps_hold_latest_assignment exam_fixed plain_options [bo; alice]
           fresh _ (pair_of_fst _ _ two_students_assigned) fresh_maps_latest).
Defined.

(** X3 on the instance: a roster that lists [bo] twice leaves two exams and
    one entry for [bo], the second exam. *)
Lemma by_uniqname_holds_latest_exam_witness :
  by_uniqname_latest fresh
  /\ by_uniqname_latest
       (snd (assignExams exam_fixed plain_options [bo; bo] fresh))
  /\ length (assignedExams
               (snd (assignExams exam_fixed plain_options [bo; bo] fresh)))
     = 2.
Proof.
  split; [exact fresh_by_uniqname_latest|]. split.
  - exact (by_uniqname_holds_latest_exam exam_fixed plain_options [bo; bo]
             fresh _ _ (surjective_pairing _) fresh_by_uniqname_latest).
  - vm_compute. reflexivity.
Defined.

(** X4 on the instance: the run on the exam with a section variant worth
    fewer points throws at [alice], the second of three students. *)
Lemma assignExams_appends_a_prefix_witness :
  exists new rest,
    assignedExams
      (snd (assignExams exam_unequal plain_options [bo; alice; bo] fresh))
    = assignedExams fresh ++ new
    /\ Forall (fun ae => ae_exam ae = exam_unequal) new
    /\ [bo; alice; bo] = map ae_student new ++ rest
    /\ (fst (assignExams exam_unequal plain_options [bo; alice; bo] fresh)
        = Ok tt -> rest = []).
Proof.
  exact (assignExams_appends_a_prefix exam_unequal plain_options
           [bo; alice; bo] fresh _ _ (surjective_pairing _)).
Defined.

(** X5 on the instance. *)
Lemma plain_exam_uuids_distinct_across_students_witness :
  uuid_strategy plain_options = plain
  /\ NoDup (map uniqname (map ae_student (assignedExams fresh) ++ [bo; alice]))
  /\ NoDup (map ae_uuid
              (assignedExams
                 (snd (assignExams exam_fixed plain_options [bo; alice]
                         fresh)))).
Proof.
  assert (NoDup (map uniqname
                   (map ae_student (assignedExams fresh) ++ [bo; alice])))
    as Hnodup.
  { apply (bool_decide_unpack _). vm_compute. reflexivity. }
  split; [reflexivity|]. split; [exact Hnodup|].
  exact (plain_exam_uuids_distinct_across_students exam_fixed plain_options
           [bo; alice] fresh _ _ eq_refl (surjective_pairing _)
           (List.Forall_nil _) Hnodup).
Defined.

(** X6 on the instance. *)
Lemma indices_are_positions_witness :
  fst (createRandomizedExam exam_fixed plain_options bo None fresh)
  = Ok (assigned_fixed bo)
  /\ allow_duplicates plain_options = false
  /\ map as_sectionIndex (ae_assignedSections (assigned_fixed bo)) = [0]
  /\ Forall parts_numbered (ae_assignedSections (assigned_fixed bo)).
Proof.
  assert (fst (createRandomizedExam exam_fixed plain_options bo None fresh)
          = Ok (assigned_fixed bo)) as Hok by (vm_compute; reflexivity).
  split; [exact Hok|]. split; [reflexivity|].
  exact (proj2 (proj2 (proj2 (indices_are_positions exam_fixed plain_options
                                bo None fresh _ _ (pair_of_fst _ _ Hok))))
           eq_refl).
Defined.

(** X8 on the instance. *)
Lemma constructed_generator_has_uuidv5_namespace_witness :
  exists ns,
    uuidv5_namespace (assign_defaults (uuidv5_options (Some "0123456789abcdef")))
    = Some ns
    /\ 16 <= String.length ns
    /\ forall student id d,
         createStudentUuid
           (assign_defaults (uuidv5_options (Some "0123456789abcdef")))
           student id d
         = (uuid_v5 (uniqname student +:+ "-" +:+ id) ns, d).
Proof.
  exact (constructed_generator_has_uuidv5_namespace 0 exam_fixed
           (uuidv5_options (Some "0123456789abcdef")) _ eq_refl eq_refl).
Defined.

Lemma demo_chunk_slices : chunk_slices.
Proof.
  intros A l k Hk. cbn. by destruct (Z.ltb_spec k 1); [lia|].
Qed.

Lemma demo_chunk_cuts_in_order : chunk_cuts_in_order.
Proof.
  intros A l size chunks. cbn. destruct size as [k| |].
  - destruct (Z.ltb_spec k 1); [discriminate|]. intros Hc.
    injection Hc as <-. apply slices_from_concat; lia.
  - intros Hc. injection Hc as <-. destruct l; [done|]. cbn.
    by rewrite app_nil_r.
  - discriminate.
Qed.

Lemma two_assignments_rechunked :
  fst (rechunkGradingAssignments two_assignments (WholeNumber 4) tt)
  = Ok four_assignments.
Proof. reflexivity. Qed.

(** X9 on the instance: the two assignments, cut again in four chunks, give
    four assignments of one group. *)
Lemma rechunk_keeps_every_group_witness :
  chunk_cuts_in_order
  /\ length two_assignments = 2
  /\ fst (rechunkGradingAssignments two_assignments (WholeNumber 4) tt)
     = Ok four_assignments
  /\ length four_assignments = 4
  /\ map group_submissions (flat_map assn_groups four_assignments)
     = map group_submissions (flat_map assn_groups two_assignments)
  /\ map group_name (flat_map assn_groups four_assignments)
     = map (fun i => "group_" +:+ pretty i)
           (seq 0 (length (flat_map assn_groups two_assignments))).
Proof.
  split; [exact demo_chunk_cuts_in_order|]. split; [reflexivity|].
  split; [exact two_assignments_rechunked|]. split; [reflexivity|].
  destruct (rechunk_keeps_every_group two_assignments (WholeNumber 4) tt
              four_assignments _ demo_chunk_cuts_in_order
              (pair_of_fst _ _ two_assignments_rechunked))
    as (first & _ & _ & _ & Hsubs & _ & Hnames).
  split; [exact Hsubs|exact Hnames].
Defined.

(** X10 on the instance: four questions in three chunks. *)
Lemma createGradingAssignments_one_group_per_question_witness :
  chunk_slices
  /\ exists out,
       createGradingAssignments questions_to_grade (WholeNumber 3) tt
       = (Ok out, tt)
       /\ 1 <= length out <= 3
       /\ map (fun g => (map gs_question_uuid (group_submissions g),
                         group_representative_index g))
              (flat_map assn_groups out)
          = [(["bo-midterm-q-q1"], 0); (["bo-midterm-q-q2"], 0);
             (["alice-midterm-q-q1"], 0); (["alice-midterm-q-q2"], 0)].
Proof.
  split; [exact demo_chunk_slices|].
  destruct (createGradingAssignments_one_group_per_question
              (to_grade bo q1 0)
              [to_grade bo q2 1; to_grade alice q1 0; to_grade alice q2 1]
              3 tt demo_chunk_slices ltac:(lia))
    as (out & Hout & Hlen & _ & Hgroups).
  exists out. split; [exact Hout|]. split; [exact Hlen|]. exact Hgroups.
Defined.

(** X13 on the instance. *)
Lemma loadExamSpecification_rejects_null_witness :
  exists e, loadExamSpecification "spec.json" file_with_null
            = (Err e, file_with_null).
Proof.
  exact (loadExamSpecification_rejects_null file_with_null "spec.json" _
           eq_refl eq_refl).
Defined.

(** X14 on the instance: of the five answers, two have the second choice,
    one the first, and two are without a selection. *)
Lemma overview_counts_every_submission_witness :
  fst (renderOverview 1 answers tt) = Ok answers_overview
  /\ exists hist,
       (forall i count, hist !! i = Some count ->
                        count = times_selected i answers)
       /\ sum_list hist + unanswered answers = length answers
       /\ times_selected 1 answers = 2
       /\ unanswered answers = 2.
Proof.
  assert (fst (renderOverview 1 answers tt) = Ok answers_overview) as Hok
    by (vm_compute; reflexivity).
  split; [exact Hok|].
  destruct (overview_counts_every_submission 1 answers tt _ _
              (pair_of_fst _ _ Hok))
    as (first & hist & options & _ & Hcount & _ & Hsum & _).
  exists hist. split; [exact Hcount|]. split; [exact Hsum|].
  split; reflexivity.
Defined.

Lemma test_student_assigned :
  fst (assignExams exam_test plain_options [test_student] fresh) = Ok tt.
Proof. vm_compute. reflexivity. Qed.

(** X16 on the instance: the exam whose section has the id "section", as
    the test exams of the repository have; the section is counted in the
    statistics and missing from the file. *)
Lemma writeStats_writes_counts_witness :
  is_Some (sectionStatsMap
             (snd (assignExams exam_test plain_options [test_student] fresh))
           !! "section")
  /\ exists questions sections,
       writeStats exam_test
         (snd (assignExams exam_test plain_options [test_student] fresh)) ∅
       = (Ok tt,
          {[ "data/simple_test/stats.json" :=
               JsonText (JObject [("questions", JObject questions);
                                  ("sections", JObject sections)]) ]})
       /\ lookup_member "section" sections = None
       /\ lookup_member "q1" questions = Some (count_json 1).
Proof.
  split.
  { apply (bool_decide_unpack _). vm_compute. reflexivity. }
  destruct (writeStats_writes_counts exam_test
              (snd (assignExams exam_test plain_options [test_student] fresh))
              ∅)
    as (questions & sections & Hw & Hs & Hq).
  exists questions, sections. split; [exact Hw|]. split.
  - exact (Hs "section").
  - rewrite (Hq "q1"). vm_compute. reflexivity.
Defined.

(** X17 on the instance: two students with the same exam. *)
Lemma stats_file_counts_assignments_witness :
  stats_exact fresh (assignedExams fresh)
  /\ exists questions sections,
       writeStats exam_fixed
         (snd (assignExams exam_fixed plain_options [bo; alice] fresh)) ∅
       = (Ok tt,
          {[ "data/midterm/stats.json" :=
               JsonText (JObject [("questions", JObject questions);
                                  ("sections", JObject sections)]) ]})
       /\ lookup_member "sec1" sections = Some (count_json 2)
       /\ lookup_member "q2" questions = Some (count_json 2)
       /\ lookup_member "q3" questions = None.
Proof.
  split; [exact fresh_stats_exact|].
  destruct (stats_file_counts_assignments exam_fixed plain_options
              [bo; alice] fresh _ ∅
              (pair_of_fst _ _ two_students_assigned) fresh_stats_exact)
    as (questions & sections & Hw & Hs & Hq).
  exists questions, sections. split; [exact Hw|]. split; [|split].
  - rewrite (Hs "sec1" eq_refl). vm_compute. reflexivity.
  - rewrite (Hq "q2" eq_refl). vm_compute. reflexivity.
  - rewrite (Hq "q3" eq_refl). vm_compute. reflexivity.
Defined.

(** X12 on the instance: the roster whose header has no [name] column is
    accepted. *)
Lemma loadCSVRoster_accepts_iff_witness :
  @loadCSVRoster roster_without_names "roster.csv"
  = Ok [ {| row_uniqname := Some "bo"; row_name := None |} ].
Proof.
  apply (proj2 (@loadCSVRoster_accepts_iff roster_without_names
                  "roster.csv" _)).
  eexists. split; [reflexivity|]. split; [reflexivity|].
  repeat constructor; discriminate.
Defined.

(** X15 on the instance: one submission with its manifest, one without a
    student and one file that is not JSON. *)
Lemma loadTrustedSubmissions_skips_unreadable_witness :
  exists trusted,
    loadTrustedSubmissions submitted_files "manifests" "submitted" []
    = (Ok [trusted],
       [msg_unable_to_open "alice.json"; msg_unable_to_open "notes.txt"]).
Proof.
  destruct (loadTrustedSubmissions_skips_unreadable submitted_files
              "manifests" "submitted" [])
    as (trusted & warnings & Hload & Ht & Hw & _).
  rewrite Hload, Ht, Hw. eexists. vm_compute. reflexivity.
Defined.

(** X18 on the instance: with duplicates allowed, the two copies of the
    section with two skins have one uuid. *)
Lemma plain_uuids_follow_ids_witness :
  uuid_strategy duplicates_options = plain
  /\ fst (createRandomizedExam exam_two_skins duplicates_options bo None fresh)
     = Ok exam_of_two_skins
  /\ map (fun a => (as_uuid a, as_skin a))
         (ae_assignedSections exam_of_two_skins)
     = [("bo-midterm-s-sec3", "s1"); ("bo-midterm-s-sec3", "s2")]
  /\ (forall a b,
        a ∈ ae_assignedSections exam_of_two_skins ->
        b ∈ ae_assignedSections exam_of_two_skins ->
        (as_uuid a = as_uuid b
         <-> section_id (as_section a) = section_id (as_section b))).
Proof.
  assert (fst (createRandomizedExam exam_two_skins duplicates_options bo None
                 fresh)
          = Ok exam_of_two_skins) as Hok by reflexivity.
  split; [reflexivity|]. split; [exact Hok|]. split; [reflexivity|].
  exact (proj1 (plain_uuids_follow_ids exam_two_skins duplicates_options bo
                  None fresh _ _ eq_refl (pair_of_fst _ _ Hok))).
Defined.

(** X19 on the instance: the first name drawn is the name of a file of an
    earlier session; the call throws and the file is as it was. *)
Lemma writeGradingAssignments_never_overwrites_witness :
  fst (writeGradingAssignments two_assignments (graded_before, 0))
  = Err (Thrown "EEXIST: file already exists")
  /\ (forall path content,
        graded_before !! path = Some content ->
        fst (snd (writeGradingAssignments two_assignments (graded_before, 0)))
        !! path = Some content)
  /\ fst (writeGradingAssignments two_assignments (∅, 0)) = Ok tt
  /\ snd (snd (writeGradingAssignments two_assignments (∅, 0))) = 2.
Proof.
  split; [reflexivity|]. split.
  - exact (proj1 (writeGradingAssignments_never_overwrites two_assignments
                    graded_before 0 _ _ _
                    (eq_trans (surjective_pairing _)
                       (f_equal (pair _) (surjective_pairing _))))).
  - split; reflexivity.
Defined.

Lemma two_students_assigned_with_media :
  fst (assignExams exam_with_media plain_options [bo; alice] fresh) = Ok tt.
Proof. vm_compute. reflexivity. Qed.

(** X20 on the instance: the exam has a media directory, its section and
    its questions have none. *)
Lemma writeMedia_copies_assigned_media_witness :
  maps_latest fresh (assignedExams fresh)
  /\ exists of_sections of_questions,
       writeMedia exam_with_media plain_options
         (snd (assignExams exam_with_media plain_options [bo; alice] fresh))
         "out" []
       = (Ok tt,
          [] ++ [("media/midterm", "out/media/exam/midterm")]
          ++ of_sections ++ of_questions)
       /\ length of_sections
          <= size (sectionsMap
                     (snd (assignExams exam_with_media plain_options
                             [bo; alice] fresh))).
Proof.
  split; [exact fresh_maps_latest|].
  destruct (writeMedia_copies_assigned_media exam_with_media plain_options
              [bo; alice] fresh _ "out" []
              (pair_of_fst _ _ two_students_assigned_with_media)
              fresh_maps_latest)
    as (of_sections & of_questions & Hw & _ & _ & Hlen & _).
  exists of_sections, of_questions. split; [exact Hw|exact Hlen].
Defined.


Lemma PARSONS_PARSER_returns_without_null_witness :
  exists r,
    PARSONS_PARSER (Some text_with_children) = Ok r
    /\ match r with
       | BLANK_SUBMISSION => True
       | MALFORMED_SUBMISSION =>
           exists raw,
             Some text_with_children = Some raw
             /\ String_trim raw <> ""
             /\ (JSON_parse_text raw = None
                 \/ exists text,
                      JSON_parse_text raw = Some text
                      /\ isValidParsonsSubmission (value_of_json text)
                         = Ok false)
       | Submitted v =>
           exists raw text,
             Some text_with_children = Some raw
             /\ JSON_parse_text raw = Some text
             /\ v = value_of_json text
             /\ isValidParsonsSubmission v = Ok true
             /\ v <> VArray []
       end.
Proof.
  apply (PARSONS_PARSER_returns_without_null (Some text_with_children)).
  intros raw text Hraw Hparse. injection Hraw as <-.
  vm_compute in Hparse. injection Hparse as <-. reflexivity.
Defined.

Lemma PARSONS_PARSER_throws_on_null_item_witness :
  PARSONS_PARSER (Some text_with_null)
  = Err (TypeError "Cannot read properties of null").
Proof.
  apply (PARSONS_PARSER_throws_on_null_item text_with_null
           (JArray [JString "x";
                    JArray [JObject [("id", JString "a")]; JNull; JNumber 7]])
           [VString "x"] [] [VObject [("id", VString "a")]] [VNumber 7]).
  - vm_compute. discriminate.
  - reflexivity.
  - reflexivity.
  - repeat constructor.
  - repeat constructor.
Defined.

Lemma PARSONS_PARSER_returns_items_with_ids_witness :
  PARSONS_PARSER (Some text_with_ids)
  = Ok (Submitted
          (VArray [VArray [VObject [("id", VString "a");
                                    ("children", VNumber 42)]];
                   VString "x"])).
Proof.
  apply (PARSONS_PARSER_returns_items_with_ids text_with_ids
           (JArray [JArray [JObject [("id", JString "a");
                                     ("children", JNumber 42)]];
                    JString "x"])
           [VArray [VObject [("id", VString "a");
                             ("children", VNumber 42)]];
            VString "x"]).
  - vm_compute. discriminate.
  - reflexivity.
  - reflexivity.
  - reflexivity.
Defined.

